(** * LyreBird audio stream analyzer: capture buffer, spectrum and metrics

    A shallow embedding of [src/analysis/lyrebird_stream_analyzer.py]
    (class [AudioStreamAnalyzer]): the per-stream bounded queue and the
    capture loop body, the PCM conversion, the spectral analysis, the
    statistics of one chunk and the coordinator loop that fills the
    per-stream histories.

    Conventions.
    - Python exceptions are values of [exn]; a call that may raise returns a
      [result].
    - numpy floating point values are modelled by [xreal]: a real number or
      one of the three IEEE specials (+inf, -inf, NaN).  Arithmetic follows
      the IEEE rules for the specials and is exact on finite values
      (rounding and signed zeros are not modelled).
    - the dictionaries keyed by stream name ([audio_queues], [results],
      [analysis_count]) are [gmap string _]. *)

From Stdlib Require Import Reals Lra Lia ZArith List Sorted.
From Stdlib Require Strings.Byte.
From stdpp Require Import gmap strings list sorting.

(** ** Exceptions and results *)

Inductive exn : Type :=
| Full                (* queue.Full *)
| Empty               (* queue.Empty *)
| ValueError
| IndexError
| KeyError
| ZeroDivisionError.

Inductive result (A : Type) : Type :=
| Ok (a : A)
| Raise (e : exn).
Arguments Ok {A} a.
Arguments Raise {A} e.

Definition bind {A B : Type} (r : result A) (k : A -> result B) : result B :=
  match r with
  | Ok a => k a
  | Raise e => Raise e
  end.

Notation "'let*' x ':=' r 'in' k" := (bind r (fun x => k))
  (at level 10, x name, r at level 100, k at level 200).

(** ** [queue.Queue] as used for [self.audio_queues[name]]

    [maxsize <= 0] means "unbounded", as in Python; the analyzer builds its
    queues with [maxsize=10]. *)

Record Queue (A : Type) : Type := mkQueue {
  maxsize : Z;
  items : list A
}.
Arguments mkQueue {A} maxsize items.
Arguments maxsize {A} q.
Arguments items {A} q.

Section QueueOps.
Context {A : Type}.

Definition new_queue (k : Z) : Queue A := mkQueue k [].

Definition qsize (q : Queue A) : Z := Z.of_nat (length (items q)).

(** [Queue.put(item, block=False)] *)
Definition put_nowait (q : Queue A) (x : A) : result (Queue A) :=
  if (0 <? maxsize q)%Z && (maxsize q <=? qsize q)%Z
  then Raise Full
  else Ok (mkQueue (maxsize q) (items q ++ [x])).

(** [Queue.get(block=False)]; [Queue.get(timeout=t)] has the same outcome
    once the wait is over: the oldest item, or [queue.Empty]. *)
Definition get_nowait (q : Queue A) : result (A * Queue A) :=
  match items q with
  | [] => Raise Empty
  | x :: rest => Ok (x, mkQueue (maxsize q) rest)
  end.

(** Lines 175-183 of [capture_stream_ffmpeg]:
<<
    try:
        q.put_nowait(item)
    except queue.Full:
        try:
            q.get_nowait()
            q.put_nowait(item)
        except:
            pass
>>
    A [queue.Empty] is not a [queue.Full], so it would leave the outer
    [try]; [put_nowait] never raises it. *)
Definition enqueue_drop_oldest (q : Queue A) (x : A) : result (Queue A) :=
  match put_nowait q x with
  | Ok q' => Ok q'
  | Raise Full =>
      match get_nowait q with
      | Ok (_, q1) =>
          match put_nowait q1 x with
          | Ok q2 => Ok q2
          | Raise _ => Ok q1
          end
      | Raise _ => Ok q
      end
  | Raise e => Raise e
  end.

(** What the producer and the consumer can do to one queue. *)
Inductive qop : Type :=
| Enq (x : A)
| Deq.

Definition run_qop (q : Queue A) (o : qop) : Queue A :=
  match o with
  | Enq x => match enqueue_drop_oldest q x with Ok q' => q' | Raise _ => q end
  | Deq => match get_nowait q with Ok (_, q') => q' | Raise _ => q end
  end.

Definition run_qops (q : Queue A) (ops : list qop) : Queue A :=
  fold_left run_qop ops q.

(** Enqueue a list of frames, oldest first, with no dequeue in between. *)
Definition enqueue_all (q : Queue A) (xs : list A) : Queue A :=
  run_qops q (map Enq xs).

(** Dequeue until [queue.Empty]; the fuel is the number of attempts. *)
Fixpoint drain (fuel : nat) (q : Queue A) : list A :=
  match fuel with
  | O => []
  | S n =>
      match get_nowait q with
      | Ok (x, q') => x :: drain n q'
      | Raise _ => []
      end
  end.

(** The size invariant of a bounded queue. *)
Definition bounded (q : Queue A) : Prop := (qsize q <= maxsize q)%Z.

(** The most recent [k] elements of a list. *)
Definition most_recent (k : nat) (l : list A) : list A :=
  skipn (length l - k) l.
End QueueOps.
Arguments qop A : clear implicits.

(** ** numpy floating point values *)

Inductive xreal : Type :=
| Fin (r : R)
| PInf
| NInf
| NaN.

Definition Rltb (a b : R) : bool := if Rlt_dec a b then true else false.
Definition Rleb (a b : R) : bool := if Rle_dec a b then true else false.
Definition Reqb (a b : R) : bool := if Req_dec_T a b then true else false.

Definition xopp (a : xreal) : xreal :=
  match a with
  | Fin x => Fin (- x)
  | PInf => NInf
  | NInf => PInf
  | NaN => NaN
  end.

Definition xadd (a b : xreal) : xreal :=
  match a, b with
  | NaN, _ | _, NaN => NaN
  | Fin x, Fin y => Fin (x + y)
  | PInf, NInf | NInf, PInf => NaN
  | PInf, _ | _, PInf => PInf
  | NInf, _ | _, NInf => NInf
  end.

Definition xsub (a b : xreal) : xreal := xadd a (xopp b).

(** The infinity with the sign of [x], or NaN for [x = 0]. *)
Definition signed_inf (x : R) : xreal :=
  if Reqb x 0 then NaN else if Rltb 0 x then PInf else NInf.

Definition xmul (a b : xreal) : xreal :=
  match a, b with
  | NaN, _ | _, NaN => NaN
  | Fin x, Fin y => Fin (x * y)
  | Fin x, PInf | PInf, Fin x => signed_inf x
  | Fin x, NInf | NInf, Fin x => signed_inf (- x)
  | PInf, PInf | NInf, NInf => PInf
  | PInf, NInf | NInf, PInf => NInf
  end.

(** numpy division: a zero divisor gives an infinity or NaN (and a
    warning), never an exception. *)
Definition xdiv (a b : xreal) : xreal :=
  match a, b with
  | NaN, _ | _, NaN => NaN
  | Fin x, Fin y => if Reqb y 0 then signed_inf x else Fin (x / y)
  | Fin _, (PInf | NInf) => Fin 0
  | PInf, Fin y => if Rltb y 0 then NInf else PInf
  | NInf, Fin y => if Rltb y 0 then PInf else NInf
  | (PInf | NInf), (PInf | NInf) => NaN
  end.

Definition xabs (a : xreal) : xreal :=
  match a with
  | Fin x => Fin (Rabs x)
  | PInf | NInf => PInf
  | NaN => NaN
  end.

Definition xsqrt (a : xreal) : xreal :=
  match a with
  | Fin x => if Rltb x 0 then NaN else Fin (sqrt x)
  | PInf => PInf
  | NInf | NaN => NaN
  end.

Definition log10 (x : R) : R := (ln x / ln 10)%R.

(** [np.log10]: -inf at zero, NaN below. *)
Definition xlog10 (a : xreal) : xreal :=
  match a with
  | Fin x => if Rltb x 0 then NaN else if Reqb x 0 then NInf else Fin (log10 x)
  | PInf => PInf
  | NInf | NaN => NaN
  end.

(** Comparisons; every comparison with NaN is false. *)
Definition xltb (a b : xreal) : bool :=
  match a, b with
  | NaN, _ | _, NaN => false
  | Fin x, Fin y => Rltb x y
  | NInf, (Fin _ | PInf) => true
  | Fin _, PInf => true
  | _, _ => false
  end.

Definition xleb (a b : xreal) : bool :=
  match a, b with
  | NaN, _ | _, NaN => false
  | Fin x, Fin y => Rleb x y
  | NInf, _ => true
  | _, PInf => true
  | _, _ => false
  end.

Definition xgtb (a b : xreal) : bool := xltb b a.
Definition xgeb (a b : xreal) : bool := xleb b a.

(** [np.maximum], which propagates NaN. *)
Definition xmax (a b : xreal) : xreal :=
  match a, b with
  | NaN, _ | _, NaN => NaN
  | _, _ => if xltb a b then b else a
  end.

(** [np.sum]; in exact arithmetic the order of the additions does not
    matter ([xadd] is commutative and associative, see [xadd_comm] and
    [xadd_assoc]), so numpy's pairwise summation gives the same value. *)
Definition xsum (l : list xreal) : xreal := fold_left xadd l (Fin 0).

(** [np.mean]; the empty mean is 0/0 = NaN (with a warning). *)
Definition xmean (l : list xreal) : xreal :=
  xdiv (xsum l) (Fin (INR (length l))).

(** [np.max]; raises on an empty array. *)
Definition np_max (l : list xreal) : result xreal :=
  match l with
  | [] => Raise ValueError
  | x :: rest => Ok (fold_left xmax rest x)
  end.

(** [np.cumsum] *)
Fixpoint cumsum_from (acc : xreal) (l : list xreal) : list xreal :=
  match l with
  | [] => []
  | x :: rest => xadd acc x :: cumsum_from (xadd acc x) rest
  end.

Definition np_cumsum (l : list xreal) : list xreal :=
  match l with
  | [] => []
  | x :: rest => x :: cumsum_from x rest
  end.

Definition is_finite (a : xreal) : bool :=
  match a with Fin _ => true | _ => false end.

Definition floor_const : R := 1e-10.

(** ** Configuration ([__init__]) *)

(** Python's [int()] on a float: truncation towards zero. *)
Definition py_int (x : R) : Z :=
  if Rleb 0 x then Zfloor x else Zceil x.

Record Config : Type := mkConfig {
  sample_rate : Z;
  chunk_duration : R;
  streams : list string          (* the keys of [self.streams], in order *)
}.

(** [self.chunk_size = int(sample_rate * chunk_duration)].  The product is
    the exact real product; Python truncates the binary64 product, which can
    differ by one when the exact product is at or next to an integer that
    the factors do not represent exactly (3 * (1/3), 8000 * 0.03).  The
    properties below are stated in terms of [chunk_size c] itself. *)
Definition chunk_size (c : Config) : Z :=
  py_int (IZR (sample_rate c) * chunk_duration c).

Definition bytes_per_sample : Z := 2.

Definition chunk_bytes (c : Config) : Z := (chunk_size c * bytes_per_sample)%Z.

(** The queues of the analyzer: [queue.Queue(maxsize=10)]. *)
Definition queue_maxsize : Z := 10.

(** ** One chunk of the capture loop ([capture_stream_ffmpeg]) *)

Abbreviation byte := Byte.byte.

(** One little-endian signed 16-bit sample. *)
Definition int16_of_bytes (lo hi : byte) : Z :=
  let u := (Z.of_N (Byte.to_N lo) + 256 * Z.of_N (Byte.to_N hi))%Z in
  if (u <? 32768)%Z then u else (u - 65536)%Z.

(** [np.frombuffer(raw, dtype=np.int16)]; the buffer size must be a multiple
    of the element size. *)
Fixpoint frombuffer_int16 (raw : list byte) : result (list Z) :=
  match raw with
  | [] => Ok []
  | [_] => Raise ValueError
  | lo :: hi :: rest =>
      let* xs := frombuffer_int16 rest in
      Ok (int16_of_bytes lo hi :: xs)
  end.

(** [audio_data.astype(np.float32) / 32768.0] on one sample.  A 16-bit code
    and its quotient by 2^15 are both exact in binary32. *)
Definition pcm_to_float (code : Z) : xreal := Fin (IZR code / 32768).

(** [raw_audio += b'\x00' * (chunk_bytes - len(raw_audio))] when short. *)
Definition pad_chunk (cb : Z) (raw : list byte) : list byte :=
  if (Z.of_nat (length raw) <? cb)%Z
  then raw ++ repeat Byte.x00 (Z.to_nat (cb - Z.of_nat (length raw)))
  else raw.

(** A queued frame: the timestamp and the samples. *)
Abbreviation Frame := (R * list xreal)%type.

Abbreviation FrameQueue := (Queue Frame).

(** The samples built from one nonempty read. *)
Definition frame_samples (c : Config) (raw : list byte) : result (list xreal) :=
  let* codes := frombuffer_int16 (pad_chunk (chunk_bytes c) raw) in
  Ok (map pcm_to_float codes).

(** The body of [while self.running:], given what [read(chunk_bytes)]
    returned and what [time.time()] returns.  [None] is the [break] after a
    zero-byte read. *)
Definition capture_chunk (c : Config) (q : FrameQueue)
    (raw : list byte) (now : R) : result (option FrameQueue) :=
  if (length raw =? 0)%nat then Ok None
  else
    let* audio_data := frame_samples c raw in
    let* q' := enqueue_drop_oldest q (now, audio_data) in
    Ok (Some q').

(** ** Spectral analysis ([analyze_frequency_spectrum]) *)

(** Python's [/] on floats. *)
Definition py_div (a b : R) : result R :=
  if Reqb b 0 then Raise ZeroDivisionError else Ok (a / b)%R.

(** [np.linspace(-np.pi, np.pi, M)] at index [j]. *)
Definition hann_fac (M j : nat) : R :=
  (INR j * ((PI - - PI) / INR (M - 1)) + - PI)%R.

(** [scipy.signal.windows.hann(M)], the symmetric window: a sum of the two
    cosine terms with weights 0.5 and 0.5; all ones for [M <= 1]. *)
Definition hann (M : nat) : list R :=
  if (M <=? 1)%nat then repeat 1%R M
  else map (fun j => (0.5 * cos (0 * hann_fac M j)
                      + 0.5 * cos (1 * hann_fac M j))%R) (seq 0 M).

Definition dft_angle (n j k : nat) : R :=
  (2 * PI * INR j * INR k / INR n)%R.

(** One output bin of the real FFT, as (real part, imaginary part): the
    defining sum, meant for finite samples (on an infinite sample the sum
    gives NaN where the library's butterflies may give an infinity). *)
Definition rfft_bin (x : list xreal) (k : nat) : xreal * xreal :=
  let n := length x in
  (xsum (imap (fun j xj => xmul xj (Fin (cos (dft_angle n j k)))) x),
   xsum (imap (fun j xj => xmul xj (Fin (- sin (dft_angle n j k)))) x)).

(** [scipy.fft.rfft]: bins 0 .. n/2; raises on an empty input. *)
Definition rfft (x : list xreal) : result (list (xreal * xreal)) :=
  match x with
  | [] => Raise ValueError
  | _ => Ok (map (rfft_bin x) (seq 0 (length x / 2 + 1)))
  end.

(** [rfftfreq(n, d)]: [val = 1.0/(n*d)], then [arange(0, n//2 + 1) * val].
    Bin [k] is the exact real [k * sample_rate / n]; in binary64 a bin can
    be one unit in the last place away from it, which matters only for a bin
    that is exactly on an edge of a band. *)
Definition rfftfreq (n : nat) (d : R) : result (list xreal) :=
  let* val := py_div 1 (INR n * d) in
  Ok (map (fun k => Fin (INR k * val)) (seq 0 (n / 2 + 1))).

(** [np.abs] of a complex number. *)
Definition xcabs (z : xreal * xreal) : xreal :=
  xsqrt (xadd (xmul (fst z) (fst z)) (xmul (snd z) (snd z))).

Definition xsquare (a : xreal) : xreal := xmul a a.

Definition to_db10 (p : xreal) : xreal :=
  xmul (Fin 10) (xlog10 (xadd p (Fin floor_const))).

Definition analyze_frequency_spectrum (c : Config) (audio_data : list xreal)
    : result (list xreal * list xreal) :=
  let window := hann (length audio_data) in
  let windowed_data := zip_with xmul audio_data (map Fin window) in
  let* fft_vals := rfft windowed_data in
  let* d := py_div 1 (IZR (sample_rate c)) in
  let* fft_freq := rfftfreq (length windowed_data) d in
  let psd := map (fun z => xsquare (xcabs z)) fft_vals in
  let psd_db := map to_db10 psd in
  Ok (fft_freq, psd_db).

(** ** Statistics of one chunk ([compute_statistics]) *)

Record Stats : Type := mkStats {
  rms : xreal;
  rms_db : xreal;
  peak : xreal;
  peak_db : xreal;
  crest_factor : xreal;
  crest_factor_db : xreal;
  low_freq_power : xreal;
  mid_freq_power : xreal;
  bird_freq_power : xreal;
  high_freq_power : xreal;
  snr_bird_to_low : xreal;
  snr_bird_to_mid : xreal;
  spectral_centroid : xreal;
  spectral_rolloff : xreal
}.

Definition to_db20 (a : xreal) : xreal := xmul (Fin 20) (xlog10 a).

(** The four masks over the frequency axis. *)
Definition low_mask (freq : list xreal) : list bool :=
  map (fun f => xltb f (Fin 1000)) freq.
Definition mid_mask (freq : list xreal) : list bool :=
  map (fun f => xgeb f (Fin 1000) && xltb f (Fin 3000)) freq.
Definition bird_mask (freq : list xreal) : list bool :=
  map (fun f => xgeb f (Fin 3000) && xleb f (Fin 8000)) freq.
Definition high_mask (freq : list xreal) : list bool :=
  map (fun f => xgtb f (Fin 8000)) freq.

(** [a[mask]] with a boolean mask: the lengths must agree. *)
Definition bool_index (a : list xreal) (mask : list bool) : result (list xreal) :=
  if (length a =? length mask)%nat
  then Ok (map snd (filter (fun p => fst p = true) (zip mask a)))
  else Raise IndexError.

Definition np_any (mask : list bool) : bool := existsb (fun b => b) mask.

(** [np.mean(psd_db[mask]) if np.any(mask) else -np.inf] *)
Definition band_power (psd_db : list xreal) (mask : list bool) : result xreal :=
  if np_any mask
  then let* sel := bool_index psd_db mask in Ok (xmean sel)
  else Ok NInf.

(** [a * b] on one-dimensional arrays, with numpy's broadcasting. *)
Definition np_mul (a b : list xreal) : result (list xreal) :=
  if (length a =? length b)%nat then Ok (zip_with xmul a b)
  else match a, b with
       | [x], _ => Ok (map (xmul x) b)
       | _, [y] => Ok (map (fun x => xmul x y) a)
       | _, _ => Raise ValueError
       end.

(** [np.where(cumsum >= t)[0]] *)
Definition where_ge (cumsum : list xreal) (t : xreal) : list nat :=
  map fst (filter (fun p => xgeb (snd p) t = true) (imap (fun i x => (i, x)) cumsum)).

(** [a[-1]] and [a[i]] *)
Definition last_item (a : list xreal) : result xreal :=
  match last a with
  | Some x => Ok x
  | None => Raise IndexError
  end.

Definition item_at (a : list xreal) (i : nat) : result xreal :=
  match a !! i with
  | Some x => Ok x
  | None => Raise IndexError
  end.

(** Lines 275-278. *)
Definition rolloff (freq psd_db : list xreal) : result xreal :=
  let cumsum := np_cumsum psd_db in
  let* total := last_item cumsum in
  let rolloff_idx := where_ge cumsum (xmul (Fin 0.85) total) in
  match rolloff_idx with
  | i :: _ => item_at freq i
  | [] => Ok (Fin 0)
  end.

Definition compute_statistics (audio_data freq psd_db : list xreal)
    : result Stats :=
  let rms := xsqrt (xmean (map xsquare audio_data)) in
  let rms_db := to_db20 (xadd rms (Fin floor_const)) in
  let* peak := np_max (map xabs audio_data) in
  let peak_db := to_db20 (xadd peak (Fin floor_const)) in
  let crest_factor := xdiv peak (xadd rms (Fin floor_const)) in
  let crest_factor_db := to_db20 crest_factor in
  let* low := band_power psd_db (low_mask freq) in
  let* mid := band_power psd_db (mid_mask freq) in
  let* bird := band_power psd_db (bird_mask freq) in
  let* high := band_power psd_db (high_mask freq) in
  let snr_low := xsub bird low in
  let snr_mid := xsub bird mid in
  let* weighted := np_mul freq psd_db in
  let centroid := xdiv (xsum weighted) (xsum psd_db) in
  let* roll := rolloff freq psd_db in
  Ok (mkStats rms rms_db peak peak_db crest_factor crest_factor_db
        low mid bird high snr_low snr_mid centroid roll).

(** ** The run: capture threads and the coordinator ([analyze_streams])

    The threads are interleaved by a schedule.  One step of a capture thread
    is the test of its [while] or one pass through the loop body from the
    [read] to the enqueue; one step of the coordinator is the test of its
    [while], one pass through the body of the [for] (a poll of one stream
    with what follows it), or the short sleep that ends a round.  The
    schedule supplies what [read] and [time.time()] return.  The progress
    output and the waiting times are not represented. *)

(** [self.results[name]] *)
Record StreamResult : Type := mkStreamResult {
  res_freq : option (list xreal);
  res_psd : option (list xreal);
  res_stats : option Stats;
  snr_history : list xreal;
  timestamp_history : list R;
  bird_power_history : list xreal;
  low_power_history : list xreal
}.

Definition empty_result : StreamResult :=
  mkStreamResult None None None [] [] [] [].

(** Where a capture thread is: at the test of [while self.running], blocked
    in [read], or finished. *)
Inductive worker_pc : Type :=
| AtHead
| Reading
| Exited.

(** Where the coordinator is: at the test of its [while], inside the [for]
    with the streams still to poll, or past the joins. *)
Inductive coord_pc : Type :=
| Head
| Polling (rest : list string)
| Done.

Record System : Type := mkSystem {
  running : bool;
  audio_queues : gmap string FrameQueue;
  results : gmap string StreamResult;
  analysis_count : gmap string nat;
  workers : gmap string worker_pc;
  coord : coord_pc;
  start_time : R
}.

Definition dict_get {V : Type} (m : gmap string V) (k : string) : result V :=
  match m !! k with
  | Some v => Ok v
  | None => Raise KeyError
  end.

Definition dict_init {V : Type} (names : list string) (v : V) : gmap string V :=
  list_to_map (map (fun n => (n, v)) names).

(** The state when the [while] of [analyze_streams] is first reached: the
    queues and results of [__init__], every thread started. *)
Definition init_system (c : Config) (start : R) : System :=
  mkSystem true
    (dict_init (streams c) (new_queue queue_maxsize))
    (dict_init (streams c) empty_result)
    (dict_init (streams c) 0%nat)
    (dict_init (streams c) AtHead)
    Head start.

Definition set_worker (s : System) (name : string) (pc : worker_pc) : System :=
  mkSystem (running s) (audio_queues s) (results s) (analysis_count s)
    (<[name := pc]> (workers s)) (coord s) (start_time s).

Definition set_queue (s : System) (name : string) (q : FrameQueue) : System :=
  mkSystem (running s) (<[name := q]> (audio_queues s)) (results s)
    (analysis_count s) (workers s) (coord s) (start_time s).

Definition set_coord (s : System) (pc : coord_pc) : System :=
  mkSystem (running s) (audio_queues s) (results s) (analysis_count s)
    (workers s) pc (start_time s).

Definition set_running (s : System) (b : bool) : System :=
  mkSystem b (audio_queues s) (results s) (analysis_count s)
    (workers s) (coord s) (start_time s).

(** Lines 332-342: store the latest results and append to the histories. *)
Definition record_chunk (r : StreamResult) (timestamp : R)
    (freq psd_db : list xreal) (stats : Stats) : StreamResult :=
  mkStreamResult (Some freq) (Some psd_db) (Some stats)
    (snr_history r ++ [snr_bird_to_low stats])
    (timestamp_history r ++ [timestamp])
    (bird_power_history r ++ [bird_freq_power stats])
    (low_power_history r ++ [low_freq_power stats]).

(** The body of [for name in self.streams:]. *)
Definition poll_stream (c : Config) (s : System) (name : string) : result System :=
  let* q := dict_get (audio_queues s) name in
  match get_nowait q with
  | Raise Empty => Ok s
  | Raise e => Raise e
  | Ok ((timestamp, audio_data), q') =>
      let* fp := analyze_frequency_spectrum c audio_data in
      let* stats := compute_statistics audio_data (fst fp) (snd fp) in
      let* r := dict_get (results s) name in
      let* n := dict_get (analysis_count s) name in
      Ok (mkSystem (running s)
            (<[name := q']> (audio_queues s))
            (<[name := record_chunk r timestamp (fst fp) (snd fp) stats]> (results s))
            (<[name := S n]> (analysis_count s))
            (workers s) (coord s) (start_time s))
  end.

(** One step of the coordinator; [now] is what [time.time()] returns at the
    test of the [while]. *)
Definition coord_step (c : Config) (duration : R) (s : System) (now : R)
    : result System :=
  match coord s with
  | Head =>
      if Rltb (now - start_time s) duration
      then Ok (set_coord s (Polling (streams c)))
      else Ok (set_coord (set_running s false) Done)
  | Polling (name :: rest) =>
      let* s' := poll_stream c s name in
      Ok (set_coord s' (Polling rest))
  | Polling [] => Ok (set_coord s Head)
  | Done => Ok s
  end.

(** One step of the capture thread of [name]; [raw] and [now] are what
    [read] and [time.time()] return when the step is the read.  An exception
    in the body ends the thread ([except Exception]). *)
Definition worker_step (c : Config) (s : System) (name : string)
    (raw : list byte) (now : R) : System :=
  match workers s !! name with
  | Some AtHead =>
      set_worker s name (if running s then Reading else Exited)
  | Some Reading =>
      match audio_queues s !! name with
      | Some q =>
          match capture_chunk c q raw now with
          | Ok (Some q') => set_worker (set_queue s name q') name AtHead
          | Ok None | Raise _ => set_worker s name Exited
          end
      | None => set_worker s name Exited
      end
  | Some Exited | None => s
  end.

Inductive event : Type :=
| EvWorker (name : string) (raw : list byte) (now : R)
| EvCoord (now : R).

Definition step (c : Config) (duration : R) (s : System) (e : event)
    : result System :=
  match e with
  | EvWorker name raw now => Ok (worker_step c s name raw now)
  | EvCoord now => coord_step c duration s now
  end.

(** A run under a schedule: the interleaving of the threads' steps. *)
Fixpoint run (c : Config) (duration : R) (s : System) (tr : list event)
    : result System :=
  match tr with
  | [] => Ok s
  | e :: tr' => let* s' := step c duration s e in run c duration s' tr'
  end.

(** * Reference definitions

    What the design document says about one chunk, written on its own so
    that it can be compared with the code above. *)

(** The four bands over the frequency axis, in Hz. *)
Definition low_band (f : xreal) : bool := xltb f (Fin 1000).
Definition mid_band (f : xreal) : bool := xleb (Fin 1000) f && xltb f (Fin 3000).
Definition bird_band (f : xreal) : bool := xleb (Fin 3000) f && xleb f (Fin 8000).
Definition high_band (f : xreal) : bool := xltb (Fin 8000) f.

(** The power values of the bins whose frequency lies in a band. *)
Fixpoint select_bins (band : xreal -> bool) (freq psd_db : list xreal)
    : list xreal :=
  match freq, psd_db with
  | f :: fs, p :: ps =>
      if band f then p :: select_bins band fs ps else select_bins band fs ps
  | _, _ => []
  end.

(** Band power: the mean over the selected bins, or minus infinity when no
    frequency lies in the band. *)
Definition band_power_spec (band : xreal -> bool) (freq psd_db : list xreal)
    : xreal :=
  if existsb band freq then xmean (select_bins band freq psd_db) else NInf.

(** The cumulative sum of the power up to and including bin [i]. *)
Definition cumulative (psd_db : list xreal) (i : nat) : xreal :=
  xsum (take (S i) psd_db).

(** Bin [i] reaches 85% of the total. *)
Definition reaches (psd_db : list xreal) (i : nat) : bool :=
  xleb (xmul (Fin 0.85) (xsum psd_db)) (cumulative psd_db i).

(** Rolloff: the frequency of the first bin that reaches the threshold, or
    zero when none does. *)
Definition rolloff_spec (freq psd_db : list xreal) (v : xreal) : Prop :=
  (exists i, (i < length psd_db)%nat /\ reaches psd_db i = true /\
             (forall j, (j < i)%nat -> reaches psd_db j = false) /\
             freq !! i = Some v)
  \/ ((forall i, (i < length psd_db)%nat -> reaches psd_db i = false) /\
      v = Fin 0).


(** The textbook Hann window of length [n] at index [j]. *)
Definition hann_spec (n j : nat) : R :=
  if (n <=? 1)%nat then 1%R
  else (0.5 - 0.5 * cos (2 * PI * INR j / INR (n - 1)))%R.

Definition Rsum (l : list R) : R := fold_right Rplus 0%R l.

(** The windowed samples and their discrete Fourier transform at bin [k]:
    the sum of [w_j * exp(-2 pi i j k / n)], real and imaginary part. *)
Definition windowed_spec (samples : list R) : list R :=
  imap (fun j x => (hann_spec (length samples) j * x)%R) samples.

Definition dft_re (w : list R) (k : nat) : R :=
  Rsum (imap (fun j wj => (wj * cos (2 * PI * INR j * INR k / INR (length w)))%R) w).

Definition dft_im (w : list R) (k : nat) : R :=
  Rsum (imap (fun j wj => (wj * - sin (2 * PI * INR j * INR k / INR (length w)))%R) w).

(** Power in decibels at bin [k]: squared magnitude, the floor, then the
    logarithm. *)
Definition power_db_spec (samples : list R) (k : nat) : R :=
  let w := windowed_spec samples in
  (10 * log10 ((dft_re w k) ^ 2 + (dft_im w k) ^ 2 + 1e-10))%R.

(** The frequency of bin [k] of a real FFT of [n] samples at rate [sr]. *)
Definition bin_frequency (sr : Z) (n k : nat) : R :=
  (INR k * IZR sr / INR n)%R.


(** ** The run, seen from outside *)

(** What [time.time()] returned to the capture thread of [name] along a
    schedule. *)
Definition clock_readings (name : string) (tr : list event) : list R :=
  omap (fun e => match e with
                 | EvWorker n _ now => if decide (n = name) then Some now else None
                 | EvCoord _ => None
                 end) tr.

(** The step [e] is the coordinator taking a frame of [name] off its
    queue. *)
Definition polls_frame (s : System) (e : event) (name : string) : bool :=
  match e, coord s with
  | EvCoord _, Polling (n :: _) =>
      if decide (n = name)
      then match audio_queues s !! name with
           | Some q => match items q with [] => false | _ :: _ => true end
           | None => false
           end
      else false
  | _, _ => false
  end.

(** The number of frames of [name] dequeued and analyzed along a
    schedule. *)
Fixpoint frames_dequeued (c : Config) (duration : R) (s : System)
    (tr : list event) (name : string) : nat :=
  match tr with
  | [] => 0
  | e :: tr' =>
      (if polls_frame s e name then 1 else 0) +
      match step c duration s e with
      | Ok s' => frames_dequeued c duration s' tr' name
      | Raise _ => 0
      end
  end.

(** Well-formed states: every configured stream has its queue, its results
    and its counter; the coordinator polls configured streams only; every
    queue is the bounded queue of [__init__] and holds nonempty frames. *)
Definition dicts_ok (c : Config) (s : System) : Prop :=
  forall name, name ∈ streams c ->
    is_Some (audio_queues s !! name) /\ is_Some (results s !! name) /\
    is_Some (analysis_count s !! name).

Definition polling_ok (c : Config) (s : System) : Prop :=
  forall rest, coord s = Polling rest -> Forall (fun n => n ∈ streams c) rest.

Definition queues_ok (s : System) : Prop :=
  forall name q, audio_queues s !! name = Some q ->
    maxsize q = queue_maxsize /\ bounded q /\
    Forall (fun f : Frame => snd f <> []) (items q).

Definition wf (c : Config) (s : System) : Prop :=
  dicts_ok c s /\ polling_ok c s /\ queues_ok s.

(** Two states that agree on everything but the stream [a]. *)
Definition same_elsewhere (a : string) (s1 s2 : System) : Prop :=
  running s1 = running s2 /\ coord s1 = coord s2 /\
  start_time s1 = start_time s2 /\
  forall b, b <> a ->
    workers s1 !! b = workers s2 !! b /\
    audio_queues s1 !! b = audio_queues s2 !! b /\
    results s1 !! b = results s2 !! b /\
    analysis_count s1 !! b = analysis_count s2 !! b.


(** The four history lists and the counter of a stream move together. *)
Definition history_ok (s : System) : Prop :=
  forall name r n,
    results s !! name = Some r -> analysis_count s !! name = Some n ->
    length (timestamp_history r) = n /\ length (snr_history r) = n /\
    length (bird_power_history r) = n /\ length (low_power_history r) = n.

(** The timestamps in the history of [name], followed by those still in its
    queue, were read from the clock in that order along the schedule [pre]. *)
Definition stamps_ok (name : string) (pre : list event) (s : System) : Prop :=
  forall r q,
    results s !! name = Some r -> audio_queues s !! name = Some q ->
    sublist (timestamp_history r ++ map fst (items q)) (clock_readings name pre).


(** A stream has delivered: a frame waits in its queue or its history has
    an entry. *)
Definition has_data (b : string) (s : System) : Prop :=
  exists q r, audio_queues s !! b = Some q /\ results s !! b = Some r /\
              (items q <> [] \/ timestamp_history r <> []).

Definition history_nonempty (b : string) (s : System) : Prop :=
  exists r, results s !! b = Some r /\ timestamp_history r <> [].

(** How many steps of its own the coordinator needs to finish once the
    clock is past the deadline: the polls left in the current round, the
    short sleep, and the last test of the [while]. *)
Definition steps_to_done (pc : coord_pc) : nat :=
  match pc with
  | Head => 1
  | Polling rest => length rest + 2
  | Done => 0
  end.


(** * The rest of the analyzer: reference definitions *)

(** The byte with value [z], for [0 <= z < 256]. *)
Definition byte_of_Z (z : Z) : byte :=
  match Byte.of_N (Z.to_N z) with
  | Some b => b
  | None => Byte.x00
  end.

(** The two bytes of a sample in the [s16le] format that the decode
    process is asked for: two's complement, low byte first. *)
Definition int16_to_bytes (code : Z) : byte * byte :=
  let u := (code mod 65536)%Z in
  (byte_of_Z (u mod 256), byte_of_Z (u / 256)).

(** A sample as the capture thread produces it: finite, in [-1, 1). *)
Definition normalized (x : xreal) : Prop :=
  exists r, x = Fin r /\ (-1 <= r < 1)%R.

(** Every queued frame holds normalized samples only. *)
Definition frames_normalized (s : System) : Prop :=
  forall name q, audio_queues s !! name = Some q ->
    Forall (fun f : Frame => Forall normalized (snd f)) (items q).


(** The latest results of a stream are those of one analyzed frame: either
    nothing has been analyzed and every field is in its initial state, or
    the three [latest] fields come from one nonempty frame of normalized
    samples and the histories end with the values of that frame. *)
Definition latest_ok (c : Config) (r : StreamResult) : Prop :=
  match res_stats r with
  | None =>
      res_freq r = None /\ res_psd r = None /\
      snr_history r = [] /\ timestamp_history r = [] /\
      bird_power_history r = [] /\ low_power_history r = []
  | Some st =>
      exists audio freq psd_db,
        audio <> [] /\ Forall normalized audio /\
        analyze_frequency_spectrum c audio = Ok (freq, psd_db) /\
        compute_statistics audio freq psd_db = Ok st /\
        res_freq r = Some freq /\ res_psd r = Some psd_db /\
        last (snr_history r) = Some (snr_bird_to_low st) /\
        last (bird_power_history r) = Some (bird_freq_power st) /\
        last (low_power_history r) = Some (low_freq_power st)
  end.

Definition results_ok (c : Config) (s : System) : Prop :=
  forall name r, results s !! name = Some r -> latest_ok c r.


(** The [running] flag is cleared exactly when the coordinator has left its
    loop. *)
Definition flag_ok (s : System) : Prop :=
  running s = false <-> coord s = Done.

(** ** Command line: the stream specifications

    [main], lines 700-711, and the choice of the streams in [__init__],
    line 72.  A dict whose order of keys matters is an association list
    with distinct keys; [dict_set] keeps the position of a key it updates. *)

(** The character ['='] *)
Definition equals_sign : Ascii.ascii := Ascii.ascii_of_byte Byte.x3d.
Arguments equals_sign : simpl never.

Inductive outcome (A : Type) : Type :=
| Returns (a : A)
| SystemExit (code : Z)
| Uncaught (e : exn).
Arguments Returns {A} a.
Arguments SystemExit {A} code.
Arguments Uncaught {A} e.

Abbreviation StreamDict := (list (string * string)).

Fixpoint dict_set (d : StreamDict) (k v : string) : StreamDict :=
  match d with
  | [] => [(k, v)]
  | (k', v') :: rest =>
      if String.eqb k' k then (k, v) :: rest else (k', v') :: dict_set rest k v
  end.

Fixpoint dict_lookup (d : StreamDict) (k : string) : option string :=
  match d with
  | [] => None
  | (k', v') :: rest => if String.eqb k' k then Some v' else dict_lookup rest k
  end.

(** The text before the first ['='] and, when there is one, the text after
    it. *)
Fixpoint str_partition_eq (s : string) : string * option string :=
  match s with
  | EmptyString => (EmptyString, None)
  | String ch rest =>
      if Ascii.eqb ch equals_sign then (EmptyString, Some rest)
      else let (h, t) := str_partition_eq rest in (String ch h, t)
  end.

(** [s.split('=', 1)] *)
Definition str_split_eq (s : string) : list string :=
  match str_partition_eq s with
  | (h, None) => [h]
  | (h, Some t) => [h; t]
  end.

(** [name, url = parts] *)
Definition unpack2 (parts : list string) : result (string * string) :=
  match parts with
  | [a; b] => Ok (a, b)
  | _ => Raise ValueError
  end.

Definition parse_stream_spec (stream_spec : string) : result (string * string) :=
  unpack2 (str_split_eq stream_spec).

(** The loop of lines 703-711 over the remaining specifications. *)
Fixpoint parse_stream_specs (specs : list string) (custom_streams : StreamDict)
    : outcome StreamDict :=
  match specs with
  | [] => Returns custom_streams
  | stream_spec :: rest =>
      match parse_stream_spec stream_spec with
      | Ok (name, url) => parse_stream_specs rest (dict_set custom_streams name url)
      | Raise ValueError => SystemExit 1
      | Raise e => Uncaught e
      end
  end.

(** Lines 700-711: [args.stream] is [None] or the list of the [-s] options. *)
Definition custom_streams_of_args (stream : option (list string))
    : outcome (option StreamDict) :=
  match stream with
  | None | Some [] => Returns None
  | Some specs =>
      match parse_stream_specs specs [] with
      | Returns d => Returns (Some d)
      | SystemExit code => SystemExit code
      | Uncaught e => Uncaught e
      end
  end.

Definition default_streams : StreamDict :=
  [("raw", "rtsp://192.168.1.37:8554/rode_ai_micro_right_raw");
   ("filtered", "rtsp://192.168.1.37:8554/rode_ai_micro_right_filt");
   ("bird", "rtsp://192.168.1.37:8554/rode_ai_micro_right_bird")]%string.

(** Line 72: [streams or {...}]. *)
Definition init_streams (streams : option StreamDict) : StreamDict :=
  match streams with
  | None | Some [] => default_streams
  | Some d => d
  end.

(** The analyzer that [main] creates (lines 733-738), as far as the run
    model needs it. *)
Definition main_config (stream : option (list string)) : outcome Config :=
  match custom_streams_of_args stream with
  | Returns custom_streams =>
      Returns (mkConfig 48000 1 (map fst (init_streams custom_streams)))
  | SystemExit code => SystemExit code
  | Uncaught e => Uncaught e
  end.

(** ['=' in s], and the URL that the last specification for [name] gives. *)
Fixpoint str_contains (ch : Ascii.ascii) (s : string) : bool :=
  match s with
  | EmptyString => false
  | String ch' rest => Ascii.eqb ch' ch || str_contains ch rest
  end.

Definition spec_url_for (name stream_spec : string) : option string :=
  match parse_stream_spec stream_spec with
  | Ok (n, url) => if String.eqb n name then Some url else None
  | Raise _ => None
  end.

Definition last_url (name : string) (specs : list string) : option string :=
  last (omap (spec_url_for name) specs).


(** ** Band powers and histories: reference definitions *)

(** Some bin of the spectrum of [n] samples at rate [sr] lies in the band. *)
Definition band_has_bin (sr : Z) (n : nat) (band : xreal -> bool) : Prop :=
  exists k, (k <= n / 2)%nat /\ band (Fin (bin_frequency sr n k)) = true.

(** A decibel value that is a real number of at least -100, or minus
    infinity: not NaN and not plus infinity. *)
Definition db_or_ninf (x : xreal) : Prop :=
  (exists r, x = Fin r /\ (-100 <= r)%R) \/ x = NInf.

Definition db_finite (x : xreal) : Prop :=
  exists r, x = Fin r /\ (-100 <= r)%R.

(** A difference of two such values with a finite subtrahend. *)
Definition diff_or_ninf (x : xreal) : Prop :=
  (exists r, x = Fin r) \/ x = NInf.

Definition histories_clean (s : System) : Prop :=
  forall name r, results s !! name = Some r ->
    Forall diff_or_ninf (snr_history r) /\
    Forall db_or_ninf (bird_power_history r) /\
    Forall db_finite (low_power_history r).


(** ** Reports ([print_comparison], [export_results], [plot_comparison])

    The numbers that the three report functions compute from the results
    of a run; printing, drawing and writing the file are left out. *)

Definition is_nan (a : xreal) : bool :=
  match a with NaN => true | _ => false end.

(** Ascending order of an array without NaN. *)
Fixpoint xinsert (a : xreal) (l : list xreal) : list xreal :=
  match l with
  | [] => [a]
  | b :: rest => if xleb a b then a :: l else b :: xinsert a rest
  end.

Definition xsort (l : list xreal) : list xreal := fold_right xinsert [] l.

(** [part[i:j]] for [0 <= i <= j] *)
Definition slice {A : Type} (l : list A) (i j : nat) : list A :=
  take (j - i) (drop i l).

(** [np.median] of a one-dimensional array: the mean of the middle element
    or of the two middle elements of the ordered array; NaN as soon as the
    array holds a NaN; the empty median is the empty mean. *)
Definition np_median (a : list xreal) : xreal :=
  if existsb is_nan a then NaN
  else
    let part := xsort a in
    let index := (length part / 2)%nat in
    if Nat.odd (length part)
    then xmean (slice part index (index + 1))
    else xmean (slice part (index - 1) (index + 1)).

(** [np.std]: [sqrt(mean(abs(a - a.mean())**2))] *)
Definition np_std (a : list xreal) : xreal :=
  let m := xmean a in
  xsqrt (xmean (map (fun x => xsquare (xabs (xsub x m))) a)).

(** One entry of the FILTER EFFECTIVENESS section (lines 413-428). *)
Record Effectiveness : Type := mkEffectiveness {
  curr_name : string;
  next_name : string;
  low_reduction : xreal;
  bird_change : xreal;
  median_snr_improvement : xreal
}.

(** The loop [for i in range(len(stream_names) - 1)] over the consecutive
    streams; [and] does not look at the next stream when the current one
    has no statistics. *)
Fixpoint filter_effectiveness (results : gmap string StreamResult)
    (stream_names : list string) : result (list Effectiveness) :=
  match stream_names with
  | curr :: ((next :: _) as rest) =>
      let* rc := dict_get results curr in
      let* row :=
        match res_stats rc with
        | None => Ok []
        | Some curr_stats =>
            let* rn := dict_get results next in
            match res_stats rn with
            | None => Ok []
            | Some next_stats =>
                Ok [mkEffectiveness curr next
                      (xsub (low_freq_power curr_stats) (low_freq_power next_stats))
                      (xsub (bird_freq_power next_stats) (bird_freq_power curr_stats))
                      (xsub (np_median (snr_history rn)) (np_median (snr_history rc)))]
            end
        end in
      let* rows := filter_effectiveness results rest in
      Ok (row ++ rows)
  | _ => Ok []
  end.

(** One value of [export_data['streams']] (lines 612-620). *)
Record ExportEntry : Type := mkExportEntry {
  exp_stats : Stats;
  exp_snr_history : list xreal;
  exp_snr_median : xreal;
  exp_snr_std : xreal;
  exp_chunk_count : nat
}.

(** [export_data['streams']] when the loop of lines 612-620 has run, in the
    order of insertion. *)
Fixpoint export_streams (results : gmap string StreamResult)
    (names : list string) : result (list (string * ExportEntry)) :=
  match names with
  | [] => Ok []
  | name :: rest =>
      let* r := dict_get results name in
      let entry :=
        match res_stats r with
        | Some st =>
            [(name, mkExportEntry st (snr_history r)
                      (np_median (snr_history r)) (np_std (snr_history r))
                      (length (snr_history r)))]
        | None => []
        end in
      let* entries := export_streams results rest in
      Ok (entry ++ entries)
  end.

(** The colours of [plot_comparison] (lines 445-448): a dict built from
    [zip(self.streams.keys(), [three colours])]. *)
Definition palette : list string := ["#2E86AB"; "#A23B72"; "#F18F01"]%string.

Definition plot_colors (names : list string) : gmap string string :=
  fold_left (fun d p => <[fst p := snd p]> d) (zip names palette) ∅.

(** [[colors[name] for name in self.streams.keys()]] (line 537) *)
Fixpoint colors_of (colors : gmap string string) (names : list string)
    : result (list string) :=
  match names with
  | [] => Ok []
  | name :: rest =>
      let* col := dict_get colors name in
      let* cols := colors_of colors rest in
      Ok (col :: cols)
  end.

Definition hist_colors (names : list string) : result (list string) :=
  colors_of (plot_colors names) names.

(** [np.array(timestamps) - timestamps[0]] (line 515) *)
Definition rel_times (timestamps : list R) : result (list R) :=
  match timestamps with
  | [] => Raise IndexError
  | t0 :: _ => Ok (map (fun t => (t - t0)%R) timestamps)
  end.

(** *** Reference definitions for the reports *)

(** Insertion into, and ordering of, a list of real numbers. *)
Fixpoint Rinsert (a : R) (l : list R) : list R :=
  match l with
  | [] => [a]
  | b :: rest => if Rleb a b then a :: l else b :: Rinsert a rest
  end.

Definition Rsort (l : list R) : list R := fold_right Rinsert [] l.

(** The textbook median of a nonempty list of real numbers. *)
Definition median_spec (l : list R) : R :=
  let s := Rsort l in
  let n := length l in
  if Nat.odd n then nth (n / 2) s 0%R
  else ((nth (n / 2 - 1) s 0 + nth (n / 2) s 0) / 2)%R.

(** The population standard deviation. *)
Definition Rmean (l : list R) : R := (Rsum l / INR (length l))%R.

Definition std_spec (l : list R) : R :=
  sqrt (Rmean (map (fun x => (x - Rmean l) ^ 2)%R l)).

(** [a] directly before [b] in the list. *)
Definition adjacent (a b : string) (names : list string) : Prop :=
  exists pre post, names = pre ++ a :: b :: post.

(** The number of chunks of a stream that have been analyzed is positive. *)
Definition analyzed (s : System) (name : string) : Prop :=
  exists n, analysis_count s !! name = Some n /\ (0 < n)%nat.


(** ** The end of the analysis loop: reference definitions *)

(** The clock reading of a coordinator step is past the deadline. *)
Definition past_deadline (duration start : R) (e : event) : Prop :=
  match e with
  | EvCoord now => (duration <= now - start)%R
  | EvWorker _ _ _ => True
  end.

(** The number of coordinator steps of a schedule. *)
Fixpoint coord_events (tr : list event) : nat :=
  match tr with
  | [] => 0
  | EvCoord _ :: tr' => S (coord_events tr')
  | EvWorker _ _ _ :: tr' => coord_events tr'
  end.

(** The streams still to poll in a round are the last streams of the
    analyzer. *)
Definition polling_suffix (c : Config) (s : System) : Prop :=
  forall rest, coord s = Polling rest -> exists done, streams c = done ++ rest.


(** ** Reads of at most the requested size: reference definitions *)

(** [read(n)] returns at most [n] bytes. *)
Definition read_bounded (c : Config) (e : event) : Prop :=
  match e with
  | EvWorker _ raw _ => (Z.of_nat (length raw) <= chunk_bytes c)%Z
  | EvCoord _ => True
  end.

(** Nothing has been captured or analyzed. *)
Definition nothing_captured (s : System) : Prop :=
  (forall name q, audio_queues s !! name = Some q -> items q = []) /\
  (forall name r, results s !! name = Some r -> r = empty_result) /\
  (forall name n, analysis_count s !! name = Some n -> n = 0%nat).

(** Every queued frame has [chunk_size] samples. *)
Definition frames_sized (c : Config) (s : System) : Prop :=
  forall name q, audio_queues s !! name = Some q ->
    Forall (fun f : Frame => Z.of_nat (length (snd f)) = chunk_size c) (items q).

(** The frequency axis of the analyzer: the bins of a chunk of
    [chunk_size] samples. *)
Definition freq_axis (c : Config) : list xreal :=
  let n := Z.to_nat (chunk_size c) in
  map (fun k => Fin (bin_frequency (sample_rate c) n k)) (seq 0 (n / 2 + 1)).

(** The latest spectrum of every stream is on the axis of the analyzer and
    is the power spectrum of a chunk of [chunk_size] real samples. *)
Definition spectra_ok (c : Config) (s : System) : Prop :=
  forall name r freq, results s !! name = Some r -> res_freq r = Some freq ->
    freq = freq_axis c /\
    exists samples,
      Z.of_nat (length samples) = chunk_size c /\
      res_psd r = Some (map (fun k => Fin (power_db_spec samples k))
                          (seq 0 (length samples / 2 + 1))).


(** ** Band powers as arithmetic means: reference definitions

    The bands as conditions on a real frequency, the power values of the
    bins whose frequency satisfies a condition, and their arithmetic mean:
    the sum divided by the count. *)

Definition in_low (f : R) : Prop := (f < 1000)%R.
Definition in_mid (f : R) : Prop := (1000 <= f < 3000)%R.
Definition in_bird (f : R) : Prop := (3000 <= f <= 8000)%R.
Definition in_high (f : R) : Prop := (8000 < f)%R.

(** [selected P fs ps qs]: [qs] are the values of [ps], in order, at the
    positions where the frequency in [fs] satisfies [P]. *)
Inductive selected (P : R -> Prop) : list R -> list R -> list R -> Prop :=
| selected_nil : selected P [] [] []
| selected_in f fs p ps qs :
    P f -> selected P fs ps qs -> selected P (f :: fs) (p :: ps) (p :: qs)
| selected_out f fs p ps qs :
    ~ P f -> selected P fs ps qs -> selected P (f :: fs) (p :: ps) qs.

(** The arithmetic mean of the selected values, minus infinity when nothing
    is selected. *)
Definition mean_or_ninf (qs : list R) : xreal :=
  match qs with
  | [] => NInf
  | _ :: _ => Fin (Rsum qs / INR (length qs))
  end.


(** * Properties *)

(** ** The bounded queue *)

Section QueueFacts.
Context {A : Type}.
Implicit Types (q : Queue A) (x : A) (K : Z).

Lemma put_nowait_room q x :
  (qsize q < maxsize q)%Z ->
  put_nowait q x = Ok (mkQueue (maxsize q) (items q ++ [x])).
Proof.
  intros Hlt. unfold put_nowait.
  destruct (maxsize q <=? qsize q)%Z eqn:E.
  - apply Z.leb_le in E. lia.
  - now rewrite andb_false_r.
Qed.

Lemma put_nowait_full q x :
  (0 < maxsize q)%Z -> (maxsize q <= qsize q)%Z ->
  put_nowait q x = Raise Full.
Proof.
  intros Hpos Hfull. unfold put_nowait.
  apply Z.ltb_lt in Hpos. apply Z.leb_le in Hfull.
  now rewrite Hpos, Hfull.
Qed.

(** Below capacity the frame is appended. *)
Lemma enqueue_room q x :
  (qsize q < maxsize q)%Z ->
  enqueue_drop_oldest q x = Ok (mkQueue (maxsize q) (items q ++ [x])).
Proof.
  intros Hlt. unfold enqueue_drop_oldest. now rewrite put_nowait_room.
Qed.

(** At capacity the oldest frame leaves first, then the new one enters. *)
Lemma enqueue_full q x :
  (0 < maxsize q)%Z -> qsize q = maxsize q ->
  enqueue_drop_oldest q x = Ok (mkQueue (maxsize q) (tl (items q) ++ [x])).
Proof.
  intros Hpos Hfull. unfold enqueue_drop_oldest.
  rewrite put_nowait_full by lia.
  unfold get_nowait. destruct (items q) as [|y rest] eqn:E.
  - unfold qsize in Hfull. rewrite E in Hfull. simpl in Hfull. lia.
  - rewrite put_nowait_room; [reflexivity|].
    unfold qsize in *. rewrite E in Hfull. simpl in *. lia.
Qed.

(** The producer always gets a queue back. *)
Lemma enqueue_total q x : exists q', enqueue_drop_oldest q x = Ok q'.
Proof.
  unfold enqueue_drop_oldest, put_nowait at 1.
  destruct ((0 <? maxsize q)%Z && (maxsize q <=? qsize q)%Z); [|eauto].
  destruct (get_nowait q) as [[y q1]|e]; [|eauto].
  destruct (put_nowait q1 x); eauto.
Qed.

Lemma run_qop_maxsize q o : maxsize (run_qop q o) = maxsize q.
Proof.
  destruct o as [x|]; simpl.
  - unfold enqueue_drop_oldest, put_nowait at 1.
    destruct ((0 <? maxsize q)%Z && (maxsize q <=? qsize q)%Z); [|reflexivity].
    unfold get_nowait. destruct (items q) as [|y rest]; [reflexivity|].
    unfold put_nowait; simpl.
    now destruct ((0 <? maxsize q)%Z && _).
  - unfold get_nowait. now destruct (items q).
Qed.

Lemma run_qop_bounded q o :
  (0 < maxsize q)%Z -> bounded q -> bounded (run_qop q o).
Proof.
  intros Hpos Hb. unfold bounded in *. rewrite run_qop_maxsize.
  destruct o as [x|]; simpl.
  - destruct (Z.eq_dec (qsize q) (maxsize q)) as [Heq|Hne].
    + rewrite enqueue_full by assumption.
      unfold qsize in *; simpl. rewrite length_app; simpl.
      destruct (items q); simpl in *; lia.
    + rewrite enqueue_room by lia.
      unfold qsize in *; simpl. rewrite length_app; simpl. lia.
  - unfold get_nowait. destruct (items q) eqn:E; [assumption|].
    unfold qsize in *; rewrite E in Hb; simpl in *. lia.
Qed.

Lemma run_qops_bounded ops q :
  (0 < maxsize q)%Z -> bounded q ->
  bounded (run_qops q ops) /\ maxsize (run_qops q ops) = maxsize q.
Proof.
  unfold run_qops. revert q.
  induction ops as [|o ops IH]; intros q Hpos Hb; simpl; [auto|].
  destruct (IH (run_qop q o)) as [H1 H2].
  - now rewrite run_qop_maxsize.
  - now apply run_qop_bounded.
  - split; [exact H1|]. now rewrite H2, run_qop_maxsize.
Qed.

Lemma most_recent_all k (l : list A) :
  (length l <= k)%nat -> most_recent k l = l.
Proof.
  intros H. unfold most_recent.
  replace (length l - k)%nat with 0%nat by lia. reflexivity.
Qed.

Lemma most_recent_app k (l ys : list A) :
  most_recent k (most_recent k l ++ ys) = most_recent k (l ++ ys).
Proof.
  unfold most_recent.
  destruct (le_lt_dec (length l) k) as [Hle|Hgt].
  - now replace (length l - k)%nat with 0%nat by lia.
  - rewrite !length_app, length_skipn, !skipn_app, length_skipn, skipn_skipn.
    f_equal; f_equal; lia.
Qed.

Lemma run_enq_items q x :
  (0 < maxsize q)%Z -> bounded q ->
  items (run_qop q (Enq x)) = most_recent (Z.to_nat (maxsize q)) (items q ++ [x]).
Proof.
  intros Hpos Hb. simpl. unfold bounded in Hb.
  destruct (Z.eq_dec (qsize q) (maxsize q)) as [Heq|Hne].
  - rewrite enqueue_full by assumption. simpl.
    unfold most_recent. rewrite length_app. simpl.
    unfold qsize in Heq.
    replace (length (items q) + 1 - Z.to_nat (maxsize q))%nat with 1%nat by lia.
    destruct (items q) as [|y rest]; simpl in *; [lia|reflexivity].
  - rewrite enqueue_room by lia. simpl.
    rewrite most_recent_all; [reflexivity|].
    rewrite length_app; simpl. unfold qsize in *. lia.
Qed.

Lemma enqueue_all_items xs q :
  (0 < maxsize q)%Z -> bounded q ->
  items (enqueue_all q xs) = most_recent (Z.to_nat (maxsize q)) (items q ++ xs).
Proof.
  revert q. induction xs as [|x xs IH]; intros q Hpos Hb.
  - simpl. rewrite app_nil_r, most_recent_all; [reflexivity|].
    unfold bounded, qsize in Hb. lia.
  - change (enqueue_all q (x :: xs)) with (enqueue_all (run_qop q (Enq x)) xs).
    rewrite IH.
    + rewrite run_qop_maxsize, run_enq_items by assumption.
      rewrite most_recent_app, <- app_assoc. reflexivity.
    + now rewrite run_qop_maxsize.
    + now apply run_qop_bounded.
Qed.

Lemma drain_items fuel q :
  (length (items q) <= fuel)%nat -> drain fuel q = items q.
Proof.
  revert q. induction fuel as [|n IH]; intros q Hlen.
  - destruct (items q); simpl in *; [reflexivity|lia].
  - simpl. unfold get_nowait. destruct (items q) as [|y rest] eqn:E; [reflexivity|].
    f_equal. rewrite IH; simpl in *; [reflexivity|lia].
Qed.
End QueueFacts.

Example queue_overflow_keeps_newest :
  items (enqueue_all (new_queue 2) [1; 2; 3]%nat) = [2; 3]%nat.
Proof. reflexivity. Qed.

Example queue_dequeue_then_enqueue :
  items (run_qops (new_queue 2) [Enq 1; Enq 2; Deq; Enq 3; Enq 4]%nat)
  = [3; 4]%nat.
Proof. reflexivity. Qed.

(** [maxsize=0] is Python's unbounded queue; the analyzer never builds one. *)
Example queue_maxsize_zero_unbounded :
  items (enqueue_all (new_queue 0) [1; 2; 3]%nat) = [1; 2; 3]%nat.
Proof. reflexivity. Qed.

(** C1. A queue of capacity [K] never holds more than [K] entries, whatever
    the producer and the consumer do; the producer's enqueue always returns;
    on a full queue it removes the oldest entry and then admits the new one;
    and after [K+1] enqueues with no dequeue the queue holds the [K] most
    recent frames, which a drain yields oldest first. *)
Theorem C1_buffer_drop_oldest (A : Type) (K : Z) (HK : (0 < K)%Z) :
  (forall ops : list (qop A), (qsize (run_qops (new_queue K) ops) <= K)%Z) /\
  (forall (q : Queue A) (x : A), exists q', enqueue_drop_oldest q x = Ok q') /\
  (forall (q : Queue A) (x : A), maxsize q = K -> qsize q = K ->
     exists oldest q1,
       get_nowait q = Ok (oldest, q1) /\
       enqueue_drop_oldest q x = put_nowait q1 x /\
       enqueue_drop_oldest q x = Ok (mkQueue K (tl (items q) ++ [x]))) /\
  (forall xs : list A,
     items (enqueue_all (new_queue K) xs) = most_recent (Z.to_nat K) xs) /\
  (forall xs : list A, Z.of_nat (length xs) = (K + 1)%Z ->
     items (enqueue_all (new_queue K) xs) = tl xs /\
     drain (length xs) (enqueue_all (new_queue K) xs) = tl xs).
Proof.
  assert (Hnew : bounded (new_queue (A:=A) K)).
  { unfold bounded, qsize; simpl. lia. }
  assert (Hall : forall xs : list A,
             items (enqueue_all (new_queue K) xs) = most_recent (Z.to_nat K) xs).
  { intros xs. now rewrite enqueue_all_items. }
  split; [|split; [|split; [|split]]].
  - intros ops.
    destruct (run_qops_bounded ops (new_queue K) HK Hnew) as [Hb Hm].
    unfold bounded in Hb. now rewrite Hm in Hb.
  - intros q x. apply enqueue_total.
  - intros q x Hm Hs. subst K.
    pose proof (enqueue_full q x HK Hs) as Hfull.
    unfold get_nowait. destruct (items q) as [|y rest] eqn:E.
    + unfold qsize in Hs. rewrite E in Hs. simpl in Hs. lia.
    + exists y, (mkQueue (maxsize q) rest). split; [reflexivity|].
      rewrite Hfull, ?E. simpl. split; [|reflexivity].
      rewrite put_nowait_room; [reflexivity|].
      unfold qsize in *. rewrite E in Hs. simpl in *. lia.
  - exact Hall.
  - intros xs Hlen.
    assert (Hitems : items (enqueue_all (new_queue K) xs) = tl xs).
    { rewrite Hall. unfold most_recent.
      replace (length xs - Z.to_nat K)%nat with 1%nat by lia.
      now destruct xs. }
    split; [exact Hitems|].
    rewrite drain_items; [exact Hitems|].
    rewrite Hitems. destruct xs; simpl; lia.
Qed.

(** The scenario of C1: capacity 2, frames A, B, C; a drain yields B, C. *)
Lemma C1_buffer_drop_oldest_witness :
  (0 < 2)%Z /\
  drain 3 (enqueue_all (new_queue 2) ["A"; "B"; "C"]) = ["B"; "C"].
Proof.
  split; [reflexivity|].
  destruct (C1_buffer_drop_oldest string 2 eq_refl) as (_ & _ & _ & _ & H).
  exact (proj2 (H ["A"; "B"; "C"] eq_refl)).
Defined.

(** ** PCM conversion and frame length *)

Example frombuffer_extremes :
  frombuffer_int16 [Byte.x00; Byte.x80; Byte.xff; Byte.x7f]
  = Ok [-32768; 32767]%Z.
Proof. reflexivity. Qed.

Example frombuffer_odd_length :
  frombuffer_int16 [Byte.x01; Byte.x00; Byte.x02] = Raise ValueError.
Proof. reflexivity. Qed.

Example pad_short_read :
  pad_chunk 4 [Byte.x01] = [Byte.x01; Byte.x00; Byte.x00; Byte.x00].
Proof. reflexivity. Qed.

Lemma int16_of_bytes_range (lo hi : byte) :
  (-32768 <= int16_of_bytes lo hi <= 32767)%Z.
Proof.
  unfold int16_of_bytes.
  pose proof (Byte.to_N_bounded lo). pose proof (Byte.to_N_bounded hi).
  cbv zeta.
  destruct (_ <? 32768)%Z eqn:E;
    [apply Z.ltb_lt in E | apply Z.ltb_ge in E]; lia.
Qed.

Lemma pcm_to_float_bounds (code : Z) :
  (-32768 <= code <= 32767)%Z ->
  (-1 <= IZR code / 32768 < 1)%R.
Proof.
  intros [Hlo Hhi]. apply IZR_le in Hlo, Hhi. lra.
Qed.

Lemma frombuffer_int16_even (n : nat) (raw : list byte) :
  length raw = (2 * n)%nat ->
  exists codes, frombuffer_int16 raw = Ok codes /\ length codes = n.
Proof.
  revert raw. induction n as [|n IH]; intros raw Hlen.
  - destruct raw; [|discriminate]. exists []. split; reflexivity.
  - destruct raw as [|lo [|hi rest]]; simpl in Hlen; try lia.
    destruct (IH rest) as (codes & Hc & Hl); [lia|].
    exists (int16_of_bytes lo hi :: codes). simpl. rewrite Hc. simpl.
    split; [reflexivity|]. now rewrite Hl.
Qed.

Lemma frombuffer_int16_length (raw : list byte) (codes : list Z) :
  frombuffer_int16 raw = Ok codes -> length raw = (2 * length codes)%nat.
Proof.
  remember (length raw) as m eqn:Hm. revert raw codes Hm.
  induction m as [m IH] using lt_wf_ind. intros raw codes Hm Hok.
  destruct raw as [|lo [|hi rest]]; simpl in Hok.
  - injection Hok as <-. subst m. reflexivity.
  - discriminate.
  - destruct (frombuffer_int16 rest) as [xs|e] eqn:E; simpl in Hok; [|discriminate].
    injection Hok as <-. subst m. simpl.
    rewrite (IH (length rest)) with (raw := rest) (codes := xs); simpl; auto; lia.
Qed.

Lemma pad_chunk_length (cb : Z) (raw : list byte) :
  (Z.of_nat (length raw) <= cb)%Z ->
  Z.of_nat (length (pad_chunk cb raw)) = cb.
Proof.
  intros Hle. unfold pad_chunk.
  destruct (Z.of_nat (length raw) <? cb)%Z eqn:E.
  - rewrite length_app, repeat_length. lia.
  - apply Z.ltb_ge in E. lia.
Qed.

Lemma py_int_IZR (m : Z) : py_int (IZR m) = m.
Proof.
  unfold py_int. destruct (Rleb 0 (IZR m)).
  - apply ZfloorZ.
  - apply Zceil_eq. lra.
Qed.

(** C6. Every 16-bit sample code is mapped into [-1, 1); the minimum code
    -32768 is mapped to exactly -1 and the maximum code 32767 to
    32767/32768, strictly below 1. *)
Theorem C6_pcm_to_float_range (code : Z)
    (Hcode : (-32768 <= code <= 32767)%Z) :
  (exists r, pcm_to_float code = Fin r /\ (-1 <= r < 1)%R) /\
  pcm_to_float (-32768) = Fin (-1) /\
  (exists r, pcm_to_float 32767 = Fin r /\ r = (32767 / 32768)%R /\ (r < 1)%R) /\
  (forall lo hi : byte, (-32768 <= int16_of_bytes lo hi <= 32767)%Z) /\
  int16_of_bytes Byte.x00 Byte.x80 = (-32768)%Z /\
  int16_of_bytes Byte.xff Byte.x7f = 32767%Z.
Proof.
  split; [|split; [|split; [|split; [|split]]]].
  - exists (IZR code / 32768)%R. split; [reflexivity|].
    now apply pcm_to_float_bounds.
  - unfold pcm_to_float. f_equal. lra.
  - exists (IZR 32767 / 32768)%R. split; [reflexivity|]. split; lra.
  - apply int16_of_bytes_range.
  - reflexivity.
  - reflexivity.
Qed.

Lemma C6_pcm_to_float_range_witness :
  (-32768 <= -32768 <= 32767)%Z /\
  pcm_to_float (-32768) = Fin (-1).
Proof.
  split; [lia|].
  exact (proj1 (proj2 (C6_pcm_to_float_range (-32768) ltac:(lia)))).
Defined.

Lemma chunk_size_exact (c : Config) (m : Z) :
  (IZR (sample_rate c) * chunk_duration c)%R = IZR m -> chunk_size c = m.
Proof. intros H. unfold chunk_size. rewrite H. apply py_int_IZR. Qed.

Lemma frame_samples_length (c : Config) (raw : list byte) :
  (Z.of_nat (length raw) <= chunk_bytes c)%Z ->
  exists codes,
    frombuffer_int16 (pad_chunk (chunk_bytes c) raw) = Ok codes /\
    frame_samples c raw = Ok (map pcm_to_float codes) /\
    Z.of_nat (length codes) = chunk_size c.
Proof.
  intros Hle. pose proof (pad_chunk_length _ _ Hle) as Hpad.
  unfold chunk_bytes, bytes_per_sample in Hpad.
  destruct (frombuffer_int16_even (Z.to_nat (chunk_size c))
              (pad_chunk (chunk_bytes c) raw)) as (codes & Hc & Hl).
  { unfold chunk_bytes, bytes_per_sample. lia. }
  exists codes. split; [exact Hc|]. split.
  - unfold frame_samples. now rewrite Hc.
  - lia.
Qed.

Lemma enqueue_last {A : Type} (q : Queue A) (x : A) :
  (0 < maxsize q)%Z -> bounded q ->
  exists q', enqueue_drop_oldest q x = Ok q' /\
             maxsize q' = maxsize q /\ bounded q' /\
             exists front, items q' = front ++ [x] /\
                           (front = items q \/ front = tl (items q)).
Proof.
  intros Hpos Hb. unfold bounded in *.
  destruct (Z.eq_dec (qsize q) (maxsize q)) as [Heq|Hne].
  - rewrite enqueue_full by assumption. eexists. split; [reflexivity|].
    simpl. split; [reflexivity|]. split.
    + unfold qsize in *. simpl. rewrite length_app. simpl.
      destruct (items q); simpl in *; lia.
    + exists (tl (items q)). split; [reflexivity|]. now right.
  - rewrite enqueue_room by lia. eexists. split; [reflexivity|].
    simpl. split; [reflexivity|]. split.
    + unfold qsize in *. simpl. rewrite length_app. simpl. lia.
    + exists (items q). split; [reflexivity|]. now left.
Qed.

Lemma Forall_tl {A : Type} (P : A -> Prop) (l : list A) :
  Forall P l -> Forall P (tl l).
Proof. intros H. destruct H; simpl; [constructor|assumption]. Qed.

(** A nonempty read of at most [chunk_bytes] bytes is enqueued. *)
Lemma capture_chunk_ok (c : Config) (q : FrameQueue) (raw : list byte) (now : R) :
  raw <> [] -> (Z.of_nat (length raw) <= chunk_bytes c)%Z ->
  maxsize q = queue_maxsize -> bounded q ->
  exists q' front audio,
    capture_chunk c q raw now = Ok (Some q') /\
    items q' = front ++ [(now, audio)].
Proof.
  intros Hraw Hlen Hmax Hb.
  destruct (frame_samples_length c raw Hlen) as (codes & _ & Hf & _).
  destruct (enqueue_last q (now, map pcm_to_float codes))
    as (q' & Hq' & _ & _ & front & Hitems & _);
    [rewrite Hmax; reflexivity | assumption |].
  exists q', front, (map pcm_to_float codes). split; [|exact Hitems].
  unfold capture_chunk. destruct raw; [congruence|]. cbn [length Nat.eqb].
  rewrite Hf. cbn [bind]. now rewrite Hq'.
Qed.

(** C8. A nonempty read of at most [chunk_bytes] bytes is padded with zero
    bytes to [chunk_bytes], converted, and enqueued as a frame of exactly
    [chunk_size] samples; every frame in the queue keeps that length.  When
    [sample_rate * chunk_duration] is the integer [m], that length is [m]. *)
Theorem C8_fixed_frame_length (c : Config) (q : FrameQueue)
    (raw : list byte) (now : R)
    (Hnonzero : (0 < length raw)%nat)
    (Hread : (Z.of_nat (length raw) <= chunk_bytes c)%Z)
    (Hmax : maxsize q = queue_maxsize) (Hb : bounded q) :
  exists codes samples q',
    frombuffer_int16
      (raw ++ repeat Byte.x00 (Z.to_nat (chunk_bytes c - Z.of_nat (length raw))))
      = Ok codes /\
    samples = map pcm_to_float codes /\
    Z.of_nat (length samples) = chunk_size c /\
    (forall m, (IZR (sample_rate c) * chunk_duration c)%R = IZR m ->
               Z.of_nat (length samples) = m) /\
    capture_chunk c q raw now = Ok (Some q') /\
    last (items q') = Some (now, samples) /\
    (Forall (fun f : Frame => Z.of_nat (length (snd f)) = chunk_size c) (items q) ->
     Forall (fun f : Frame => Z.of_nat (length (snd f)) = chunk_size c) (items q')).
Proof.
  destruct (frame_samples_length c raw Hread) as (codes & Hc & Hf & Hl).
  assert (Hpad : pad_chunk (chunk_bytes c) raw =
                 raw ++ repeat Byte.x00 (Z.to_nat (chunk_bytes c - Z.of_nat (length raw)))).
  { unfold pad_chunk. destruct (_ <? _)%Z eqn:E; [reflexivity|].
    apply Z.ltb_ge in E.
    replace (chunk_bytes c - Z.of_nat (length raw))%Z with 0%Z by lia.
    simpl. now rewrite app_nil_r. }
  destruct (enqueue_last q (now, map pcm_to_float codes))
    as (q' & Hq' & _ & _ & front & Hitems & Hfront);
    [rewrite Hmax; reflexivity | assumption |].
  exists codes, (map pcm_to_float codes), q'.
  split; [now rewrite <- Hpad|]. split; [reflexivity|].
  rewrite length_map. split; [exact Hl|]. split.
  - intros m Hm. rewrite Hl. now apply chunk_size_exact.
  - split.
    + unfold capture_chunk.
      destruct (length raw) eqn:E; [lia|]. simpl.
      rewrite Hf. simpl. now rewrite Hq'.
    + split.
      * rewrite Hitems. apply last_snoc.
      * intros Hall. rewrite Hitems. apply Forall_app. split.
        -- destruct Hfront as [->| ->]; [assumption|now apply Forall_tl].
        -- constructor; [|constructor]. simpl. now rewrite length_map.
Qed.

Lemma C8_fixed_frame_length_witness :
  exists samples q',
    capture_chunk (mkConfig 2 1 ["raw"]) (new_queue queue_maxsize)
      [Byte.x01] 0 = Ok (Some q') /\
    last (items q') = Some (0%R, samples) /\
    Z.of_nat (length samples) = 2%Z.
Proof.
  assert (Hcs : chunk_size (mkConfig 2 1 ["raw"]) = 2%Z).
  { apply chunk_size_exact. simpl. lra. }
  assert (Hread : (Z.of_nat (length [Byte.x01])
                   <= chunk_bytes (mkConfig 2 1 ["raw"]))%Z).
  { unfold chunk_bytes, bytes_per_sample. rewrite Hcs. simpl. lia. }
  assert (Hb : bounded (new_queue (A:=Frame) queue_maxsize)).
  { unfold bounded, qsize, queue_maxsize. simpl. lia. }
  destruct (C8_fixed_frame_length (mkConfig 2 1 ["raw"])
              (new_queue queue_maxsize) [Byte.x01] 0
              ltac:(simpl; lia) Hread eq_refl Hb)
    as (codes & samples & q' & _ & _ & Hlen & _ & Hcap & Hlast & _).
  exists samples, q'. split; [exact Hcap|]. split; [exact Hlast|].
  now rewrite Hlen.
Defined.

(** ** Arithmetic on [xreal] *)

Lemma Rltb_true (a b : R) : (a < b)%R -> Rltb a b = true.
Proof. intros H. unfold Rltb. destruct (Rlt_dec a b); [reflexivity|contradiction]. Qed.

Lemma Rltb_false (a b : R) : (b <= a)%R -> Rltb a b = false.
Proof. intros H. unfold Rltb. destruct (Rlt_dec a b); [exfalso; lra|reflexivity]. Qed.

Lemma Rleb_true (a b : R) : (a <= b)%R -> Rleb a b = true.
Proof. intros H. unfold Rleb. destruct (Rle_dec a b); [reflexivity|contradiction]. Qed.

Lemma Rleb_false (a b : R) : (b < a)%R -> Rleb a b = false.
Proof. intros H. unfold Rleb. destruct (Rle_dec a b); [exfalso; lra|reflexivity]. Qed.

Lemma Reqb_true (a b : R) : a = b -> Reqb a b = true.
Proof. intros H. unfold Reqb. destruct (Req_dec_T a b); [reflexivity|contradiction]. Qed.

Lemma Reqb_false (a b : R) : a <> b -> Reqb a b = false.
Proof. intros H. unfold Reqb. destruct (Req_dec_T a b); [contradiction|reflexivity]. Qed.

Lemma Rltb_spec (a b : R) : Rltb a b = true <-> (a < b)%R.
Proof. unfold Rltb. destruct (Rlt_dec a b); split; auto; discriminate. Qed.

Lemma Rleb_spec (a b : R) : Rleb a b = true <-> (a <= b)%R.
Proof. unfold Rleb. destruct (Rle_dec a b); split; auto; discriminate. Qed.

Lemma ln10_pos : (0 < ln 10)%R.
Proof. rewrite <- ln_1. apply ln_increasing; lra. Qed.

Lemma log10_floor : log10 floor_const = (-10)%R.
Proof.
  unfold log10, floor_const.
  replace 1e-10%R with (/ 10 ^ 10)%R by lra.
  rewrite ln_Rinv by (apply pow_lt; lra).
  rewrite ln_pow by lra. simpl INR.
  pose proof ln10_pos. field. lra.
Qed.

Lemma floor_const_pos : (0 < floor_const)%R.
Proof. unfold floor_const. lra. Qed.

Lemma xsum_from_fin (l : list R) (acc : R) :
  fold_left xadd (map Fin l) (Fin acc) = Fin (fold_left Rplus l acc).
Proof.
  revert acc. induction l as [|x l IH]; intros acc; simpl; [reflexivity|].
  apply IH.
Qed.

Lemma xsum_fin (l : list R) : xsum (map Fin l) = Fin (fold_left Rplus l 0%R).
Proof. apply xsum_from_fin. Qed.

Lemma fold_plus_zeros (n : nat) (acc : R) :
  fold_left Rplus (repeat 0%R n) acc = acc.
Proof.
  revert acc. induction n as [|n IH]; intros acc; simpl; [reflexivity|].
  rewrite IH. lra.
Qed.

Lemma to_db20_floor : to_db20 (Fin (0 + floor_const)) = Fin (-200).
Proof.
  unfold to_db20, xlog10.
  pose proof floor_const_pos.
  rewrite Rltb_false by lra. rewrite Reqb_false by lra.
  simpl. f_equal. rewrite Rplus_0_l, log10_floor. lra.
Qed.

(** ** Statistics of one chunk *)

Lemma xadd_0_l (x : xreal) : xadd (Fin 0) x = x.
Proof. destruct x; simpl; try reflexivity. f_equal. lra. Qed.

Lemma xadd_comm (a b : xreal) : xadd a b = xadd b a.
Proof. destruct a, b; simpl; try reflexivity. f_equal. lra. Qed.

Lemma xadd_assoc (a b c : xreal) : xadd a (xadd b c) = xadd (xadd a b) c.
Proof. destruct a, b, c; simpl; try reflexivity. f_equal. lra. Qed.

Lemma np_any_map (band : xreal -> bool) (freq : list xreal) :
  np_any (map band freq) = existsb band freq.
Proof.
  unfold np_any. induction freq as [|f fs IH]; simpl; [reflexivity|].
  now rewrite IH.
Qed.

Lemma bool_index_select (band : xreal -> bool) (freq psd_db : list xreal) :
  length freq = length psd_db ->
  bool_index psd_db (map band freq) = Ok (select_bins band freq psd_db).
Proof.
  intros Hlen. unfold bool_index.
  rewrite length_map, <- Hlen, Nat.eqb_refl. f_equal.
  revert psd_db Hlen. induction freq as [|f fs IH]; intros [|p ps] Hlen;
    simpl in *; try discriminate; [reflexivity|].
  rewrite filter_cons. simpl.
  destruct (band f); simpl.
  - destruct (decide (true = true)); [|congruence]. simpl. f_equal. apply IH. lia.
  - destruct (decide (false = true)); [discriminate|]. apply IH. lia.
Qed.

Lemma band_power_correct (band : xreal -> bool) (freq psd_db : list xreal) :
  length freq = length psd_db ->
  band_power psd_db (map band freq) = Ok (band_power_spec band freq psd_db).
Proof.
  intros Hlen. unfold band_power, band_power_spec.
  rewrite np_any_map. destruct (existsb band freq); [|reflexivity].
  now rewrite bool_index_select.
Qed.

Lemma cumsum_from_length (acc : xreal) (l : list xreal) :
  length (cumsum_from acc l) = length l.
Proof.
  revert acc. induction l as [|x l IH]; intros acc; simpl; [reflexivity|].
  now rewrite IH.
Qed.

Lemma cumsum_from_lookup (l : list xreal) (acc : xreal) (i : nat) :
  (i < length l)%nat ->
  cumsum_from acc l !! i = Some (fold_left xadd (take (S i) l) acc).
Proof.
  revert acc i. induction l as [|x l IH]; intros acc i Hi; simpl in Hi; [lia|].
  destruct i as [|i]; simpl.
  - reflexivity.
  - rewrite IH by lia. reflexivity.
Qed.

Lemma np_cumsum_length (l : list xreal) : length (np_cumsum l) = length l.
Proof. destruct l; simpl; [reflexivity|]. now rewrite cumsum_from_length. Qed.

Lemma np_cumsum_lookup (l : list xreal) (i : nat) :
  (i < length l)%nat -> np_cumsum l !! i = Some (cumulative l i).
Proof.
  intros Hi. unfold cumulative, xsum.
  destruct l as [|x l]; simpl in Hi; [lia|].
  destruct i as [|i].
  - change (Some x = Some (xadd (Fin 0) x)). now rewrite xadd_0_l.
  - change (cumsum_from x l !! i =
            Some (fold_left xadd (take (S i) l) (xadd (Fin 0) x))).
    rewrite xadd_0_l. apply cumsum_from_lookup. lia.
Qed.

Lemma np_cumsum_last (l : list xreal) :
  l <> [] -> last_item (np_cumsum l) = Ok (xsum l).
Proof.
  intros Hne. unfold last_item.
  rewrite last_lookup, np_cumsum_length.
  assert (Hpos : (0 < length l)%nat) by (destruct l; simpl; [congruence|lia]).
  rewrite np_cumsum_lookup by lia.
  unfold cumulative.
  replace (S (Init.Nat.pred (length l))) with (length l) by lia.
  now rewrite firstn_all.
Qed.

Lemma where_ge_from (k : nat) (cs : list xreal) (t : xreal) :
  match map fst (filter (fun p : nat * xreal => xgeb (snd p) t = true)
                   (imap (fun i x => ((k + i)%nat, x)) cs)) with
  | [] => forall i x, cs !! i = Some x -> xgeb x t = false
  | j :: _ =>
      exists i x, j = (k + i)%nat /\ cs !! i = Some x /\ xgeb x t = true /\
                  forall i' x', (i' < i)%nat -> cs !! i' = Some x' ->
                                xgeb x' t = false
  end.
Proof.
  revert k. induction cs as [|c cs IH]; intros k.
  - simpl. intros i x Hi. discriminate.
  - rewrite imap_cons.
    rewrite (imap_ext _ (fun i x => ((S k + i)%nat, x)))
      by (intros i x _; simpl; f_equal; lia).
    rewrite filter_cons. cbn [snd].
    destruct (decide (xgeb c t = true)) as [Hc|Hc].
    + simpl. exists 0%nat, c. repeat split; auto. intros i' x' Hi'. lia.
    + specialize (IH (S k)).
      destruct (map fst _) as [|j rest].
      * intros [|i] x Hi; simpl in Hi.
        -- injection Hi as <-. now destruct (xgeb c t).
        -- eapply IH; eauto.
      * destruct IH as (i & x & Hj & Hi & Hx & Hfirst).
        exists (S i), x. repeat split; auto; [lia|].
        intros [|i'] x' Hlt Hi'; simpl in Hi'.
        -- injection Hi' as <-. now destruct (xgeb c t).
        -- eapply Hfirst; eauto. lia.
Qed.

Lemma where_ge_first (cs : list xreal) (t : xreal) :
  match where_ge cs t with
  | [] => forall i x, cs !! i = Some x -> xgeb x t = false
  | j :: _ =>
      exists x, cs !! j = Some x /\ xgeb x t = true /\
                forall i' x', (i' < j)%nat -> cs !! i' = Some x' ->
                              xgeb x' t = false
  end.
Proof.
  pose proof (where_ge_from 0 cs t) as H. unfold where_ge.
  rewrite (imap_ext _ (fun i x => ((0 + i)%nat, x))) by reflexivity.
  destruct (map fst _) as [|j rest]; [exact H|].
  destruct H as (i & x & -> & Hi & Hx & Hfirst). simpl. eauto.
Qed.

(** The rolloff of a nonempty slice whose axes have the same length. *)
Lemma rolloff_correct (freq psd_db : list xreal) :
  psd_db <> [] -> length freq = length psd_db ->
  exists v, rolloff freq psd_db = Ok v /\ rolloff_spec freq psd_db v.
Proof.
  intros Hne Hlen. unfold rolloff. rewrite np_cumsum_last by assumption. simpl.
  pose proof (where_ge_first (np_cumsum psd_db) (xmul (Fin 0.85) (xsum psd_db)))
    as Hw.
  destruct (where_ge _ _) as [|j rest].
  - exists (Fin 0). split; [reflexivity|]. right. split; [|reflexivity].
    intros i Hi. unfold reaches.
    apply (Hw i). now apply np_cumsum_lookup.
  - destruct Hw as (x & Hj & Hx & Hfirst).
    assert (Hjlt : (j < length psd_db)%nat).
    { rewrite <- np_cumsum_length. eapply lookup_lt_Some; eauto. }
    rewrite np_cumsum_lookup in Hj by assumption. injection Hj as <-.
    destruct (lookup_lt_is_Some_2 freq j) as [v Hv]; [lia|].
    exists v. unfold item_at. rewrite Hv. split; [reflexivity|].
    left. exists j. repeat split; auto.
    intros i Hi. unfold reaches. apply (Hfirst i); [assumption|].
    apply np_cumsum_lookup. lia.
Qed.

Lemma np_mul_same_length (a b : list xreal) :
  length a = length b -> np_mul a b = Ok (zip_with xmul a b).
Proof. intros H. unfold np_mul. now rewrite H, Nat.eqb_refl. Qed.

Lemma np_max_nonempty (l : list xreal) :
  l <> [] -> exists v, np_max l = Ok v.
Proof. destruct l; [congruence|]. simpl. eauto. Qed.

(** On a nonempty chunk and a nonempty slice with parallel axes,
    [compute_statistics] returns, and this is what it returns. *)
Lemma compute_statistics_ok (audio_data freq psd_db : list xreal) :
  audio_data <> [] -> length freq = length psd_db -> psd_db <> [] ->
  exists pk roll,
    np_max (map xabs audio_data) = Ok pk /\
    rolloff freq psd_db = Ok roll /\ rolloff_spec freq psd_db roll /\
    compute_statistics audio_data freq psd_db =
    Ok (let rms := xsqrt (xmean (map xsquare audio_data)) in
        let low := band_power_spec low_band freq psd_db in
        let mid := band_power_spec mid_band freq psd_db in
        let bird := band_power_spec bird_band freq psd_db in
        let high := band_power_spec high_band freq psd_db in
        mkStats rms (to_db20 (xadd rms (Fin floor_const)))
          pk (to_db20 (xadd pk (Fin floor_const)))
          (xdiv pk (xadd rms (Fin floor_const)))
          (to_db20 (xdiv pk (xadd rms (Fin floor_const))))
          low mid bird high (xsub bird low) (xsub bird mid)
          (xdiv (xsum (zip_with xmul freq psd_db)) (xsum psd_db))
          roll).
Proof.
  intros Ha Hlen Hp.
  destruct (np_max_nonempty (map xabs audio_data)) as [pk Hpk].
  { destruct audio_data; [congruence|discriminate]. }
  destruct (rolloff_correct freq psd_db Hp Hlen) as (roll & Hroll & Hspec).
  exists pk, roll. repeat split; auto.
  unfold compute_statistics. rewrite Hpk. cbn [bind].
  change (low_mask freq) with (map low_band freq).
  change (mid_mask freq) with (map mid_band freq).
  change (bird_mask freq) with (map bird_band freq).
  change (high_mask freq) with (map high_band freq).
  rewrite !band_power_correct by assumption. cbn [bind].
  rewrite np_mul_same_length by assumption. cbn [bind].
  rewrite Hroll. reflexivity.
Qed.

(** ** Spectral analysis *)

Lemma hann_length (M : nat) : length (hann M) = M.
Proof.
  unfold hann. destruct (M <=? 1)%nat.
  - apply repeat_length.
  - now rewrite length_map, length_seq.
Qed.

Lemma windowed_length (audio_data : list xreal) :
  length (zip_with xmul audio_data (map Fin (hann (length audio_data))))
  = length audio_data.
Proof.
  rewrite length_zip_with_l_eq; [reflexivity|].
  now rewrite length_map, hann_length.
Qed.

Lemma INR_pos_nonzero (n : nat) : (0 < n)%nat -> (0 < INR n)%R.
Proof. intros H. apply lt_0_INR. lia. Qed.

Lemma py_div_ok (a b : R) : b <> 0%R -> py_div a b = Ok (a / b)%R.
Proof. intros H. unfold py_div. now rewrite Reqb_false. Qed.

(** The frequency axis. *)
Lemma rfftfreq_ok (sr : Z) (n : nat) :
  (0 < n)%nat -> sr <> 0%Z ->
  rfftfreq n (1 / IZR sr) =
  Ok (map (fun k => Fin (INR k * (1 / (INR n * (1 / IZR sr))))) (seq 0 (n / 2 + 1))).
Proof.
  intros Hn Hsr. unfold rfftfreq.
  assert (IZR sr <> 0%R) by (apply not_0_IZR; assumption).
  pose proof (INR_pos_nonzero n Hn).
  rewrite py_div_ok; [reflexivity|].
  apply Rmult_integral_contrapositive. split; [lra|].
  unfold Rdiv. rewrite Rmult_1_l. now apply Rinv_neq_0_compat.
Qed.

Lemma rfft_ok (x : list xreal) :
  x <> [] -> rfft x = Ok (map (rfft_bin x) (seq 0 (length x / 2 + 1))).
Proof. destruct x; [congruence|reflexivity]. Qed.

(** On a nonempty chunk the analysis returns, with both axes of length
    [n/2 + 1]. *)
Lemma analyze_frequency_spectrum_ok (c : Config) (audio_data : list xreal) :
  audio_data <> [] -> sample_rate c <> 0%Z ->
  let n := length audio_data in
  let windowed := zip_with xmul audio_data (map Fin (hann n)) in
  analyze_frequency_spectrum c audio_data =
  Ok (map (fun k => Fin (INR k * (1 / (INR n * (1 / IZR (sample_rate c))))))
        (seq 0 (n / 2 + 1)),
      map to_db10 (map (fun z => xsquare (xcabs z))
                     (map (rfft_bin windowed) (seq 0 (n / 2 + 1))))).
Proof.
  intros Hne Hsr n windowed. unfold analyze_frequency_spectrum.
  fold n. fold windowed.
  assert (Hlen : length windowed = n) by apply windowed_length.
  assert (Hn : (0 < n)%nat).
  { unfold n. destruct audio_data; simpl; [congruence|lia]. }
  rewrite rfft_ok.
  2:{ intros Hnil. rewrite Hnil in Hlen. simpl in Hlen. lia. }
  cbn [bind].
  rewrite py_div_ok by (apply not_0_IZR; assumption). cbn [bind].
  rewrite Hlen. rewrite rfftfreq_ok by assumption. reflexivity.
Qed.

Lemma analyze_then_statistics_ok (c : Config) (audio_data : list xreal) :
  audio_data <> [] -> sample_rate c <> 0%Z ->
  exists freq psd_db st,
    analyze_frequency_spectrum c audio_data = Ok (freq, psd_db) /\
    length freq = (length audio_data / 2 + 1)%nat /\
    length psd_db = (length audio_data / 2 + 1)%nat /\
    compute_statistics audio_data freq psd_db = Ok st.
Proof.
  intros Hne Hsr.
  pose proof (analyze_frequency_spectrum_ok c audio_data Hne Hsr) as Ha.
  cbv zeta in Ha.
  eexists _, _. 
  assert (Hlf : forall (f : nat -> xreal) m, length (map f (seq 0 (m / 2 + 1))) = (m / 2 + 1)%nat).
  { intros. now rewrite length_map, length_seq. }
  match type of Ha with _ = Ok (?f, ?p) =>
    destruct (compute_statistics_ok audio_data f p) as (pk & roll & _ & _ & _ & Hst)
  end.
  - assumption.
  - now rewrite !length_map.
  - intros Hnil. apply (f_equal (@length _)) in Hnil.
    rewrite !length_map, length_seq in Hnil. simpl in Hnil. lia.
  - eexists. split; [exact Ha|]. split; [apply Hlf|].
    split; [now rewrite !length_map, length_seq|]. exact Hst.
Qed.

(** What [compute_statistics] puts in the level fields when it returns. *)
Lemma compute_statistics_levels (audio_data freq psd_db : list xreal) (st : Stats) :
  compute_statistics audio_data freq psd_db = Ok st ->
  exists pk, np_max (map xabs audio_data) = Ok pk /\
    rms st = xsqrt (xmean (map xsquare audio_data)) /\
    rms_db st = to_db20 (xadd (rms st) (Fin floor_const)) /\
    peak st = pk /\
    peak_db st = to_db20 (xadd pk (Fin floor_const)) /\
    crest_factor st = xdiv pk (xadd (rms st) (Fin floor_const)) /\
    crest_factor_db st = to_db20 (crest_factor st) /\
    snr_bird_to_low st = xsub (bird_freq_power st) (low_freq_power st) /\
    snr_bird_to_mid st = xsub (bird_freq_power st) (mid_freq_power st).
Proof.
  unfold compute_statistics. intros H.
  destruct (np_max (map xabs audio_data)) as [pk|]; [|discriminate].
  cbn [bind] in H.
  destruct (band_power psd_db (low_mask freq)); [|discriminate]. cbn [bind] in H.
  destruct (band_power psd_db (mid_mask freq)); [|discriminate]. cbn [bind] in H.
  destruct (band_power psd_db (bird_mask freq)); [|discriminate]. cbn [bind] in H.
  destruct (band_power psd_db (high_mask freq)); [|discriminate]. cbn [bind] in H.
  destruct (np_mul freq psd_db); [|discriminate]. cbn [bind] in H.
  destruct (rolloff freq psd_db); [|discriminate]. cbn [bind] in H.
  injection H as <-. exists pk. cbn. repeat split; reflexivity.
Qed.

Lemma silent_mean_square (n : nat) :
  (0 < n)%nat -> xmean (map xsquare (repeat (Fin 0) n)) = Fin 0.
Proof.
  intros Hn. unfold xmean.
  rewrite length_map, repeat_length.
  replace (map xsquare (repeat (Fin 0) n)) with (map Fin (repeat 0%R n)).
  - rewrite xsum_fin, fold_plus_zeros. simpl.
    pose proof (INR_pos_nonzero n Hn).
    rewrite Reqb_false by lra. f_equal. unfold Rdiv. apply Rmult_0_l.
  - clear Hn. induction n as [|n IH]; simpl; [reflexivity|].
    rewrite IH. f_equal. unfold xsquare. simpl. f_equal. lra.
Qed.

Lemma silent_rms (n : nat) :
  (0 < n)%nat -> xsqrt (xmean (map xsquare (repeat (Fin 0) n))) = Fin 0.
Proof.
  intros Hn. rewrite silent_mean_square by assumption. simpl.
  rewrite Rltb_false by lra. f_equal. apply sqrt_0.
Qed.

Lemma fold_xmax_same (r : R) (m : nat) :
  fold_left xmax (repeat (Fin r) m) (Fin r) = Fin r.
Proof.
  induction m as [|m IH]; simpl; [reflexivity|].
  rewrite Rltb_false by lra. exact IH.
Qed.

Lemma silent_peak (n : nat) :
  (0 < n)%nat -> np_max (map xabs (repeat (Fin 0) n)) = Ok (Fin 0).
Proof.
  intros Hn. destruct n as [|m]; [lia|]. simpl.
  replace (map xabs (repeat (Fin 0) m)) with (repeat (Fin (Rabs 0)) m).
  - rewrite fold_xmax_same. now rewrite Rabs_R0.
  - clear Hn. induction m as [|m IH]; simpl; [reflexivity|]. now rewrite IH.
Qed.

Lemma repeat_nonempty {A : Type} (x : A) (n : nat) :
  (0 < n)%nat -> repeat x n <> [].
Proof. destruct n; [lia|discriminate]. Qed.

(** C7. For a silent chunk the analysis and the statistics return, the RMS
    is zero and [rms_db] is the finite value [20 * log10(1e-10) = -200]:
    the floor is added to the RMS before the logarithm. *)
Theorem C7_silent_rms_db_is_floor (c : Config) (n : nat)
    (Hn : (0 < n)%nat) (Hsr : (0 < sample_rate c)%Z) :
  (exists freq psd_db st,
     analyze_frequency_spectrum c (repeat (Fin 0) n) = Ok (freq, psd_db) /\
     compute_statistics (repeat (Fin 0) n) freq psd_db = Ok st) /\
  (forall freq psd_db st,
     compute_statistics (repeat (Fin 0) n) freq psd_db = Ok st ->
     rms st = Fin 0 /\
     rms_db st = to_db20 (xadd (Fin 0) (Fin floor_const)) /\
     rms_db st = Fin (20 * log10 floor_const) /\
     rms_db st = Fin (-200) /\
     rms_db st <> NInf /\ rms_db st <> NaN).
Proof.
  split.
  - destruct (analyze_then_statistics_ok c (repeat (Fin 0) n))
      as (freq & psd_db & st & Ha & _ & _ & Hst).
    + now apply repeat_nonempty.
    + lia.
    + eauto.
  - intros freq psd_db st Hst.
    destruct (compute_statistics_levels _ _ _ _ Hst) as (pk & _ & Hrms & Hdb & _).
    rewrite silent_rms in Hrms by assumption.
    rewrite Hrms in Hdb.
    assert (H200 : rms_db st = Fin (-200)).
    { rewrite Hdb. apply to_db20_floor. }
    split; [exact Hrms|]. split; [exact Hdb|]. split.
    + rewrite H200, log10_floor. f_equal. lra.
    + split; [exact H200|]. rewrite H200. split; discriminate.
Qed.

Lemma C7_silent_rms_db_is_floor_witness :
  exists freq psd_db st,
    analyze_frequency_spectrum (mkConfig 4 1 ["raw"]) (repeat (Fin 0) 4)
      = Ok (freq, psd_db) /\
    compute_statistics (repeat (Fin 0) 4) freq psd_db = Ok st /\
    rms_db st = Fin (-200).
Proof.
  destruct (C7_silent_rms_db_is_floor (mkConfig 4 1 ["raw"]) 4
              ltac:(lia) ltac:(simpl; lia))
    as ((freq & psd_db & st & Ha & Hst) & Hall).
  exists freq, psd_db, st. split; [exact Ha|]. split; [exact Hst|].
  exact (proj1 (proj2 (proj2 (proj2 (Hall freq psd_db st Hst))))).
Defined.

(** C10. For a silent chunk the peak is zero, the crest factor is
    [0 / (0 + 1e-10) = 0], and [crest_factor_db = 20 * log10(0)] is minus
    infinity: no floor is added inside this logarithm, while [rms_db] and
    [peak_db] stay at the finite -200. *)
Theorem C10_silent_crest_factor_db (c : Config) (n : nat)
    (Hn : (0 < n)%nat) (Hsr : (0 < sample_rate c)%Z) :
  (exists freq psd_db st,
     analyze_frequency_spectrum c (repeat (Fin 0) n) = Ok (freq, psd_db) /\
     compute_statistics (repeat (Fin 0) n) freq psd_db = Ok st) /\
  (forall freq psd_db st,
     compute_statistics (repeat (Fin 0) n) freq psd_db = Ok st ->
     peak st = Fin 0 /\
     crest_factor st = xdiv (Fin 0) (xadd (Fin 0) (Fin floor_const)) /\
     crest_factor st = Fin 0 /\
     crest_factor_db st = to_db20 (crest_factor st) /\
     crest_factor_db st = NInf /\
     is_finite (crest_factor_db st) = false /\
     peak_db st = Fin (-200) /\ rms_db st = Fin (-200)).
Proof.
  split.
  - destruct (analyze_then_statistics_ok c (repeat (Fin 0) n))
      as (freq & psd_db & st & Ha & _ & _ & Hst).
    + now apply repeat_nonempty.
    + lia.
    + eauto.
  - intros freq psd_db st Hst.
    destruct (compute_statistics_levels _ _ _ _ Hst)
      as (pk & Hpk & Hrms & Hdb & Hpeak & Hpdb & Hcf & Hcfdb & _).
    rewrite silent_peak in Hpk by assumption. injection Hpk as <-.
    rewrite silent_rms in Hrms by assumption.
    rewrite Hrms in Hdb, Hcf.
    assert (Hzero : crest_factor st = Fin 0).
    { rewrite Hcf. simpl. pose proof floor_const_pos.
      rewrite Reqb_false by lra. f_equal. unfold Rdiv. apply Rmult_0_l. }
    assert (Hninf : crest_factor_db st = NInf).
    { rewrite Hcfdb, Hzero. unfold to_db20, xlog10.
      rewrite Rltb_false by lra. rewrite Reqb_true by reflexivity.
      simpl. unfold signed_inf.
      rewrite Reqb_false by lra. now rewrite Rltb_false by lra. }
    split; [exact Hpeak|]. split; [exact Hcf|]. split; [exact Hzero|].
    split; [exact Hcfdb|]. split; [exact Hninf|].
    split; [now rewrite Hninf|]. split.
    + rewrite Hpdb. apply to_db20_floor.
    + rewrite Hdb. apply to_db20_floor.
Qed.

Lemma C10_silent_crest_factor_db_witness :
  exists freq psd_db st,
    analyze_frequency_spectrum (mkConfig 4 1 ["raw"]) (repeat (Fin 0) 4)
      = Ok (freq, psd_db) /\
    compute_statistics (repeat (Fin 0) 4) freq psd_db = Ok st /\
    crest_factor_db st = NInf.
Proof.
  destruct (C10_silent_crest_factor_db (mkConfig 4 1 ["raw"]) 4
              ltac:(lia) ltac:(simpl; lia))
    as ((freq & psd_db & st & Ha & Hst) & Hall).
  exists freq, psd_db, st. split; [exact Ha|]. split; [exact Hst|].
  exact (proj1 (proj2 (proj2 (proj2 (proj2 (Hall freq psd_db st Hst)))))).
Defined.


(** C4, as the code has it.  For a chunk and a nonempty slice with parallel
    axes, the rolloff is the frequency of the first bin at which the
    cumulative sum of [psd_db] is at least 85% of the total, and zero when no
    bin reaches that threshold. *)
Theorem C4_rolloff_first_bin_or_zero (audio_data freq psd_db : list xreal)
    (Haudio : audio_data <> [])
    (Hlen : length freq = length psd_db)
    (Hpsd : psd_db <> []) :
  exists st,
    compute_statistics audio_data freq psd_db = Ok st /\
    rolloff freq psd_db = Ok (spectral_rolloff st) /\
    rolloff_spec freq psd_db (spectral_rolloff st).
Proof.
  destruct (compute_statistics_ok audio_data freq psd_db Haudio Hlen Hpsd)
    as (pk & roll & _ & Hroll & Hspec & Hst).
  eexists. split; [exact Hst|]. cbn. split; assumption.
Qed.

(** A single bin of negative power never reaches 85% of itself: the
    rolloff is the sentinel 0. *)
Lemma C4_rolloff_first_bin_or_zero_witness :
  exists st,
    compute_statistics [Fin 0] [Fin 0] [Fin (-100)] = Ok st /\
    spectral_rolloff st = Fin 0.
Proof.
  destruct (C4_rolloff_first_bin_or_zero [Fin 0] [Fin 0] [Fin (-100)]
              ltac:(discriminate) eq_refl ltac:(discriminate))
    as (st & Hst & Hroll & _).
  exists st. split; [exact Hst|].
  assert (Hr : rolloff [Fin 0] [Fin (-100)] = Ok (Fin 0)).
  { unfold rolloff, where_ge. simpl.
    rewrite filter_cons. simpl.
    destruct (decide (Rleb (0.85 * -100) (-100) = true)) as [Hd|Hd].
    - apply Rleb_spec in Hd. exfalso. lra.
    - reflexivity. }
  rewrite Hr in Hroll. now injection Hroll as <-.
Defined.

(** An empty slice: the last element of the empty cumulative sum does not
    exist, and the statistics raise instead of returning a rolloff of 0. *)
Lemma C4_empty_slice_raises :
  rolloff [] [] = Raise IndexError /\
  compute_statistics [Fin 0] [] [] = Raise IndexError /\
  ~ (exists st, compute_statistics [Fin 0] [] [] = Ok st /\
                spectral_rolloff st = Fin 0).
Proof.
  assert (H : compute_statistics [Fin 0] [] [] = Raise IndexError) by reflexivity.
  split; [reflexivity|]. split; [exact H|].
  intros (st & Hst & _). rewrite H in Hst. discriminate.
Qed.

(** ** The spectrum of a finite chunk *)

Lemma cos_shift_PI (a : R) : cos (a + - PI) = (- cos a)%R.
Proof.
  replace (a + - PI)%R with (a - PI)%R by lra.
  rewrite cos_minus, cos_PI, sin_PI. lra.
Qed.

Lemma hann_is_textbook (M : nat) : hann M = map (hann_spec M) (seq 0 M).
Proof.
  unfold hann, hann_spec. destruct (M <=? 1)%nat eqn:E.
  - clear E. generalize 0%nat. induction M as [|M IH]; intros k; simpl; [reflexivity|].
    now rewrite <- IH.
  - apply map_ext. intros j. unfold hann_fac.
    rewrite Rmult_0_l, cos_0, Rmult_1_l, cos_shift_PI.
    replace (INR j * ((PI - - PI) / INR (M - 1)))%R
      with (2 * PI * INR j / INR (M - 1))%R.
    + lra.
    + unfold Rdiv. ring.
Qed.

Lemma zip_with_fin_seq (g : nat -> R) (l : list R) (k : nat) :
  zip_with xmul (map Fin l) (map Fin (map g (seq k (length l))))
  = map Fin (imap (fun j x => (g (k + j)%nat * x)%R) l).
Proof.
  revert k. induction l as [|x l IH]; intros k; [reflexivity|].
  cbn [length seq map zip_with]. rewrite imap_cons. cbn [map].
  f_equal.
  - simpl. f_equal. rewrite Nat.add_0_r. ring.
  - rewrite IH. f_equal. apply imap_ext. intros j y _. cbn.
    now rewrite Nat.add_succ_r.
Qed.

Lemma windowed_is_textbook (samples : list R) :
  zip_with xmul (map Fin samples) (map Fin (hann (length (map Fin samples))))
  = map Fin (windowed_spec samples).
Proof.
  rewrite length_map, hann_is_textbook, zip_with_fin_seq. reflexivity.
Qed.

Lemma imap_xmul_fin (g : nat -> R) (w : list R) :
  imap (fun j xj => xmul xj (Fin (g j))) (map Fin w)
  = map Fin (imap (fun j wj => (wj * g j)%R) w).
Proof.
  revert g. induction w as [|x w IH]; intros g; [reflexivity|].
  cbn [map]. rewrite !imap_cons. cbn [map]. f_equal.
  exact (IH (fun j => g (S j))).
Qed.

Lemma fold_left_Rplus_Rsum (l : list R) (acc : R) :
  fold_left Rplus l acc = (acc + Rsum l)%R.
Proof.
  revert acc. induction l as [|x l IH]; intros acc; simpl; [lra|].
  rewrite IH. lra.
Qed.

Lemma xsum_fin_Rsum (l : list R) : xsum (map Fin l) = Fin (Rsum l).
Proof. rewrite xsum_fin, fold_left_Rplus_Rsum. f_equal. lra. Qed.

Lemma rfft_bin_is_dft (w : list R) (k : nat) :
  rfft_bin (map Fin w) k = (Fin (dft_re w k), Fin (dft_im w k)).
Proof.
  unfold rfft_bin, dft_re, dft_im, dft_angle. rewrite length_map.
  rewrite (imap_xmul_fin (fun j => cos (2 * PI * INR j * INR k / INR (length w)))).
  rewrite (imap_xmul_fin (fun j => (- sin (2 * PI * INR j * INR k / INR (length w)))%R)).
  now rewrite !xsum_fin_Rsum.
Qed.

Lemma power_db_of_bin (a b : R) :
  to_db10 (xsquare (xcabs (Fin a, Fin b)))
  = Fin (10 * log10 (a ^ 2 + b ^ 2 + 1e-10)).
Proof.
  unfold xcabs, xsquare. cbn [fst snd xmul xadd xsqrt].
  assert (Hs : (0 <= a * a + b * b)%R) by nra.
  rewrite Rltb_false by lra. cbn [xmul].
  rewrite sqrt_sqrt by assumption.
  unfold to_db10. cbn [xadd xlog10].
  pose proof floor_const_pos as Hf.
  rewrite Rltb_false by lra. rewrite Reqb_false by lra.
  cbn [xmul]. unfold floor_const. do 3 f_equal. ring.
Qed.

Lemma bin_frequency_code (sr : Z) (n k : nat) :
  (0 < n)%nat -> sr <> 0%Z ->
  (INR k * (1 / (INR n * (1 / IZR sr))))%R = bin_frequency sr n k.
Proof.
  intros Hn Hsr. unfold bin_frequency.
  pose proof (INR_pos_nonzero n Hn).
  assert (IZR sr <> 0%R) by (apply not_0_IZR; assumption).
  field. split; lra.
Qed.

Lemma bin_frequency_increasing (sr : Z) (n i j : nat) :
  (0 < n)%nat -> (0 < sr)%Z -> (i < j)%nat ->
  (bin_frequency sr n i < bin_frequency sr n j)%R.
Proof.
  intros Hn Hsr Hij. unfold bin_frequency.
  pose proof (INR_pos_nonzero n Hn) as Hn'.
  assert (Hsr' : (0 < IZR sr)%R) by (apply IZR_lt; assumption).
  apply lt_INR in Hij.
  unfold Rdiv. apply Rmult_lt_compat_r; [now apply Rinv_0_lt_compat|].
  apply Rmult_lt_compat_r; assumption.
Qed.

Lemma lookup_map_seq {B : Type} (f : nat -> B) (m k : nat) :
  (k < m)%nat -> map f (seq 0 m) !! k = Some (f k).
Proof.
  intros Hk. rewrite list_lookup_fmap, lookup_seq_lt by assumption.
  reflexivity.
Qed.

(** C3. For a chunk of [n >= 1] finite samples the analysis returns a
    frequency axis and a power axis, both of length [n/2 + 1]; bin [k] has
    frequency [k * sample_rate / n], so the axis is strictly ascending; and
    the power of bin [k] is [10 * log10(|X_k|^2 + 1e-10)], where [X] is the
    discrete Fourier transform of the samples multiplied by the Hann
    window. *)
Theorem C3_spectrum_axes (c : Config) (samples : list R)
    (Hne : samples <> []) (Hsr : (0 < sample_rate c)%Z) :
  exists freq psd_db,
    analyze_frequency_spectrum c (map Fin samples) = Ok (freq, psd_db) /\
    length freq = (length samples / 2 + 1)%nat /\
    length psd_db = (length samples / 2 + 1)%nat /\
    (forall k, (k < length samples / 2 + 1)%nat ->
       freq !! k = Some (Fin (bin_frequency (sample_rate c) (length samples) k)) /\
       psd_db !! k = Some (Fin (power_db_spec samples k))) /\
    (forall i j fi fj, (i < j)%nat ->
       freq !! i = Some fi -> freq !! j = Some fj -> xltb fi fj = true).
Proof.
  assert (Hn : (0 < length samples)%nat).
  { destruct samples; simpl; [congruence|lia]. }
  assert (Hsr0 : sample_rate c <> 0%Z) by lia.
  pose proof (analyze_frequency_spectrum_ok c (map Fin samples)) as Ha.
  cbv zeta in Ha. rewrite windowed_is_textbook in Ha.
  rewrite length_map in Ha.
  eexists _, _. split.
  { apply Ha; [|assumption]. destruct samples; [congruence|discriminate]. }
  set (m := (length samples / 2 + 1)%nat).
  assert (Hfreq : forall k, (k < m)%nat ->
            map (fun k0 => Fin (INR k0 * (1 / (INR (length samples)
                                 * (1 / IZR (sample_rate c)))))) (seq 0 m) !! k
            = Some (Fin (bin_frequency (sample_rate c) (length samples) k))).
  { intros k Hk. rewrite lookup_map_seq by assumption.
    now rewrite bin_frequency_code. }
  split; [now rewrite length_map, length_seq|].
  split; [now rewrite !length_map, length_seq|].
  split.
  - intros k Hk. split; [now apply Hfreq|].
    rewrite !map_map. rewrite lookup_map_seq by assumption.
    rewrite rfft_bin_is_dft, power_db_of_bin. reflexivity.
  - intros i j fi fj Hij Hi Hj.
    assert (Hjm : (j < m)%nat).
    { apply lookup_lt_Some in Hj. now rewrite length_map, length_seq in Hj. }
    rewrite Hfreq in Hi by lia. rewrite Hfreq in Hj by assumption.
    injection Hi as <-. injection Hj as <-. simpl.
    apply Rltb_true. now apply bin_frequency_increasing.
Qed.

(** Four samples of one cycle of a unit tone at 4 Hz: the bins are at 0, 1
    and 2 Hz. *)
Lemma C3_spectrum_axes_witness :
  exists freq psd_db,
    analyze_frequency_spectrum (mkConfig 4 1 ["raw"])
      (map Fin [0; 1; 0; -1]%R) = Ok (freq, psd_db) /\
    freq = [Fin 0; Fin 1; Fin 2] /\ length psd_db = 3%nat.
Proof.
  destruct (C3_spectrum_axes (mkConfig 4 1 ["raw"]) [0; 1; 0; -1]%R
              ltac:(discriminate) ltac:(simpl; lia))
    as (freq & psd_db & Ha & Hlf & Hlp & Hbins & _).
  exists freq, psd_db. split; [exact Ha|]. split; [|exact Hlp].
  destruct (Hbins 0%nat ltac:(simpl; lia)) as [H0 _].
  destruct (Hbins 1%nat ltac:(simpl; lia)) as [H1 _].
  destruct (Hbins 2%nat ltac:(simpl; lia)) as [H2 _].
  destruct freq as [|f0 [|f1 [|f2 [|f3 rest]]]]; simpl in Hlf; try discriminate.
  simpl in H0, H1, H2. injection H0 as ->. injection H1 as ->. injection H2 as ->.
  unfold bin_frequency. simpl. f_equal; [f_equal; lra|].
  f_equal; [f_equal; lra|]. f_equal. f_equal. lra.
Defined.

(** ** Well-formed runs *)

Lemma dict_init_lookup {V : Type} (names : list string) (v : V) (name : string) :
  name ∈ names -> dict_init names v !! name = Some v.
Proof.
  unfold dict_init. induction names as [|n names IH]; intros Hin.
  - inversion Hin.
  - cbn [map]. rewrite list_to_map_cons.
    destruct (decide (n = name)) as [->|Hne].
    + apply lookup_insert_eq.
    + rewrite lookup_insert_ne by assumption. apply IH.
      apply elem_of_cons in Hin. destruct Hin; [congruence|assumption].
Qed.

Lemma dict_init_lookup_Some {V : Type} (names : list string) (v x : V)
    (name : string) :
  dict_init names v !! name = Some x -> x = v.
Proof.
  unfold dict_init. induction names as [|n names IH]; cbn [map].
  - rewrite list_to_map_nil, lookup_empty. discriminate.
  - rewrite list_to_map_cons. destruct (decide (n = name)) as [->|Hne].
    + rewrite lookup_insert_eq. congruence.
    + rewrite lookup_insert_ne by assumption. exact IH.
Qed.

Lemma wf_init (c : Config) (start : R) : wf c (init_system c start).
Proof.
  split; [|split].
  - intros name Hin. simpl. rewrite !dict_init_lookup by assumption. eauto.
  - intros rest Hrest. discriminate.
  - intros name q Hq. simpl in Hq. apply dict_init_lookup_Some in Hq. subst q.
    split; [reflexivity|]. split; [|constructor].
    unfold bounded, qsize, queue_maxsize. simpl. lia.
Qed.

Lemma pad_chunk_longer (cb : Z) (raw : list byte) :
  (length raw <= length (pad_chunk cb raw))%nat.
Proof.
  unfold pad_chunk. destruct (_ <? _)%Z; [|lia].
  rewrite length_app. lia.
Qed.

Lemma frame_samples_nonempty (c : Config) (raw : list byte) (audio : list xreal) :
  raw <> [] -> frame_samples c raw = Ok audio -> audio <> [].
Proof.
  intros Hraw. unfold frame_samples.
  destruct (frombuffer_int16 _) as [codes|e] eqn:E; [|discriminate].
  cbn [bind]. intros H. injection H as <-.
  apply frombuffer_int16_length in E.
  pose proof (pad_chunk_longer (chunk_bytes c) raw).
  destruct raw; [congruence|]. simpl in *.
  destruct codes; simpl in *; [lia|discriminate].
Qed.

(** What a capture step that continues has done to the queue. *)
Lemma capture_chunk_Some (c : Config) (q q' : FrameQueue)
    (raw : list byte) (now : R) :
  maxsize q = queue_maxsize -> bounded q ->
  capture_chunk c q raw now = Ok (Some q') ->
  exists audio front,
    raw <> [] /\ frame_samples c raw = Ok audio /\ audio <> [] /\
    maxsize q' = queue_maxsize /\ bounded q' /\
    items q' = front ++ [(now, audio)] /\
    (front = items q \/ front = tl (items q)).
Proof.
  intros Hmax Hb. unfold capture_chunk.
  destruct raw as [|b raw]; [discriminate|]. cbn [length Nat.eqb].
  destruct (frame_samples c (b :: raw)) as [audio|e] eqn:E; [|discriminate].
  cbn [bind].
  destruct (enqueue_last q (now, audio)) as (q1 & Hq1 & Hm1 & Hb1 & front & Hit & Hfr);
    [rewrite Hmax; reflexivity|assumption|].
  rewrite Hq1. cbn [bind]. intros H. injection H as <-.
  exists audio, front. split; [discriminate|]. split; [reflexivity|].
  split; [eapply frame_samples_nonempty; [|exact E]; discriminate|].
  split; [congruence|]. auto.
Qed.

(** A capture step leaves everything but its own thread state and its own
    queue alone; in particular it never writes the results. *)
Lemma worker_step_frame (c : Config) (s : System) (name : string)
    (raw : list byte) (now : R) :
  running (worker_step c s name raw now) = running s /\
  coord (worker_step c s name raw now) = coord s /\
  results (worker_step c s name raw now) = results s /\
  analysis_count (worker_step c s name raw now) = analysis_count s /\
  start_time (worker_step c s name raw now) = start_time s /\
  forall b, b <> name ->
    workers (worker_step c s name raw now) !! b = workers s !! b /\
    audio_queues (worker_step c s name raw now) !! b = audio_queues s !! b.
Proof.
  unfold worker_step.
  destruct (workers s !! name) as [[| |]|]; cbn.
  - repeat split; try reflexivity. now rewrite lookup_insert_ne by congruence.
  - destruct (audio_queues s !! name) as [q|]; cbn.
    + destruct (capture_chunk c q raw now) as [[q'|]|]; cbn;
        repeat split; try reflexivity;
        now rewrite lookup_insert_ne by congruence.
    + repeat split; try reflexivity. now rewrite lookup_insert_ne by congruence.
  - repeat split; reflexivity.
  - repeat split; reflexivity.
Qed.

(** The queue of the stepping thread afterwards: untouched, or one frame
    enqueued. *)
Lemma worker_step_queue (c : Config) (s : System) (name : string)
    (raw : list byte) (now : R) :
  audio_queues (worker_step c s name raw now) !! name = audio_queues s !! name
  \/ exists q q', audio_queues s !! name = Some q /\
                  workers s !! name = Some Reading /\
                  capture_chunk c q raw now = Ok (Some q') /\
                  audio_queues (worker_step c s name raw now) !! name = Some q'.
Proof.
  unfold worker_step.
  destruct (workers s !! name) as [[| |]|] eqn:Hw; cbn; try (now left).
  destruct (audio_queues s !! name) as [q|] eqn:Hq; cbn; [|now left].
  destruct (capture_chunk c q raw now) as [[q'|]|] eqn:Hc; cbn; try (now left).
  right. exists q, q'. rewrite lookup_insert_eq. auto.
Qed.

Lemma worker_step_wf (c : Config) (s : System) (name : string)
    (raw : list byte) (now : R) :
  wf c s -> wf c (worker_step c s name raw now).
Proof.
  intros (Hd & Hp & Hq).
  destruct (worker_step_frame c s name raw now) as (Hr & Hc & Hres & Hcnt & _ & Hoth).
  pose proof (worker_step_queue c s name raw now) as Hown.
  assert (Hq' : queues_ok (worker_step c s name raw now)).
  { intros b q1 Hb. destruct (decide (b = name)) as [->|Hne].
    - destruct Hown as [Heq|(q & q' & Hq0 & _ & Hcap & Hq1)].
      + rewrite Heq in Hb. eauto.
      + rewrite Hq1 in Hb. injection Hb as <-.
        destruct (Hq name q Hq0) as (Hm & Hbd & Hall).
        destruct (capture_chunk_Some c q q' raw now Hm Hbd Hcap)
          as (audio & front & _ & _ & Hne & Hm' & Hb' & Hit & Hfr).
        split; [assumption|]. split; [assumption|].
        rewrite Hit. apply Forall_app. split.
        * destruct Hfr as [->| ->]; [assumption|now apply Forall_tl].
        * constructor; [assumption|constructor].
    - destruct (Hoth b Hne) as [_ Hqb]. rewrite Hqb in Hb. eauto. }
  split; [|split; [|exact Hq']].
  - intros b Hin. destruct (Hd b Hin) as (H1 & H2 & H3).
    rewrite Hres, Hcnt. split; [|auto].
    destruct (decide (b = name)) as [->|Hne].
    + destruct Hown as [Heq|(q & q' & _ & _ & _ & Hq1)].
      * now rewrite Heq.
      * rewrite Hq1. eauto.
    + destruct (Hoth b Hne) as [_ Hqb]. now rewrite Hqb.
  - intros rest Hrest. rewrite Hc in Hrest. auto.
Qed.

(** The state after a frame of [name] has been dequeued and analyzed. *)
Lemma poll_stream_cases (c : Config) (s : System) (name : string) :
  wf c s -> sample_rate c <> 0%Z -> name ∈ streams c ->
  exists q r n,
    audio_queues s !! name = Some q /\ results s !! name = Some r /\
    analysis_count s !! name = Some n /\
    ((items q = [] /\ poll_stream c s name = Ok s)
     \/ exists ts audio rest freq psd_db st,
          items q = (ts, audio) :: rest /\
          analyze_frequency_spectrum c audio = Ok (freq, psd_db) /\
          compute_statistics audio freq psd_db = Ok st /\
          poll_stream c s name =
          Ok (mkSystem (running s)
                (<[name := mkQueue (maxsize q) rest]> (audio_queues s))
                (<[name := record_chunk r ts freq psd_db st]> (results s))
                (<[name := S n]> (analysis_count s))
                (workers s) (coord s) (start_time s))).
Proof.
  intros (Hd & Hp & Hq) Hsr Hin.
  destruct (Hd name Hin) as ([q Hq0] & [r Hr0] & [n Hn0]).
  exists q, r, n. repeat (split; [assumption|]).
  unfold poll_stream, dict_get. rewrite Hq0. cbn [bind].
  unfold get_nowait. destruct (items q) as [|[ts audio] rest] eqn:Hit.
  - left. split; reflexivity.
  - right.
    destruct (Hq name q Hq0) as (_ & _ & Hall). rewrite Hit in Hall.
    apply Forall_cons in Hall. destruct Hall as [Hne _]. simpl in Hne.
    destruct (analyze_then_statistics_ok c audio Hne Hsr)
      as (freq & psd_db & st & Ha & _ & _ & Hst).
    exists ts, audio, rest, freq, psd_db, st.
    split; [reflexivity|]. split; [assumption|]. split; [assumption|].
    rewrite Ha. cbn [bind fst snd]. rewrite Hst. cbn [bind].
    rewrite Hr0, Hn0. reflexivity.
Qed.

Lemma poll_stream_wf (c : Config) (s : System) (name : string) :
  wf c s -> sample_rate c <> 0%Z -> name ∈ streams c ->
  exists s', poll_stream c s name = Ok s' /\ wf c s' /\
             running s' = running s /\ coord s' = coord s /\
             workers s' = workers s /\ start_time s' = start_time s /\
             forall b, b <> name ->
               audio_queues s' !! b = audio_queues s !! b /\
               results s' !! b = results s !! b /\
               analysis_count s' !! b = analysis_count s !! b.
Proof.
  intros Hwf Hsr Hin.
  destruct (poll_stream_cases c s name Hwf Hsr Hin)
    as (q & r & n & Hq0 & Hr0 & Hn0 & [[_ Hp]|Hp]).
  - exists s. split; [exact Hp|]. split; [exact Hwf|]. repeat split; reflexivity.
  - destruct Hp as (ts & audio & rest & freq & psd_db & st & Hit & _ & _ & Hp).
    eexists. split; [exact Hp|]. cbn.
    destruct Hwf as (Hd & Hpo & Hq).
    split; [|repeat split; try reflexivity;
             now rewrite lookup_insert_ne by congruence].
    split; [|split].
    + intros b Hb. cbn. destruct (Hd b Hb) as (H1 & H2 & H3).
      destruct (decide (name = b)) as [->|Hne].
      * rewrite !lookup_insert_eq. eauto.
      * rewrite !lookup_insert_ne by assumption. auto.
    + intros rest' Hrest. cbn in Hrest. auto.
    + intros b q1 Hb. cbn in Hb.
      destruct (decide (name = b)) as [->|Hne].
      * rewrite lookup_insert_eq in Hb. injection Hb as <-.
        destruct (Hq b q Hq0) as (Hm & Hbd & Hall). cbn.
        split; [assumption|]. rewrite Hit in Hall.
        apply Forall_cons in Hall. split; [|tauto].
        unfold bounded, qsize in *. rewrite Hit in Hbd. cbn in *. lia.
      * rewrite lookup_insert_ne in Hb by assumption. eauto.
Qed.

(** No step of a well-formed run raises, and the state stays well-formed. *)
Lemma step_total (c : Config) (duration : R) (s : System) (e : event) :
  wf c s -> sample_rate c <> 0%Z ->
  exists s', step c duration s e = Ok s' /\ wf c s'.
Proof.
  intros Hwf Hsr. destruct e as [name raw now|now]; cbn [step].
  - eexists. split; [reflexivity|]. now apply worker_step_wf.
  - unfold coord_step. destruct (coord s) as [|[|name rest]|] eqn:Hc.
    + destruct (Rltb (now - start_time s) duration); eexists;
        (split; [reflexivity|]); destruct Hwf as (Hd & Hp & Hq);
        (split; [exact Hd|split; [|exact Hq]]); intros r Hr; cbn in Hr.
      * injection Hr as <-. apply Forall_forall. auto.
      * discriminate.
    + eexists. split; [reflexivity|]. destruct Hwf as (Hd & Hp & Hq).
      split; [exact Hd|split; [|exact Hq]]. intros r Hr. discriminate.
    + assert (Hin : name ∈ streams c).
      { destruct Hwf as (_ & Hp & _). specialize (Hp _ Hc).
        apply Forall_cons in Hp. tauto. }
      assert (Hrest : Forall (fun n => n ∈ streams c) rest).
      { destruct Hwf as (_ & Hp & _). specialize (Hp _ Hc).
        apply Forall_cons in Hp. tauto. }
      destruct (poll_stream_wf c s name Hwf Hsr Hin)
        as (s' & Hs' & (Hd & Hp & Hq) & _).
      exists (set_coord s' (Polling rest)). rewrite Hs'. cbn [bind].
      split; [reflexivity|].
      split; [exact Hd|split; [|exact Hq]]. intros r Hr. cbn in Hr.
      now injection Hr as <-.
    + exists s. split; [reflexivity|assumption].
Qed.

Lemma run_total (c : Config) (duration : R) (tr : list event) (s : System) :
  wf c s -> sample_rate c <> 0%Z ->
  exists s', run c duration s tr = Ok s' /\ wf c s'.
Proof.
  intros Hwf Hsr. revert s Hwf.
  induction tr as [|e tr IH]; intros s Hwf; cbn [run].
  - eauto.
  - destruct (step_total c duration s e Hwf Hsr) as (s1 & Hs1 & Hwf1).
    rewrite Hs1. cbn [bind]. now apply IH.
Qed.

(** ** Histories *)

Lemma sublist_Forall_keep {A : Type} (P : A -> Prop) (l1 l2 : list A) :
  sublist l1 l2 -> Forall P l2 -> Forall P l1.
Proof.
  induction 1 as [|x l1 l2 _ IH|x l1 l2 _ IH]; intros Hall.
  - constructor.
  - apply Forall_cons in Hall. destruct Hall. constructor; auto.
  - apply Forall_cons in Hall. destruct Hall. auto.
Qed.

Lemma StronglySorted_sublist {A : Type} (Rel : A -> A -> Prop) (l1 l2 : list A) :
  sublist l1 l2 -> StronglySorted Rel l2 -> StronglySorted Rel l1.
Proof.
  induction 1 as [|x l1 l2 Hsub IH|x l1 l2 Hsub IH]; intros Hs.
  - constructor.
  - inversion Hs as [|? ? Hs' Hall]; subst. constructor; [auto|].
    eapply sublist_Forall_keep; eauto.
  - inversion Hs; subst. auto.
Qed.

Lemma Sorted_Rle_sublist (l1 l2 : list R) :
  sublist l1 l2 -> Sorted Rle l2 -> Sorted Rle l1.
Proof.
  intros Hsub Hs. apply StronglySorted_Sorted.
  eapply StronglySorted_sublist; [exact Hsub|].
  apply Sorted_StronglySorted; [exact Rle_Transitive|exact Hs].
Qed.

Lemma history_ok_step (c : Config) (duration : R) (s s' : System) (e : event) :
  wf c s -> sample_rate c <> 0%Z -> history_ok s ->
  step c duration s e = Ok s' -> history_ok s'.
Proof.
  intros Hwf Hsr Hh. destruct e as [name raw now|now]; cbn [step].
  - intros H. injection H as <-.
    destruct (worker_step_frame c s name raw now) as (_ & _ & Hres & Hcnt & _).
    intros b r n. rewrite Hres, Hcnt. apply Hh.
  - unfold coord_step. destruct (coord s) as [|[|name rest]|] eqn:Hc.
    + destruct (Rltb _ _); intros H; injection H as <-; exact Hh.
    + intros H; injection H as <-; exact Hh.
    + assert (Hin : name ∈ streams c).
      { destruct Hwf as (_ & Hp & _). specialize (Hp _ Hc).
        apply Forall_cons in Hp. tauto. }
      destruct (poll_stream_cases c s name Hwf Hsr Hin)
        as (q & r & n & Hq0 & Hr0 & Hn0 & [[_ Hp]|Hp]).
      * rewrite Hp. cbn [bind]. intros H; injection H as <-. exact Hh.
      * destruct Hp as (ts & audio & rest' & freq & psd_db & st & _ & _ & _ & Hp).
        rewrite Hp. cbn [bind]. intros H; injection H as <-.
        intros b r1 n1. cbn.
        destruct (decide (name = b)) as [->|Hne].
        -- rewrite !lookup_insert_eq. intros Hr1 Hn1.
           injection Hr1 as <-. injection Hn1 as <-. cbn.
           destruct (Hh b r n Hr0 Hn0) as (H1 & H2 & H3 & H4).
           rewrite !length_app. cbn. lia.
        -- rewrite !lookup_insert_ne by assumption. apply Hh.
    + intros H; injection H as <-; exact Hh.
Qed.

Lemma count_step (c : Config) (duration : R) (s s' : System) (e : event)
    (name : string) (n0 : nat) :
  wf c s -> sample_rate c <> 0%Z -> name ∈ streams c ->
  analysis_count s !! name = Some n0 ->
  step c duration s e = Ok s' ->
  analysis_count s' !! name
  = Some (n0 + (if polls_frame s e name then 1 else 0))%nat.
Proof.
  intros Hwf Hsr Hin Hn0. destruct e as [n raw now|now]; cbn [step].
  - intros H. injection H as <-.
    destruct (worker_step_frame c s n raw now) as (_ & _ & _ & Hcnt & _).
    rewrite Hcnt, Hn0. cbn. f_equal. lia.
  - unfold coord_step, polls_frame.
    destruct (coord s) as [|[|n rest]|] eqn:Hc.
    + destruct (Rltb _ _); intros H; injection H as <-; cbn;
        rewrite Hn0; f_equal; lia.
    + intros H; injection H as <-; cbn. rewrite Hn0; f_equal; lia.
    + assert (Hn : n ∈ streams c).
      { destruct Hwf as (_ & Hp & _). specialize (Hp _ Hc).
        apply Forall_cons in Hp. tauto. }
      destruct (poll_stream_cases c s n Hwf Hsr Hn)
        as (q & r & m & Hq0 & Hr0 & Hm0 & [[Hit Hp]|Hp]).
      * rewrite Hp. cbn [bind]. intros H; injection H as <-. cbn.
        rewrite Hn0. destruct (decide (n = name)) as [->|Hne].
        -- rewrite Hq0, Hit. f_equal. lia.
        -- f_equal. lia.
      * destruct Hp as (ts & audio & rest' & freq & psd_db & st & Hit & _ & _ & Hp).
        rewrite Hp. cbn [bind]. intros H; injection H as <-. cbn.
        destruct (decide (n = name)) as [->|Hne].
        -- rewrite lookup_insert_eq, Hq0, Hit.
           rewrite Hn0 in Hm0. injection Hm0 as <-. f_equal. lia.
        -- rewrite lookup_insert_ne by assumption. rewrite Hn0. f_equal. lia.
    + intros H; injection H as <-. rewrite Hn0. f_equal. lia.
Qed.

Lemma count_run (c : Config) (duration : R) (tr : list event) (s s' : System)
    (name : string) (n0 : nat) :
  wf c s -> sample_rate c <> 0%Z -> name ∈ streams c ->
  analysis_count s !! name = Some n0 ->
  run c duration s tr = Ok s' ->
  analysis_count s' !! name
  = Some (n0 + frames_dequeued c duration s tr name)%nat.
Proof.
  intros Hwf Hsr Hin. revert s n0 Hwf.
  induction tr as [|e tr IH]; intros s n0 Hwf Hn0; cbn [run frames_dequeued].
  - intros H. injection H as <-. rewrite Hn0. f_equal. lia.
  - destruct (step_total c duration s e Hwf Hsr) as (s1 & Hs1 & Hwf1).
    rewrite Hs1. cbn [bind]. intros Hrun.
    pose proof (count_step c duration s s1 e name n0 Hwf Hsr Hin Hn0 Hs1) as H1.
    rewrite (IH s1 _ Hwf1 H1 Hrun). f_equal. lia.
Qed.

Lemma clock_readings_snoc (name : string) (pre : list event) (e : event) :
  clock_readings name (pre ++ [e]) =
  clock_readings name pre ++
  match e with
  | EvWorker n _ now => if decide (n = name) then [now] else []
  | EvCoord _ => []
  end.
Proof.
  unfold clock_readings. rewrite omap_app. f_equal.
  destruct e as [n raw now|now]; cbn; [|reflexivity].
  now destruct (decide (n = name)).
Qed.

Lemma sublist_tl {A : Type} (l : list A) : sublist (tl l) l.
Proof. destruct l; cbn; [constructor|]. now apply sublist_cons. Qed.

Lemma stamps_step (c : Config) (duration : R) (name : string)
    (pre : list event) (s s' : System) (e : event) :
  wf c s -> sample_rate c <> 0%Z -> stamps_ok name pre s ->
  step c duration s e = Ok s' -> stamps_ok name (pre ++ [e]) s'.
Proof.
  intros Hwf Hsr Hst. unfold stamps_ok. rewrite clock_readings_snoc.
  destruct e as [n raw now|now]; cbn [step].
  - intros H. injection H as <-.
    destruct (worker_step_frame c s n raw now) as (_ & _ & Hres & _ & _ & Hoth).
    rewrite Hres. intros r q Hr Hq.
    destruct (decide (n = name)) as [->|Hne].
    + destruct (worker_step_queue c s name raw now)
        as [Heq|(q0 & q' & Hq0 & _ & Hcap & Hq1)].
      * rewrite Heq in Hq. apply sublist_inserts_r. now apply Hst.
      * rewrite Hq1 in Hq. injection Hq as <-.
        destruct Hwf as (_ & _ & Hqs).
        destruct (Hqs name q0 Hq0) as (Hm & Hb & _).
        destruct (capture_chunk_Some c q0 q' raw now Hm Hb Hcap)
          as (audio & front & _ & _ & _ & _ & _ & Hit & Hfr).
        rewrite Hit, map_app, app_assoc. cbn [map fst].
        apply sublist_app; [|reflexivity].
        etrans; [|apply (Hst r q0 Hr Hq0)].
        apply sublist_app; [reflexivity|].
        destruct Hfr as [->| ->]; [reflexivity|].
        destruct (items q0); cbn; [constructor|]. now apply sublist_cons.
    + destruct (Hoth name) as [_ Hqn]; [congruence|].
      rewrite Hqn in Hq. rewrite app_nil_r. now apply Hst.
  - rewrite app_nil_r. unfold coord_step.
    destruct (coord s) as [|[|n rest]|] eqn:Hc.
    + destruct (Rltb _ _); intros H; injection H as <-; exact Hst.
    + intros H; injection H as <-; exact Hst.
    + assert (Hn : n ∈ streams c).
      { destruct Hwf as (_ & Hp & _). specialize (Hp _ Hc).
        apply Forall_cons in Hp. tauto. }
      destruct (poll_stream_cases c s n Hwf Hsr Hn)
        as (q & r & m & Hq0 & Hr0 & Hm0 & [[Hit Hp]|Hp]).
      * rewrite Hp. cbn [bind]. intros H; injection H as <-. exact Hst.
      * destruct Hp as (ts & audio & rest' & freq & psd_db & st & Hit & _ & _ & Hp).
        rewrite Hp. cbn [bind]. intros H; injection H as <-. cbn.
        intros r1 q1. destruct (decide (n = name)) as [->|Hne].
        -- rewrite !lookup_insert_eq. intros Hr1 Hq1.
           injection Hr1 as <-. injection Hq1 as <-. cbn.
           specialize (Hst r q Hr0 Hq0). rewrite Hit in Hst. cbn in Hst.
           now rewrite <- app_assoc.
        -- rewrite !lookup_insert_ne by assumption. apply Hst.
    + intros H; injection H as <-; exact Hst.
Qed.

Lemma stamps_run (c : Config) (duration : R) (name : string)
    (tr pre : list event) (s s' : System) :
  wf c s -> sample_rate c <> 0%Z -> stamps_ok name pre s ->
  run c duration s tr = Ok s' -> stamps_ok name (pre ++ tr) s'.
Proof.
  intros Hwf Hsr. revert pre s Hwf.
  induction tr as [|e tr IH]; intros pre s Hwf Hst; cbn [run].
  - intros H. injection H as <-. now rewrite app_nil_r.
  - destruct (step_total c duration s e Hwf Hsr) as (s1 & Hs1 & Hwf1).
    rewrite Hs1. cbn [bind]. intros Hrun.
    replace (pre ++ e :: tr) with ((pre ++ [e]) ++ tr)
      by (now rewrite <- app_assoc).
    eapply IH; [exact Hwf1| |exact Hrun].
    exact (stamps_step c duration name pre s s1 e Hwf Hsr Hst Hs1).
Qed.

Lemma history_ok_run (c : Config) (duration : R) (tr : list event)
    (s s' : System) :
  wf c s -> sample_rate c <> 0%Z -> history_ok s ->
  run c duration s tr = Ok s' -> history_ok s'.
Proof.
  intros Hwf Hsr. revert s Hwf.
  induction tr as [|e tr IH]; intros s Hwf Hh; cbn [run].
  - intros H. now injection H as <-.
  - destruct (step_total c duration s e Hwf Hsr) as (s1 & Hs1 & Hwf1).
    rewrite Hs1. cbn [bind]. apply IH; [assumption|].
    exact (history_ok_step c duration s s1 e Hwf Hsr Hh Hs1).
Qed.

(** C9. Along any schedule from the start of a run, the run returns; the
    history of a stream (all four lists, and the counter) has as many
    entries as frames of that stream were dequeued and analyzed; its
    timestamps are non-decreasing when the clock readings of the stream's
    capture thread are; and a capture step never writes the results. *)
Theorem C9_history_length_and_order (c : Config) (duration start : R)
    (tr : list event) (name : string)
    (Hsr : sample_rate c <> 0%Z) (Hin : name ∈ streams c) :
  (exists s' r,
     run c duration (init_system c start) tr = Ok s' /\
     results s' !! name = Some r /\
     length (timestamp_history r)
       = frames_dequeued c duration (init_system c start) tr name /\
     length (snr_history r) = length (timestamp_history r) /\
     length (bird_power_history r) = length (timestamp_history r) /\
     length (low_power_history r) = length (timestamp_history r) /\
     analysis_count s' !! name = Some (length (timestamp_history r)) /\
     sublist (timestamp_history r) (clock_readings name tr) /\
     (Sorted Rle (clock_readings name tr) -> Sorted Rle (timestamp_history r))) /\
  (forall s n raw now, results (worker_step c s n raw now) = results s).
Proof.
  split.
  2:{ intros s n raw now.
      now destruct (worker_step_frame c s n raw now) as (_ & _ & Hres & _). }
  pose proof (wf_init c start) as Hwf.
  destruct (run_total c duration tr _ Hwf Hsr) as (s' & Hrun & Hwf').
  destruct Hwf' as (Hd' & _).
  destruct (Hd' name Hin) as ([q Hq] & [r Hr] & [n Hn]).
  exists s', r. split; [exact Hrun|]. split; [exact Hr|].
  assert (Hcount : analysis_count s' !! name
                   = Some (0 + frames_dequeued c duration (init_system c start) tr name)%nat).
  { eapply count_run; eauto. cbn. now apply dict_init_lookup. }
  assert (Hh : history_ok s').
  { eapply history_ok_run; eauto.
    intros b r0 n0 Hr0 Hn0. cbn in Hr0, Hn0.
    apply dict_init_lookup_Some in Hr0, Hn0. subst. cbn. auto. }
  destruct (Hh name r n Hr Hn) as (H1 & H2 & H3 & H4).
  rewrite Hn in Hcount. injection Hcount as Hcount. cbn in Hcount.
  assert (Hsub : sublist (timestamp_history r) (clock_readings name tr)).
  { assert (Hst : stamps_ok name ([] ++ tr) s').
    { eapply stamps_run; eauto.
      intros r0 q0 Hr0 Hq0. cbn in Hr0, Hq0.
      apply dict_init_lookup_Some in Hr0, Hq0. subst. cbn. constructor. }
    cbn in Hst. specialize (Hst r q Hr Hq).
    apply sublist_app_l in Hst. destruct Hst as (k1 & k2 & -> & Hk1 & _).
    now apply sublist_inserts_r. }
  do 5 (split; [congruence|]).
  split; [exact Hsub|].
  intros Hs. eapply Sorted_Rle_sublist; eauto.
Qed.

Lemma C9_history_length_and_order_witness :
  exists s' r,
    run (mkConfig 4 1 ["raw"]) 10 (init_system (mkConfig 4 1 ["raw"]) 0)
      [EvWorker "raw" [] 0; EvWorker "raw" [Byte.x01] 1; EvCoord 2; EvCoord 3]
      = Ok s' /\
    results s' !! "raw" = Some r /\
    length (timestamp_history r)
      = frames_dequeued (mkConfig 4 1 ["raw"]) 10
          (init_system (mkConfig 4 1 ["raw"]) 0)
          [EvWorker "raw" [] 0; EvWorker "raw" [Byte.x01] 1; EvCoord 2; EvCoord 3]
          "raw" /\
    analysis_count s' !! "raw" = Some (length (timestamp_history r)) /\
    Sorted Rle (timestamp_history r).
Proof.
  destruct (C9_history_length_and_order (mkConfig 4 1 ["raw"]) 10 0
              [EvWorker "raw" [] 0; EvWorker "raw" [Byte.x01] 1;
               EvCoord 2; EvCoord 3]
              "raw" ltac:(discriminate) ltac:(apply list_elem_of_here))
    as ((s' & r & Hrun & Hr & Hlen & _ & _ & _ & Hcnt & _ & Hsorted) & _).
  exists s', r. repeat (split; [assumption|]).
  apply Hsorted.
  change (Sorted Rle [0%R; 1%R]).
  repeat constructor. lra.
Defined.

(** ** One stream does not disturb another *)

(** What a capture step does to its own thread state and queue depends on
    the [running] flag and on these two only. *)
Lemma worker_step_at (c : Config) (s1 s2 : System) (n : string)
    (raw : list byte) (now : R) :
  running s1 = running s2 ->
  workers s1 !! n = workers s2 !! n ->
  audio_queues s1 !! n = audio_queues s2 !! n ->
  workers (worker_step c s1 n raw now) !! n
  = workers (worker_step c s2 n raw now) !! n /\
  audio_queues (worker_step c s1 n raw now) !! n
  = audio_queues (worker_step c s2 n raw now) !! n.
Proof.
  intros Hr Hw Hq. unfold worker_step. rewrite <- Hw, <- Hq, <- Hr.
  destruct (workers s1 !! n) as [[| |]|] eqn:E1.
  - cbn. rewrite !lookup_insert_eq. split; congruence.
  - destruct (audio_queues s1 !! n) as [q|] eqn:E2.
    + destruct (capture_chunk c q raw now) as [[q'|]|];
        cbn; rewrite !lookup_insert_eq; split; congruence.
    + cbn. rewrite !lookup_insert_eq. split; congruence.
  - split; congruence.
  - split; congruence.
Qed.

Lemma same_elsewhere_step (c : Config) (duration : R) (a : string)
    (s1 s2 s1' s2' : System) (e : event) :
  wf c s1 -> wf c s2 -> sample_rate c <> 0%Z ->
  same_elsewhere a s1 s2 ->
  step c duration s1 e = Ok s1' -> step c duration s2 e = Ok s2' ->
  same_elsewhere a s1' s2'.
Proof.
  intros Hwf1 Hwf2 Hsr (Hrun & Hco & Hst & Hoth).
  destruct e as [n raw now|now]; cbn [step].
  - intros H1 H2. injection H1 as <-. injection H2 as <-.
    destruct (worker_step_frame c s1 n raw now) as (R1 & C1 & Re1 & Cn1 & S1 & O1).
    destruct (worker_step_frame c s2 n raw now) as (R2 & C2 & Re2 & Cn2 & S2 & O2).
    split; [congruence|]. split; [congruence|]. split; [congruence|].
    intros b Hb. destruct (Hoth b Hb) as (Hw & Hq & Hr & Hc).
    rewrite Re1, Re2, Cn1, Cn2. split; [|split; [|auto]].
    + destruct (decide (b = n)) as [->|Hne].
      * now apply worker_step_at.
      * destruct (O1 b Hne) as [-> _]. destruct (O2 b Hne) as [-> _]. exact Hw.
    + destruct (decide (b = n)) as [->|Hne].
      * now apply worker_step_at.
      * destruct (O1 b Hne) as [_ ->]. destruct (O2 b Hne) as [_ ->]. exact Hq.
  - unfold coord_step. rewrite <- Hco, <- Hst.
    destruct (coord s1) as [|[|n rest]|] eqn:Hc1.
    + destruct (Rltb _ _); intros H1 H2; injection H1 as <-; injection H2 as <-;
        cbn; (split; [first [exact Hrun|reflexivity]
                     |split; [reflexivity|split; [exact Hst|exact Hoth]]]).
    + intros H1 H2; injection H1 as <-; injection H2 as <-. cbn.
      split; [exact Hrun|split; [reflexivity|split; [exact Hst|exact Hoth]]].
    + assert (Hn : n ∈ streams c).
      { destruct Hwf1 as (_ & Hp & _). specialize (Hp _ Hc1).
        apply Forall_cons in Hp. tauto. }
      destruct (poll_stream_wf c s1 n Hwf1 Hsr Hn)
        as (t1 & Hp1 & _ & R1 & _ & W1 & S1 & O1).
      destruct (poll_stream_wf c s2 n Hwf2 Hsr Hn)
        as (t2 & Hp2 & _ & R2 & _ & W2 & S2 & O2).
      rewrite Hp1, Hp2. cbn [bind].
      intros H1 H2; injection H1 as <-; injection H2 as <-.
      unfold same_elsewhere. cbn.
      split; [congruence|]. split; [reflexivity|]. split; [congruence|].
      intros b Hb. destruct (Hoth b Hb) as (Hw & Hq & Hr & Hc).
      rewrite W1, W2. split; [exact Hw|].
      destruct (decide (b = n)) as [->|Hne].
      * destruct (poll_stream_cases c s1 n Hwf1 Hsr Hn)
          as (q1 & r1 & m1 & Hq1 & Hr1 & Hm1 & Hcase1).
        destruct (poll_stream_cases c s2 n Hwf2 Hsr Hn)
          as (q2 & r2 & m2 & Hq2 & Hr2 & Hm2 & Hcase2).
        assert (q1 = q2) by congruence. assert (r1 = r2) by congruence.
        assert (m1 = m2) by congruence. subst q2 r2 m2.
        destruct Hcase1 as [[Hit1 Hs1]|Hs1], Hcase2 as [[Hit2 Hs2]|Hs2].
        -- rewrite Hp1 in Hs1. rewrite Hp2 in Hs2.
           injection Hs1 as ->. injection Hs2 as ->. auto.
        -- destruct Hs2 as (? & ? & ? & ? & ? & ? & Hit2 & _). congruence.
        -- destruct Hs1 as (? & ? & ? & ? & ? & ? & Hit1 & _). congruence.
        -- destruct Hs1 as (ts & au & re & fr & ps & st & Hit1 & Ha1 & Hst1 & Hs1).
           destruct Hs2 as (ts' & au' & re' & fr' & ps' & st' & Hit2 & Ha2 & Hst2 & Hs2).
           rewrite Hit1 in Hit2. injection Hit2 as <- <- <-.
           rewrite Ha1 in Ha2. injection Ha2 as <- <-.
           rewrite Hst1 in Hst2. injection Hst2 as <-.
           rewrite Hp1 in Hs1. rewrite Hp2 in Hs2.
           injection Hs1 as ->. injection Hs2 as ->. cbn.
           rewrite !lookup_insert_eq. auto.
      * destruct (O1 b Hne) as (-> & -> & ->).
        destruct (O2 b Hne) as (-> & -> & ->). auto.
    + intros H1 H2; injection H1 as <-; injection H2 as <-.
      split; [exact Hrun|split; [congruence|split; [exact Hst|exact Hoth]]].
Qed.

Lemma same_elsewhere_run (c : Config) (duration : R) (a : string)
    (tr : list event) (s1 s2 s1' s2' : System) :
  wf c s1 -> wf c s2 -> sample_rate c <> 0%Z ->
  same_elsewhere a s1 s2 ->
  run c duration s1 tr = Ok s1' -> run c duration s2 tr = Ok s2' ->
  same_elsewhere a s1' s2'.
Proof.
  intros Hwf1 Hwf2 Hsr. revert s1 s2 Hwf1 Hwf2.
  induction tr as [|e tr IH]; intros s1 s2 Hwf1 Hwf2 Hsame; cbn [run].
  - intros H1 H2. injection H1 as <-. now injection H2 as <-.
  - destruct (step_total c duration s1 e Hwf1 Hsr) as (t1 & Ht1 & Hw1).
    destruct (step_total c duration s2 e Hwf2 Hsr) as (t2 & Ht2 & Hw2).
    rewrite Ht1, Ht2. cbn [bind].
    apply IH; [assumption|assumption|].
    exact (same_elsewhere_step c duration a s1 s2 t1 t2 e
             Hwf1 Hwf2 Hsr Hsame Ht1 Ht2).
Qed.

Lemma run_app (c : Config) (duration : R) (t1 t2 : list event) (s : System) :
  run c duration s (t1 ++ t2)
  = (let* s' := run c duration s t1 in run c duration s' t2).
Proof.
  revert s. induction t1 as [|e t1 IH]; intros s; cbn [run app bind].
  - reflexivity.
  - destruct (step c duration s e) as [s1|err]; cbn [bind]; [apply IH|reflexivity].
Qed.

(** A zero-byte read ends the reading thread and touches nothing else. *)
Lemma zero_byte_read (c : Config) (s : System) (a : string) (now : R) :
  workers s !! a = Some Reading ->
  worker_step c s a [] now = set_worker s a Exited.
Proof.
  intros Hw. unfold worker_step. rewrite Hw.
  destruct (audio_queues s !! a); reflexivity.
Qed.

(** A finished capture thread stays finished. *)
Lemma exited_step (c : Config) (duration : R) (a : string)
    (s s' : System) (e : event) :
  wf c s -> sample_rate c <> 0%Z ->
  workers s !! a = Some Exited -> step c duration s e = Ok s' ->
  workers s' !! a = Some Exited.
Proof.
  intros Hwf Hsr Ha. destruct e as [n raw now|now]; cbn [step].
  - intros H. injection H as <-.
    destruct (decide (n = a)) as [->|Hne].
    + unfold worker_step. now rewrite Ha.
    + destruct (worker_step_frame c s n raw now) as (_ & _ & _ & _ & _ & Hoth).
      destruct (Hoth a) as [-> _]; [congruence|assumption].
  - unfold coord_step. destruct (coord s) as [|[|n rest]|] eqn:Hc.
    + destruct (Rltb _ _); intros H; injection H as <-; exact Ha.
    + intros H; injection H as <-; exact Ha.
    + assert (Hn : n ∈ streams c).
      { destruct Hwf as (_ & Hp & _). specialize (Hp _ Hc).
        apply Forall_cons in Hp. tauto. }
      destruct (poll_stream_wf c s n Hwf Hsr Hn) as (t & Hp & _ & _ & _ & W & _).
      rewrite Hp. cbn [bind]. intros H; injection H as <-. cbn. now rewrite W.
    + intros H; injection H as <-; exact Ha.
Qed.

Lemma exited_run (c : Config) (duration : R) (a : string)
    (tr : list event) (s s' : System) :
  wf c s -> sample_rate c <> 0%Z ->
  workers s !! a = Some Exited -> run c duration s tr = Ok s' ->
  workers s' !! a = Some Exited.
Proof.
  intros Hwf Hsr. revert s Hwf.
  induction tr as [|e tr IH]; intros s Hwf Ha; cbn [run].
  - intros H. now injection H as <-.
  - destruct (step_total c duration s e Hwf Hsr) as (s1 & Hs1 & Hwf1).
    rewrite Hs1. cbn [bind]. apply IH; [assumption|].
    exact (exited_step c duration a s s1 e Hwf Hsr Ha Hs1).
Qed.

(** The polls of a round always come back: after one coordinator step per
    remaining stream and one more, the coordinator is at its loop test. *)
Lemma polling_to_head (c : Config) (duration now : R) (rest : list string)
    (s : System) :
  wf c s -> sample_rate c <> 0%Z -> coord s = Polling rest ->
  exists s', run c duration s (repeat (EvCoord now) (length rest + 1)) = Ok s' /\
             coord s' = Head /\ start_time s' = start_time s /\ wf c s'.
Proof.
  intros Hwf Hsr. revert s Hwf.
  induction rest as [|n rest IH]; intros s Hwf Hc.
  - cbn [length Nat.add repeat run step]. unfold coord_step. rewrite Hc.
    cbn [bind]. eexists. split; [reflexivity|]. cbn.
    split; [reflexivity|]. split; [reflexivity|].
    destruct Hwf as (Hd & Hp & Hq). split; [exact Hd|split; [|exact Hq]].
    intros r Hr. discriminate.
  - cbn [length Nat.add repeat run].
    destruct (step_total c duration s (EvCoord now) Hwf Hsr) as (s1 & Hs1 & Hwf1).
    rewrite Hs1. cbn [bind].
    assert (Hn : n ∈ streams c).
    { destruct Hwf as (_ & Hp & _). specialize (Hp _ Hc).
      apply Forall_cons in Hp. tauto. }
    destruct (poll_stream_wf c s n Hwf Hsr Hn) as (t & Hp & _ & _ & _ & _ & St & _).
    assert (Hs1' : s1 = set_coord t (Polling rest)).
    { cbn [step] in Hs1. unfold coord_step in Hs1. rewrite Hc, Hp in Hs1.
      cbn [bind] in Hs1. now injection Hs1 as <-. }
    destruct (IH s1 Hwf1) as (s' & Hrun & Hhead & Hst & Hwf').
    { now rewrite Hs1'. }
    exists s'. split; [exact Hrun|]. split; [exact Hhead|].
    split; [|exact Hwf']. rewrite Hst, Hs1'. cbn. exact St.
Qed.

(** Past the deadline the coordinator finishes by its own steps, whatever
    state the capture threads are in. *)
Lemma coord_reaches_done (c : Config) (duration now : R) (s : System) :
  wf c s -> sample_rate c <> 0%Z ->
  (duration <= now - start_time s)%R ->
  exists s', run c duration s (repeat (EvCoord now) (steps_to_done (coord s)))
             = Ok s' /\ coord s' = Done.
Proof.
  intros Hwf Hsr Hlate.
  assert (Hhead : forall t, coord t = Head -> start_time t = start_time s ->
            exists s', run c duration t [EvCoord now] = Ok s' /\ coord s' = Done).
  { intros t Ht Hst. cbn [run step]. unfold coord_step. rewrite Ht.
    rewrite Rltb_false by (rewrite Hst; lra). cbn [bind].
    eexists. split; reflexivity. }
  destruct (coord s) as [|rest|] eqn:Hc; cbn [steps_to_done].
  - cbn [repeat]. now apply Hhead.
  - replace (length rest + 2)%nat with ((length rest + 1) + 1)%nat by lia.
    rewrite repeat_app, run_app.
    destruct (polling_to_head c duration now rest s Hwf Hsr Hc)
      as (s1 & Hrun & Hh & Hst & _).
    rewrite Hrun. cbn [bind repeat]. now apply Hhead.
  - cbn [repeat run]. eauto.
Qed.

(** ** Streams that deliver get a history *)

Lemma app_singleton_nonempty {A : Type} (l : list A) (x : A) : l ++ [x] <> [].
Proof. destruct l; discriminate. Qed.

Lemma has_data_after_read (c : Config) (s : System) (b : string)
    (raw : list byte) (now : R) :
  wf c s -> b ∈ streams c -> workers s !! b = Some Reading ->
  raw <> [] -> (Z.of_nat (length raw) <= chunk_bytes c)%Z ->
  has_data b (worker_step c s b raw now).
Proof.
  intros (Hd & _ & Hq) Hin Hw Hraw Hlen.
  destruct (Hd b Hin) as ([q Hq0] & [r Hr0] & _).
  destruct (Hq b q Hq0) as (Hm & Hb & _).
  destruct (capture_chunk_ok c q raw now) as (q' & front & audio & Hcap & Hit);
    try assumption.
  unfold worker_step. rewrite Hw, Hq0, Hcap. cbn.
  exists q', r. cbn. rewrite lookup_insert_eq. split; [reflexivity|].
  split; [exact Hr0|]. left. rewrite Hit. apply app_singleton_nonempty.
Qed.

Lemma has_data_step (c : Config) (duration : R) (b : string)
    (s s' : System) (e : event) :
  wf c s -> sample_rate c <> 0%Z -> has_data b s ->
  step c duration s e = Ok s' -> has_data b s'.
Proof.
  intros Hwf Hsr (q & r & Hq0 & Hr0 & Hdata).
  destruct e as [n raw now|now]; cbn [step].
  - intros H. injection H as <-.
    destruct (worker_step_frame c s n raw now) as (_ & _ & Hres & _ & _ & Hoth).
    unfold has_data. rewrite Hres.
    destruct (decide (n = b)) as [->|Hne].
    + destruct (worker_step_queue c s b raw now)
        as [Heq|(q1 & q' & Hq1 & _ & Hcap & Hq')].
      * rewrite Heq. eauto.
      * destruct Hwf as (_ & _ & Hqs). destruct (Hqs b q1 Hq1) as (Hm & Hb & _).
        destruct (capture_chunk_Some c q1 q' raw now Hm Hb Hcap)
          as (audio & front & _ & _ & _ & _ & _ & Hit & _).
        exists q', r. split; [exact Hq'|]. split; [exact Hr0|]. left.
        rewrite Hit. apply app_singleton_nonempty.
    + destruct (Hoth b) as [_ ->]; [congruence|]. eauto.
  - unfold coord_step. destruct (coord s) as [|[|n rest]|] eqn:Hc.
    + destruct (Rltb _ _); intros H; injection H as <-; exists q, r; auto.
    + intros H; injection H as <-; exists q, r; auto.
    + assert (Hn : n ∈ streams c).
      { destruct Hwf as (_ & Hp & _). specialize (Hp _ Hc).
        apply Forall_cons in Hp. tauto. }
      destruct (poll_stream_cases c s n Hwf Hsr Hn)
        as (q1 & r1 & m & Hq1 & Hr1 & Hm1 & [[Hit Hp]|Hp]).
      * rewrite Hp. cbn [bind]. intros H; injection H as <-. exists q, r; auto.
      * destruct Hp as (ts & audio & rest' & freq & psd_db & st & Hit & _ & _ & Hp).
        rewrite Hp. cbn [bind]. intros H; injection H as <-.
        unfold has_data. cbn.
        destruct (decide (n = b)) as [->|Hne].
        -- rewrite !lookup_insert_eq. eexists _, _.
           split; [reflexivity|]. split; [reflexivity|]. right. cbn.
           apply app_singleton_nonempty.
        -- rewrite !lookup_insert_ne by assumption. eauto.
    + intros H; injection H as <-; exists q, r; auto.
Qed.

Lemma history_nonempty_step (c : Config) (duration : R) (b : string)
    (s s' : System) (e : event) :
  wf c s -> sample_rate c <> 0%Z -> history_nonempty b s ->
  step c duration s e = Ok s' -> history_nonempty b s'.
Proof.
  intros Hwf Hsr (r & Hr0 & Hne).
  destruct e as [n raw now|now]; cbn [step].
  - intros H. injection H as <-.
    destruct (worker_step_frame c s n raw now) as (_ & _ & Hres & _).
    unfold history_nonempty. rewrite Hres. eauto.
  - unfold coord_step. destruct (coord s) as [|[|n rest]|] eqn:Hc.
    + destruct (Rltb _ _); intros H; injection H as <-; exists r; auto.
    + intros H; injection H as <-; exists r; auto.
    + assert (Hn : n ∈ streams c).
      { destruct Hwf as (_ & Hp & _). specialize (Hp _ Hc).
        apply Forall_cons in Hp. tauto. }
      destruct (poll_stream_cases c s n Hwf Hsr Hn)
        as (q1 & r1 & m & Hq1 & Hr1 & Hm1 & [[Hit Hp]|Hp]).
      * rewrite Hp. cbn [bind]. intros H; injection H as <-. exists r; auto.
      * destruct Hp as (ts & audio & rest' & freq & psd_db & st & Hit & _ & _ & Hp).
        rewrite Hp. cbn [bind]. intros H; injection H as <-.
        unfold history_nonempty. cbn.
        destruct (decide (n = b)) as [->|Hneq].
        -- rewrite lookup_insert_eq. eexists. split; [reflexivity|]. cbn.
           apply app_singleton_nonempty.
        -- rewrite lookup_insert_ne by assumption. eauto.
    + intros H; injection H as <-; exists r; auto.
Qed.

(** Polling a stream that has delivered leaves its history nonempty. *)
Lemma poll_gives_history (c : Config) (duration now : R) (b : string)
    (rest : list string) (s s' : System) :
  wf c s -> sample_rate c <> 0%Z -> has_data b s ->
  coord s = Polling (b :: rest) ->
  step c duration s (EvCoord now) = Ok s' -> history_nonempty b s'.
Proof.
  intros Hwf Hsr (q & r & Hq0 & Hr0 & Hdata) Hc. cbn [step].
  unfold coord_step. rewrite Hc.
  assert (Hn : b ∈ streams c).
  { destruct Hwf as (_ & Hp & _). specialize (Hp _ Hc).
    apply Forall_cons in Hp. tauto. }
  destruct (poll_stream_cases c s b Hwf Hsr Hn)
    as (q1 & r1 & m & Hq1 & Hr1 & Hm1 & [[Hit Hp]|Hp]).
  - rewrite Hp. cbn [bind]. intros H; injection H as <-.
    assert (q1 = q) by congruence. subst q1.
    exists r. split; [exact Hr0|]. destruct Hdata; [congruence|assumption].
  - destruct Hp as (ts & audio & rest' & freq & psd_db & st & Hit & _ & _ & Hp).
    rewrite Hp. cbn [bind]. intros H; injection H as <-.
    unfold history_nonempty. cbn. rewrite lookup_insert_eq.
    eexists. split; [reflexivity|]. cbn. apply app_singleton_nonempty.
Qed.

Lemma has_data_run (c : Config) (duration : R) (b : string)
    (tr : list event) (s s' : System) :
  wf c s -> sample_rate c <> 0%Z -> has_data b s ->
  run c duration s tr = Ok s' -> has_data b s'.
Proof.
  intros Hwf Hsr. revert s Hwf.
  induction tr as [|e tr IH]; intros s Hwf Hd; cbn [run].
  - intros H. now injection H as <-.
  - destruct (step_total c duration s e Hwf Hsr) as (s1 & Hs1 & Hwf1).
    rewrite Hs1. cbn [bind]. apply IH; [assumption|].
    exact (has_data_step c duration b s s1 e Hwf Hsr Hd Hs1).
Qed.

Lemma history_nonempty_run (c : Config) (duration : R) (b : string)
    (tr : list event) (s s' : System) :
  wf c s -> sample_rate c <> 0%Z -> history_nonempty b s ->
  run c duration s tr = Ok s' -> history_nonempty b s'.
Proof.
  intros Hwf Hsr. revert s Hwf.
  induction tr as [|e tr IH]; intros s Hwf Hd; cbn [run].
  - intros H. now injection H as <-.
  - destruct (step_total c duration s e Hwf Hsr) as (s1 & Hs1 & Hwf1).
    rewrite Hs1. cbn [bind]. apply IH; [assumption|].
    exact (history_nonempty_step c duration b s s1 e Hwf Hsr Hd Hs1).
Qed.

Lemma run_wf (c : Config) (duration : R) (tr : list event) (s s' : System) :
  wf c s -> sample_rate c <> 0%Z -> run c duration s tr = Ok s' -> wf c s'.
Proof.
  intros Hwf Hsr Hrun.
  destruct (run_total c duration tr s Hwf Hsr) as (s1 & Hs1 & Hwf1).
  congruence.
Qed.

(** C5. When the read of the capture thread of stream [a] returns zero
    bytes, that thread ends and nothing else changes: the [running] flag,
    the coordinator, every queue, every history and every other thread are
    as before.  Whatever happens next, the run does not raise and the ended
    thread stays ended; every other stream evolves exactly as it would have
    had [a] kept going; once the clock is past the deadline the coordinator
    finishes by its own steps alone, keeping the histories; and every other
    stream that delivers a frame and is polled has a nonempty history. *)
Theorem C5_zero_byte_read_is_local (c : Config) (duration : R) (s : System)
    (a : string) (now : R)
    (Hwf : wf c s) (Hsr : sample_rate c <> 0%Z)
    (Hreading : workers s !! a = Some Reading) :
  exists s0,
    step c duration s (EvWorker a [] now) = Ok s0 /\
    workers s0 !! a = Some Exited /\
    (forall b, b <> a -> workers s0 !! b = workers s !! b) /\
    running s0 = running s /\ coord s0 = coord s /\
    audio_queues s0 = audio_queues s /\ results s0 = results s /\
    analysis_count s0 = analysis_count s /\
    (forall tr, exists s',
        run c duration s0 tr = Ok s' /\ workers s' !! a = Some Exited) /\
    (forall tr s1 s2,
        run c duration s tr = Ok s1 -> run c duration s0 tr = Ok s2 ->
        same_elsewhere a s1 s2) /\
    (forall tr s' late,
        run c duration s0 tr = Ok s' ->
        (duration <= late - start_time s')%R ->
        exists s'',
          run c duration s' (repeat (EvCoord late) (steps_to_done (coord s')))
            = Ok s'' /\
          coord s'' = Done /\
          forall b, history_nonempty b s' -> history_nonempty b s'') /\
    (forall b tr1 sA raw t tr2 sC rest t2 tr3 s',
        b <> a -> b ∈ streams c ->
        run c duration s0 tr1 = Ok sA -> workers sA !! b = Some Reading ->
        raw <> [] -> (Z.of_nat (length raw) <= chunk_bytes c)%Z ->
        run c duration sA (EvWorker b raw t :: tr2) = Ok sC ->
        coord sC = Polling (b :: rest) ->
        run c duration sC (EvCoord t2 :: tr3) = Ok s' ->
        history_nonempty b s').
Proof.
  exists (set_worker s a Exited).
  assert (Hwf0 : wf c (set_worker s a Exited)).
  { rewrite <- (zero_byte_read c s a now Hreading). now apply worker_step_wf. }
  assert (Hex : workers (set_worker s a Exited) !! a = Some Exited).
  { cbn. apply lookup_insert_eq. }
  split; [cbn [step]; now rewrite zero_byte_read|].
  split; [exact Hex|].
  split; [intros b Hb; cbn; now rewrite lookup_insert_ne by congruence|].
  do 5 (split; [reflexivity|]).
  split; [|split; [|split]].
  - intros tr. destruct (run_total c duration tr _ Hwf0 Hsr) as (s' & Hrun & _).
    exists s'. split; [exact Hrun|].
    exact (exited_run c duration a tr _ s' Hwf0 Hsr Hex Hrun).
  - intros tr s1 s2 H1 H2.
    apply (same_elsewhere_run c duration a tr s (set_worker s a Exited));
      try assumption.
    split; [reflexivity|]. split; [reflexivity|]. split; [reflexivity|].
    intros b Hb. cbn. rewrite lookup_insert_ne by congruence. auto.
  - intros tr s' late Hrun Hlate.
    pose proof (run_wf c duration tr _ s' Hwf0 Hsr Hrun) as Hwf'.
    destruct (coord_reaches_done c duration late s' Hwf' Hsr Hlate)
      as (s'' & Hrun' & Hdone).
    exists s''. split; [exact Hrun'|]. split; [exact Hdone|].
    intros b Hb.
    exact (history_nonempty_run c duration b _ s' s'' Hwf' Hsr Hb Hrun').
  - intros b tr1 sA raw t tr2 sC rest t2 tr3 s'
           Hba Hb HrunA HwA Hraw Hlen HrunC HcC Hrun'.
    pose proof (run_wf c duration tr1 _ sA Hwf0 Hsr HrunA) as HwfA.
    cbn [run step bind] in HrunC.
    pose proof (has_data_after_read c sA b raw t HwfA Hb HwA Hraw Hlen) as Hd.
    pose proof (worker_step_wf c sA b raw t HwfA) as HwfB.
    pose proof (has_data_run c duration b tr2 _ sC HwfB Hsr Hd HrunC) as HdC.
    pose proof (run_wf c duration tr2 _ sC HwfB Hsr HrunC) as HwfC.
    cbn [run] in Hrun'.
    destruct (step_total c duration sC (EvCoord t2) HwfC Hsr) as (sD & HsD & HwfD).
    rewrite HsD in Hrun'. cbn [bind] in Hrun'.
    pose proof (poll_gives_history c duration t2 b rest sC sD HwfC Hsr HdC HcC HsD)
      as HhD.
    exact (history_nonempty_run c duration b tr3 sD s' HwfD Hsr HhD Hrun').
Qed.

Lemma start_time_step (c : Config) (duration : R) (s s' : System) (e : event) :
  wf c s -> sample_rate c <> 0%Z ->
  step c duration s e = Ok s' -> start_time s' = start_time s.
Proof.
  intros Hwf Hsr. destruct e as [n raw now|now]; cbn [step].
  - intros H. injection H as <-.
    now destruct (worker_step_frame c s n raw now) as (_ & _ & _ & _ & Hst & _).
  - unfold coord_step. destruct (coord s) as [|[|n rest]|] eqn:Hc.
    + destruct (Rltb _ _); intros H; now injection H as <-.
    + intros H; now injection H as <-.
    + assert (Hn : n ∈ streams c).
      { destruct Hwf as (_ & Hp & _). specialize (Hp _ Hc).
        apply Forall_cons in Hp. tauto. }
      destruct (poll_stream_wf c s n Hwf Hsr Hn) as (t & Hp & _ & _ & _ & _ & St & _).
      rewrite Hp. cbn [bind]. intros H; injection H as <-. exact St.
    + intros H; now injection H as <-.
Qed.

Lemma start_time_run (c : Config) (duration : R) (tr : list event)
    (s s' : System) :
  wf c s -> sample_rate c <> 0%Z ->
  run c duration s tr = Ok s' -> start_time s' = start_time s.
Proof.
  intros Hwf Hsr. revert s Hwf.
  induction tr as [|e tr IH]; intros s Hwf; cbn [run].
  - intros H. now injection H as <-.
  - destruct (step_total c duration s e Hwf Hsr) as (s1 & Hs1 & Hwf1).
    rewrite Hs1. cbn [bind]. intros Hrun.
    rewrite (IH s1 Hwf1 Hrun).
    exact (start_time_step c duration s s1 e Hwf Hsr Hs1).
Qed.

(** Before the deadline the coordinator starts a round over the streams. *)
Lemma coord_head_step (c : Config) (duration now : R) (s : System) :
  coord s = Head -> (now - start_time s < duration)%R ->
  step c duration s (EvCoord now) = Ok (set_coord s (Polling (streams c))).
Proof.
  intros Hc Hlt. cbn [step]. unfold coord_step.
  now rewrite Hc, Rltb_true.
Qed.

(** A poll moves the coordinator to the next stream of the round. *)
Lemma coord_poll_step (c : Config) (duration now : R) (s : System)
    (n : string) (rest : list string) :
  wf c s -> sample_rate c <> 0%Z -> coord s = Polling (n :: rest) ->
  exists s', step c duration s (EvCoord now) = Ok s' /\
             coord s' = Polling rest /\ wf c s'.
Proof.
  intros Hwf Hsr Hc.
  destruct (step_total c duration s (EvCoord now) Hwf Hsr) as (s' & Hs' & Hwf').
  exists s'. split; [exact Hs'|]. split; [|exact Hwf'].
  cbn [step] in Hs'. unfold coord_step in Hs'. rewrite Hc in Hs'.
  destruct (poll_stream c s n); cbn [bind] in Hs'; [|discriminate].
  now injection Hs' as <-.
Qed.

(** The scenario of C5 with two streams: the source of "raw" returns zero
    bytes at its first read, "filtered" delivers one short chunk, the
    coordinator polls both and then finds the clock past the deadline. *)
Lemma C5_zero_byte_read_is_local_witness :
  let cfg := mkConfig 4 1 ["raw"; "filtered"] in
  let s := worker_step cfg (init_system cfg 0) "raw" [] 0 in
  exists s0 s' s'',
    step cfg 10 s (EvWorker "raw" [] 0) = Ok s0 /\
    running s0 = true /\
    run cfg 10 s0 [EvWorker "filtered" [] 0; EvWorker "filtered" [Byte.x01] 1;
                   EvCoord 2; EvCoord 2; EvCoord 2] = Ok s' /\
    history_nonempty "filtered" s' /\
    run cfg 10 s' (repeat (EvCoord 11) (steps_to_done (coord s'))) = Ok s'' /\
    coord s'' = Done /\
    history_nonempty "filtered" s'' /\
    workers s'' !! "raw" = Some Exited.
Proof.
  intros cfg s.
  assert (Hsr : sample_rate cfg <> 0%Z) by discriminate.
  assert (Hraw : "raw" ∈ streams cfg) by apply list_elem_of_here.
  assert (Hfil : "filtered" ∈ streams cfg).
  { apply list_elem_of_further, list_elem_of_here. }
  assert (Hne : "filtered" <> "raw") by discriminate.
  pose proof (wf_init cfg 0) as Hwfi.
  assert (Hwf : wf cfg s) by (now apply worker_step_wf).
  destruct (worker_step_frame cfg (init_system cfg 0) "raw" [] 0)
    as (Hrun_s & Hco_s & _ & _ & Hst_s & Hoth_s).
  fold s in Hrun_s, Hco_s, Hst_s, Hoth_s.
  assert (Hreading : workers s !! "raw" = Some Reading).
  { unfold s, worker_step.
    replace (workers (init_system cfg 0) !! "raw") with (Some AtHead)
      by (symmetry; apply (dict_init_lookup (streams cfg) AtHead "raw" Hraw)).
    cbn. apply lookup_insert_eq. }
  destruct (C5_zero_byte_read_is_local cfg 10 s "raw" 0 Hwf Hsr Hreading)
    as (s0 & Hstep & Hex & Hoth0 & Hrun0 & Hco0 & _ & _ & _ &
        Halive & _ & Hdone & Hhist).
  assert (Hwf0 : wf cfg s0).
  { destruct (step_total cfg 10 s (EvWorker "raw" [] 0) Hwf Hsr) as (t & Ht & Hw).
    congruence. }
  assert (Hst0 : start_time s0 = 0%R).
  { rewrite (start_time_step cfg 10 s s0 _ Hwf Hsr Hstep). exact Hst_s. }
  (* "filtered" passes its loop test and blocks in read *)
  set (sA := worker_step cfg s0 "filtered" [] 0).
  assert (HwfA : wf cfg sA) by (now apply worker_step_wf).
  assert (HrA : workers sA !! "filtered" = Some Reading).
  { unfold sA, worker_step.
    rewrite (Hoth0 "filtered" Hne).
    destruct (Hoth_s "filtered" Hne) as [-> _].
    replace (workers (init_system cfg 0) !! "filtered") with (Some AtHead)
      by (symmetry; apply (dict_init_lookup (streams cfg) AtHead "filtered" Hfil)).
    rewrite Hrun0, Hrun_s. cbn. apply lookup_insert_eq. }
  (* it reads one byte; the coordinator starts its round and polls "raw" *)
  set (sB := worker_step cfg sA "filtered" [Byte.x01] 1).
  assert (HwfB : wf cfg sB) by (now apply worker_step_wf).
  assert (HcoB : coord sB = Head /\ start_time sB = 0%R).
  { destruct (worker_step_frame cfg sA "filtered" [Byte.x01] 1)
      as (_ & HcB & _ & _ & HsB & _).
    destruct (worker_step_frame cfg s0 "filtered" [] 0)
      as (_ & HcA & _ & _ & HsA & _).
    fold sA in HcA, HsA. fold sB in HcB, HsB.
    rewrite HcB, HsB, HcA, HsA, Hco0, Hco_s, Hst0. split; reflexivity. }
  destruct HcoB as [HcoB HstB].
  pose proof (coord_head_step cfg 10 2 sB HcoB ltac:(rewrite HstB; lra)) as Hs1.
  destruct (step_total cfg 10 sB (EvCoord 2) HwfB Hsr) as (t1 & Ht1 & Hwf1).
  rewrite Hs1 in Ht1. injection Ht1 as Ht1. subst t1.
  destruct (coord_poll_step cfg 10 2 (set_coord sB (Polling (streams cfg)))
              "raw" ["filtered"] Hwf1 Hsr eq_refl)
    as (sC & Hs2 & HcoC & HwfC).
  destruct (step_total cfg 10 sC (EvCoord 2) HwfC Hsr) as (s' & Hs3 & Hwf').
  assert (HrunC : run cfg 10 sA
                    [EvWorker "filtered" [Byte.x01] 1; EvCoord 2; EvCoord 2]
                  = Ok sC).
  { cbn [run]. change (step cfg 10 sA (EvWorker "filtered" [Byte.x01] 1))
      with (Ok sB).
    cbn [bind]. rewrite Hs1. cbn [bind]. rewrite Hs2. reflexivity. }
  assert (Hrun' : run cfg 10 s0
                    [EvWorker "filtered" [] 0; EvWorker "filtered" [Byte.x01] 1;
                     EvCoord 2; EvCoord 2; EvCoord 2] = Ok s').
  { cbn [run]. change (step cfg 10 s0 (EvWorker "filtered" [] 0)) with (Ok sA).
    cbn [bind].
    change (step cfg 10 sA (EvWorker "filtered" [Byte.x01] 1)) with (Ok sB).
    cbn [bind]. rewrite Hs1. cbn [bind]. rewrite Hs2. cbn [bind].
    rewrite Hs3. reflexivity. }
  assert (Hlen : (Z.of_nat (length [Byte.x01]) <= chunk_bytes cfg)%Z).
  { unfold chunk_bytes, bytes_per_sample.
    rewrite (chunk_size_exact cfg 4) by (cbn; lra). cbn. lia. }
  assert (Hh' : history_nonempty "filtered" s').
  { apply (Hhist "filtered" [EvWorker "filtered" [] 0] sA [Byte.x01] 1%R
             [EvCoord 2; EvCoord 2] sC [] 2%R [] s'); try assumption.
    - reflexivity.
    - discriminate.
    - cbn [run]. rewrite Hs3. reflexivity. }
  assert (Hst' : start_time s' = 0%R).
  { rewrite (start_time_run cfg 10 _ s0 s' Hwf0 Hsr Hrun'). exact Hst0. }
  destruct (Hdone _ s' 11%R Hrun' ltac:(rewrite Hst'; lra))
    as (s'' & Hrun'' & Hd'' & Hkeep).
  exists s0, s', s''.
  split; [exact Hstep|]. split; [now rewrite Hrun0, Hrun_s|].
  split; [exact Hrun'|]. split; [exact Hh'|]. split; [exact Hrun''|].
  split; [exact Hd''|]. split; [now apply Hkeep|].
  destruct (Halive ([EvWorker "filtered" [] 0; EvWorker "filtered" [Byte.x01] 1;
                     EvCoord 2; EvCoord 2; EvCoord 2]
                    ++ repeat (EvCoord 11) (steps_to_done (coord s'))))
    as (sF & HrunF & HexF).
  rewrite run_app, Hrun' in HrunF. cbn [bind] in HrunF.
  rewrite Hrun'' in HrunF. injection HrunF as <-. exact HexF.
Defined.

(** * Further properties of the analyzer *)

(** ** Decoding the PCM bytes *)

Lemma byte_to_of_Z (z : Z) :
  (0 <= z < 256)%Z -> Z.of_N (Byte.to_N (byte_of_Z z)) = z.
Proof.
  intros Hz. unfold byte_of_Z.
  destruct (Byte.of_N (Z.to_N z)) as [b|] eqn:E.
  - apply Byte.to_of_N in E. rewrite E. lia.
  - apply Byte.of_N_None_iff in E. lia.
Qed.

Lemma byte_of_to_Z (b : byte) : byte_of_Z (Z.of_N (Byte.to_N b)) = b.
Proof.
  unfold byte_of_Z. rewrite N2Z.id. now rewrite Byte.of_to_N.
Qed.

Lemma byte_value_range (b : byte) : (0 <= Z.of_N (Byte.to_N b) < 256)%Z.
Proof. pose proof (Byte.to_N_bounded b). lia. Qed.

Lemma int16_decode_encode (code : Z) :
  (-32768 <= code <= 32767)%Z ->
  int16_of_bytes (fst (int16_to_bytes code)) (snd (int16_to_bytes code)) = code.
Proof.
  intros Hc. unfold int16_to_bytes, int16_of_bytes. cbn [fst snd].
  assert (Hu : (0 <= code mod 65536 < 65536)%Z) by (apply Z.mod_pos_bound; lia).
  rewrite !byte_to_of_Z.
  2:{ split; [apply Z.div_pos; lia|]. apply Z.div_lt_upper_bound; lia. }
  2:{ apply Z.mod_pos_bound. lia. }
  rewrite (Z.add_comm (_ mod 256)), <- Z.div_mod by lia.
  destruct (Z_lt_dec code 0) as [Hneg|Hpos].
  - assert (Hm : (code mod 65536 = code + 65536)%Z).
    { symmetry. apply Z.mod_unique with (q := (-1)%Z); lia. }
    rewrite Hm. destruct (_ <? _)%Z eqn:E;
      [apply Z.ltb_lt in E | apply Z.ltb_ge in E]; lia.
  - rewrite Z.mod_small by lia.
    destruct (_ <? _)%Z eqn:E;
      [apply Z.ltb_lt in E | apply Z.ltb_ge in E]; lia.
Qed.

Lemma int16_encode_decode (lo hi : byte) :
  int16_to_bytes (int16_of_bytes lo hi) = (lo, hi).
Proof.
  pose proof (byte_value_range lo) as Hlo. pose proof (byte_value_range hi) as Hhi.
  unfold int16_to_bytes, int16_of_bytes.
  set (l := Z.of_N (Byte.to_N lo)) in *. set (h := Z.of_N (Byte.to_N hi)) in *.
  assert (Hmod : ((if (l + 256 * h <? 32768)%Z then (l + 256 * h)%Z
                   else (l + 256 * h - 65536)%Z) mod 65536 = l + 256 * h)%Z).
  { destruct (_ <? _)%Z.
    - apply Z.mod_small. lia.
    - symmetry. apply Z.mod_unique with (q := (-1)%Z); lia. }
  cbv zeta. rewrite Hmod.
  assert (Hl : ((l + 256 * h) mod 256 = l)%Z).
  { symmetry. apply Z.mod_unique with (q := h); lia. }
  assert (Hh : ((l + 256 * h) / 256 = h)%Z).
  { symmetry. apply Z.div_unique with (r := l); lia. }
  rewrite Hl, Hh. unfold l, h. now rewrite !byte_of_to_Z.
Qed.

(** X1. Decoding a sample inverts the two's-complement little-endian
    encoding: every code in the 16-bit range is recovered from its two
    bytes, every pair of bytes is recovered from its code, and so two
    different byte pairs never decode to the same sample. *)
Theorem X1_int16_round_trip (code : Z)
    (Hcode : (-32768 <= code <= 32767)%Z) :
  int16_of_bytes (fst (int16_to_bytes code)) (snd (int16_to_bytes code)) = code /\
  (forall lo hi, int16_to_bytes (int16_of_bytes lo hi) = (lo, hi)) /\
  (forall lo hi lo' hi',
     int16_of_bytes lo hi = int16_of_bytes lo' hi' -> lo = lo' /\ hi = hi').
Proof.
  split; [now apply int16_decode_encode|].
  split; [apply int16_encode_decode|].
  intros lo hi lo' hi' Heq.
  pose proof (int16_encode_decode lo hi) as H1.
  pose proof (int16_encode_decode lo' hi') as H2.
  rewrite Heq, H2 in H1. now injection H1 as -> ->.
Qed.

Lemma X1_int16_round_trip_witness :
  (-32768 <= -2 <= 32767)%Z /\
  int16_to_bytes (-2) = (Byte.xfe, Byte.xff) /\
  int16_of_bytes Byte.xfe Byte.xff = (-2)%Z.
Proof.
  split; [lia|]. split; [reflexivity|].
  exact (proj1 (X1_int16_round_trip (-2) ltac:(lia))).
Defined.

Lemma frombuffer_int16_lookup (i : nat) (l : list byte) (codes : list Z)
    (lo hi : byte) :
  frombuffer_int16 l = Ok codes ->
  l !! (2 * i)%nat = Some lo -> l !! (2 * i + 1)%nat = Some hi ->
  codes !! i = Some (int16_of_bytes lo hi).
Proof.
  revert l codes. induction i as [|i IH]; intros l codes Hok Hlo Hhi.
  - destruct l as [|a [|b rest]]; cbn in Hlo, Hhi; try discriminate.
    injection Hlo as ->. injection Hhi as ->. cbn in Hok.
    destruct (frombuffer_int16 rest); cbn in Hok; [|discriminate].
    now injection Hok as <-.
  - destruct l as [|a [|b rest]]; try discriminate.
    replace (2 * S i)%nat with (S (S (2 * i))) in Hlo by lia.
    replace (2 * S i + 1)%nat with (S (S (2 * i + 1))) in Hhi by lia.
    cbn in Hlo, Hhi, Hok.
    destruct (frombuffer_int16 rest) as [xs|] eqn:E; cbn in Hok; [|discriminate].
    injection Hok as <-. cbn. eapply IH; eauto.
Qed.

Lemma repeat_lookup {A : Type} (x : A) (n j : nat) :
  (j < n)%nat -> repeat x n !! j = Some x.
Proof.
  revert j. induction n as [|n IH]; intros j Hj; [lia|].
  destruct j as [|j]; cbn; [reflexivity|]. apply IH. lia.
Qed.

Lemma pad_chunk_lookup_read (cb : Z) (raw : list byte) (j : nat) (b : byte) :
  raw !! j = Some b -> pad_chunk cb raw !! j = Some b.
Proof.
  intros H. unfold pad_chunk. destruct (_ <? _)%Z; [|exact H].
  now apply lookup_app_l_Some.
Qed.

Lemma pad_chunk_lookup_pad (cb : Z) (raw : list byte) (j : nat) :
  (length raw <= j)%nat -> (Z.of_nat j < cb)%Z ->
  pad_chunk cb raw !! j = Some Byte.x00.
Proof.
  intros Hge Hlt. unfold pad_chunk.
  destruct (_ <? _)%Z eqn:E; [|apply Z.ltb_ge in E; lia].
  rewrite lookup_app_r by assumption.
  apply repeat_lookup. lia.
Qed.

Lemma pcm_to_float_zero : pcm_to_float 0 = Fin 0.
Proof. unfold pcm_to_float. f_equal. unfold Rdiv. apply Rmult_0_l. Qed.

(** X2. What a capture thread makes of a short read: the frame has
    [chunk_size] samples; every pair of bytes that was read gives its sample;
    an odd last byte is paired with a zero high byte and gives a small
    non-negative sample; and every sample after the bytes read is exactly
    zero. *)
Theorem X2_short_read_is_padded_with_silence (c : Config) (raw : list byte)
    (Hread : (Z.of_nat (length raw) <= chunk_bytes c)%Z) :
  exists samples,
    frame_samples c raw = Ok samples /\
    Z.of_nat (length samples) = chunk_size c /\
    (forall i lo hi,
       raw !! (2 * i)%nat = Some lo -> raw !! (2 * i + 1)%nat = Some hi ->
       samples !! i = Some (pcm_to_float (int16_of_bytes lo hi))) /\
    (forall i lo,
       raw !! (2 * i)%nat = Some lo -> raw !! (2 * i + 1)%nat = None ->
       exists r, samples !! i = Some (Fin r) /\
                 r = (IZR (Z.of_N (Byte.to_N lo)) / 32768)%R /\
                 (0 <= r < 1 / 128)%R) /\
    (forall i, (length raw <= 2 * i)%nat -> (Z.of_nat i < chunk_size c)%Z ->
       samples !! i = Some (Fin 0)).
Proof.
  destruct (frame_samples_length c raw Hread) as (codes & Hc & Hf & Hl).
  exists (map pcm_to_float codes). split; [exact Hf|].
  split; [now rewrite length_map|].
  assert (Hcb : chunk_bytes c = (2 * chunk_size c)%Z).
  { unfold chunk_bytes, bytes_per_sample. lia. }
  split; [|split].
  - intros i lo hi Hlo Hhi. rewrite list_lookup_fmap.
    erewrite frombuffer_int16_lookup; [reflexivity|exact Hc| |];
      now apply pad_chunk_lookup_read.
  - intros i lo Hlo Hnone.
    apply lookup_ge_None in Hnone. pose proof (lookup_lt_Some _ _ _ Hlo) as Hlt.
    exists (IZR (Z.of_N (Byte.to_N lo)) / 32768)%R.
    split; [|split; [reflexivity|]].
    + rewrite list_lookup_fmap.
      erewrite (frombuffer_int16_lookup i _ codes lo Byte.x00);
        [|exact Hc|now apply pad_chunk_lookup_read
         |apply pad_chunk_lookup_pad; lia].
      cbn [fmap option_fmap option_map]. unfold pcm_to_float. do 4 f_equal.
      unfold int16_of_bytes. pose proof (byte_value_range lo).
      change (Z.of_N (Byte.to_N Byte.x00)) with 0%Z. cbv zeta.
      destruct (_ <? _)%Z eqn:E;
        [apply Z.ltb_lt in E | apply Z.ltb_ge in E]; lia.
    + pose proof (byte_value_range lo) as [H0 H256].
      apply IZR_le in H0. apply IZR_lt in H256. lra.
  - intros i Hge Hlt. rewrite list_lookup_fmap.
    erewrite (frombuffer_int16_lookup i _ codes Byte.x00 Byte.x00);
      [|exact Hc|apply pad_chunk_lookup_pad; lia|apply pad_chunk_lookup_pad; lia].
    cbn [fmap option_fmap option_map].
    change (int16_of_bytes Byte.x00 Byte.x00) with 0%Z.
    now rewrite pcm_to_float_zero.
Qed.

(** Three bytes read into a chunk of four samples: one full sample, one
    sample from the odd byte, two samples of silence. *)
Lemma X2_short_read_is_padded_with_silence_witness :
  exists samples,
    frame_samples (mkConfig 4 1 ["raw"]) [Byte.x00; Byte.x80; Byte.x07] = Ok samples /\
    samples !! 0%nat = Some (pcm_to_float (-32768)) /\
    samples !! 2%nat = Some (Fin 0) /\ samples !! 3%nat = Some (Fin 0).
Proof.
  assert (Hcs : chunk_size (mkConfig 4 1 ["raw"]) = 4%Z).
  { apply chunk_size_exact. cbn. lra. }
  assert (Hread : (Z.of_nat (length [Byte.x00; Byte.x80; Byte.x07])
                   <= chunk_bytes (mkConfig 4 1 ["raw"]))%Z).
  { unfold chunk_bytes, bytes_per_sample. rewrite Hcs. cbn. lia. }
  destruct (X2_short_read_is_padded_with_silence _ _ Hread)
    as (samples & Hf & _ & Hpair & _ & Hpad).
  exists samples. split; [exact Hf|].
  split; [exact (Hpair 0%nat Byte.x00 Byte.x80 eq_refl eq_refl)|].
  split; apply Hpad; cbn; rewrite ?Hcs; lia.
Defined.

(** ** Frames and latest results along a run *)

Lemma frombuffer_int16_codes (codes : list Z) (l : list byte) :
  frombuffer_int16 l = Ok codes ->
  Forall (fun code => (-32768 <= code <= 32767)%Z) codes.
Proof.
  revert l. induction codes as [|x xs IH]; intros l Hok; [constructor|].
  destruct l as [|lo [|hi rest]]; cbn in Hok; try discriminate.
  destruct (frombuffer_int16 rest) as [ys|] eqn:E; cbn in Hok; [|discriminate].
  injection Hok as <- <-. constructor.
  - apply int16_of_bytes_range.
  - now apply (IH rest).
Qed.

Lemma frame_samples_normalized (c : Config) (raw : list byte) (audio : list xreal) :
  frame_samples c raw = Ok audio -> Forall normalized audio.
Proof.
  unfold frame_samples.
  destruct (frombuffer_int16 _) as [codes|] eqn:E; cbn [bind]; [|discriminate].
  intros H. injection H as <-.
  apply frombuffer_int16_codes in E.
  induction E as [|x xs Hx _ IH]; cbn; constructor; [|exact IH].
  exists (IZR x / 32768)%R. split; [reflexivity|].
  now apply pcm_to_float_bounds.
Qed.

Lemma frames_normalized_step (c : Config) (duration : R) (s s' : System)
    (e : event) :
  wf c s -> sample_rate c <> 0%Z -> frames_normalized s ->
  step c duration s e = Ok s' -> frames_normalized s'.
Proof.
  intros Hwf Hsr Hn. destruct e as [n raw now|now]; cbn [step].
  - intros H. injection H as <-. intros b q1 Hb.
    destruct (worker_step_frame c s n raw now) as (_ & _ & _ & _ & _ & Hoth).
    destruct (decide (b = n)) as [->|Hne].
    + destruct (worker_step_queue c s n raw now)
        as [Heq|(q & q' & Hq0 & _ & Hcap & Hq1)].
      * rewrite Heq in Hb. eauto.
      * rewrite Hq1 in Hb. injection Hb as <-.
        destruct Hwf as (_ & _ & Hqs). destruct (Hqs n q Hq0) as (Hm & Hbd & _).
        destruct (capture_chunk_Some c q q' raw now Hm Hbd Hcap)
          as (audio & front & _ & Hf & _ & _ & _ & Hit & Hfr).
        rewrite Hit. apply Forall_app. split.
        -- specialize (Hn n q Hq0).
           destruct Hfr as [->| ->]; [assumption|now apply Forall_tl].
        -- constructor; [|constructor]. cbn.
           eapply frame_samples_normalized; eauto.
    + destruct (Hoth b Hne) as [_ Hqb]. rewrite Hqb in Hb. eauto.
  - unfold coord_step. destruct (coord s) as [|[|n rest]|] eqn:Hc.
    + destruct (Rltb _ _); intros H; injection H as <-; exact Hn.
    + intros H; injection H as <-; exact Hn.
    + assert (Hin : n ∈ streams c).
      { destruct Hwf as (_ & Hp & _). specialize (Hp _ Hc).
        apply Forall_cons in Hp. tauto. }
      destruct (poll_stream_cases c s n Hwf Hsr Hin)
        as (q & r & m & Hq0 & Hr0 & Hm0 & [[_ Hp]|Hp]).
      * rewrite Hp. cbn [bind]. intros H; injection H as <-. exact Hn.
      * destruct Hp as (ts & audio & rest' & freq & psd_db & st & Hit & _ & _ & Hp).
        rewrite Hp. cbn [bind]. intros H; injection H as <-.
        intros b q1. cbn. destruct (decide (n = b)) as [->|Hne].
        -- rewrite lookup_insert_eq. intros Hq1. injection Hq1 as <-. cbn.
           specialize (Hn b q Hq0). rewrite Hit in Hn.
           apply Forall_cons in Hn. tauto.
        -- rewrite lookup_insert_ne by assumption. apply Hn.
    + intros H; injection H as <-; exact Hn.
Qed.

Lemma results_ok_step (c : Config) (duration : R) (s s' : System) (e : event) :
  wf c s -> sample_rate c <> 0%Z -> frames_normalized s -> results_ok c s ->
  step c duration s e = Ok s' -> results_ok c s'.
Proof.
  intros Hwf Hsr Hn Hr. destruct e as [n raw now|now]; cbn [step].
  - intros H. injection H as <-.
    destruct (worker_step_frame c s n raw now) as (_ & _ & Hres & _).
    unfold results_ok. rewrite Hres. exact Hr.
  - unfold coord_step. destruct (coord s) as [|[|n rest]|] eqn:Hc.
    + destruct (Rltb _ _); intros H; injection H as <-; exact Hr.
    + intros H; injection H as <-; exact Hr.
    + assert (Hin : n ∈ streams c).
      { destruct Hwf as (_ & Hp & _). specialize (Hp _ Hc).
        apply Forall_cons in Hp. tauto. }
      destruct (poll_stream_cases c s n Hwf Hsr Hin)
        as (q & r & m & Hq0 & Hr0 & Hm0 & [[_ Hp]|Hp]).
      * rewrite Hp. cbn [bind]. intros H; injection H as <-. exact Hr.
      * destruct Hp as (ts & audio & rest' & freq & psd_db & st & Hit & Ha & Hst & Hp).
        rewrite Hp. cbn [bind]. intros H; injection H as <-.
        intros b r1. cbn. destruct (decide (n = b)) as [->|Hne].
        -- rewrite lookup_insert_eq. intros Hr1. injection Hr1 as <-.
           unfold latest_ok. cbn.
           destruct Hwf as (_ & _ & Hqs). destruct (Hqs b q Hq0) as (_ & _ & Hall).
           specialize (Hn b q Hq0). rewrite Hit in Hn, Hall.
           apply Forall_cons in Hn. apply Forall_cons in Hall.
           exists audio, freq, psd_db.
           split; [tauto|]. split; [tauto|].
           split; [exact Ha|]. split; [exact Hst|].
           split; [reflexivity|]. split; [reflexivity|].
           rewrite !last_snoc. auto.
        -- rewrite lookup_insert_ne by assumption. apply Hr.
    + intros H; injection H as <-; exact Hr.
Qed.

(** Everything the analyzer keeps along a schedule, in one statement. *)
Lemma run_invariants (c : Config) (duration : R) (tr : list event)
    (s : System) :
  sample_rate c <> 0%Z ->
  wf c s -> frames_normalized s -> results_ok c s -> history_ok s ->
  exists s', run c duration s tr = Ok s' /\
             wf c s' /\ frames_normalized s' /\ results_ok c s' /\ history_ok s'.
Proof.
  intros Hsr. revert s.
  induction tr as [|e tr IH]; intros s Hwf Hn Hr Hh; cbn [run].
  - exists s. auto.
  - destruct (step_total c duration s e Hwf Hsr) as (s1 & Hs1 & Hwf1).
    rewrite Hs1. cbn [bind]. apply IH; [assumption| | |].
    + exact (frames_normalized_step c duration s s1 e Hwf Hsr Hn Hs1).
    + exact (results_ok_step c duration s s1 e Hwf Hsr Hn Hr Hs1).
    + exact (history_ok_step c duration s s1 e Hwf Hsr Hh Hs1).
Qed.

Lemma init_invariants (c : Config) (start : R) :
  wf c (init_system c start) /\ frames_normalized (init_system c start) /\
  results_ok c (init_system c start) /\ history_ok (init_system c start).
Proof.
  split; [apply wf_init|]. split; [|split].
  - intros name q Hq. cbn in Hq. apply dict_init_lookup_Some in Hq. subst q.
    constructor.
  - intros name r Hr. cbn in Hr. apply dict_init_lookup_Some in Hr. subst r.
    cbn. auto 10.
  - intros b r0 n0 Hr0 Hn0. cbn in Hr0, Hn0.
    apply dict_init_lookup_Some in Hr0, Hn0. subst. cbn. auto.
Qed.

Lemma run_from_init (c : Config) (duration start : R) (tr : list event) :
  sample_rate c <> 0%Z ->
  exists s', run c duration (init_system c start) tr = Ok s' /\
             wf c s' /\ frames_normalized s' /\ results_ok c s' /\ history_ok s'.
Proof.
  intros Hsr. destruct (init_invariants c start) as (H1 & H2 & H3 & H4).
  now apply run_invariants.
Qed.

(** X3. Along any schedule from the start of a run no step raises, and at
    every moment each stream's queue is the queue of capacity 10 with at
    most 10 frames, each of them nonempty and made of finite samples in
    [-1, 1). *)
Theorem X3_queues_hold_normalized_frames (c : Config) (duration start : R)
    (tr : list event) (Hsr : sample_rate c <> 0%Z) :
  exists s',
    run c duration (init_system c start) tr = Ok s' /\
    forall name q, audio_queues s' !! name = Some q ->
      maxsize q = 10%Z /\ (length (items q) <= 10)%nat /\
      Forall (fun f : Frame => snd f <> [] /\ Forall normalized (snd f)) (items q).
Proof.
  destruct (run_from_init c duration start tr Hsr)
    as (s' & Hrun & (_ & _ & Hq) & Hn & _).
  exists s'. split; [exact Hrun|]. intros name q Hq0.
  destruct (Hq name q Hq0) as (Hm & Hb & Hne). specialize (Hn name q Hq0).
  split; [exact Hm|]. split.
  - unfold bounded, qsize in Hb. rewrite Hm in Hb. unfold queue_maxsize in Hb. lia.
  - rewrite List.Forall_forall in *. intros f Hf. split; auto.
Qed.

Lemma X3_queues_hold_normalized_frames_witness :
  exists s',
    run (mkConfig 4 1 ["raw"]) 10 (init_system (mkConfig 4 1 ["raw"]) 0)
      [EvWorker "raw" [] 0; EvWorker "raw" [Byte.xff; Byte.x7f] 1] = Ok s' /\
    forall q, audio_queues s' !! "raw" = Some q -> (length (items q) <= 10)%nat.
Proof.
  destruct (X3_queues_hold_normalized_frames (mkConfig 4 1 ["raw"]) 10 0
              [EvWorker "raw" [] 0; EvWorker "raw" [Byte.xff; Byte.x7f] 1]
              ltac:(discriminate)) as (s' & Hrun & Hq).
  exists s'. split; [exact Hrun|]. intros q Hq0.
  exact (proj1 (proj2 (Hq "raw" q Hq0))).
Defined.

Lemma last_Some_nonempty {A : Type} (l : list A) (x : A) :
  last l = Some x -> l <> [].
Proof. destruct l; [discriminate|discriminate]. Qed.

(** X4. Along any schedule the tests that the reporting code uses to decide
    whether a stream has data agree with each other: the latest statistics,
    the latest frequency axis and the latest spectrum are all present or all
    absent, they are present exactly when the histories are nonempty, and
    exactly when the stream's counter is positive. *)
Theorem X4_data_guards_agree (c : Config) (duration start : R)
    (tr : list event) (name : string)
    (Hsr : sample_rate c <> 0%Z) (Hin : name ∈ streams c) :
  exists s' r n,
    run c duration (init_system c start) tr = Ok s' /\
    results s' !! name = Some r /\ analysis_count s' !! name = Some n /\
    (is_Some (res_stats r) <-> is_Some (res_freq r)) /\
    (is_Some (res_stats r) <-> is_Some (res_psd r)) /\
    (is_Some (res_stats r) <-> snr_history r <> []) /\
    (is_Some (res_stats r) <-> timestamp_history r <> []) /\
    (is_Some (res_stats r) <-> (0 < n)%nat).
Proof.
  destruct (run_from_init c duration start tr Hsr)
    as (s' & Hrun & (Hd & _) & _ & Hres & Hh).
  destruct (Hd name Hin) as (_ & [r Hr] & [n Hn]).
  exists s', r, n. repeat (split; [assumption|]).
  specialize (Hres name r Hr). destruct (Hh name r n Hr Hn) as (Ht & Hs & _).
  unfold latest_ok in Hres. destruct (res_stats r) as [st|].
  - destruct Hres as (audio & freq & psd_db & _ & _ & _ & _ & Hf & Hp & Hl & _).
    apply last_Some_nonempty in Hl.
    assert (Hpos : (0 < n)%nat).
    { destruct (snr_history r); [congruence|]. cbn in Hs. lia. }
    rewrite Hf, Hp.
    repeat split; intros _; eauto.
    intros Hnil. rewrite Hnil in Ht. cbn in Ht. lia.
  - destruct Hres as (Hf & Hp & Hs0 & Ht0 & _).
    rewrite Hf, Hp, Hs0, Ht0. rewrite Hs0 in Hs. cbn in Hs. subst n.
    repeat split; intros H; try (now destruct H); try congruence; lia.
Qed.

Lemma X4_data_guards_agree_witness :
  exists s' r n,
    run (mkConfig 4 1 ["raw"]) 10 (init_system (mkConfig 4 1 ["raw"]) 0)
      [EvWorker "raw" [] 0; EvCoord 1; EvCoord 1] = Ok s' /\
    results s' !! "raw" = Some r /\ analysis_count s' !! "raw" = Some n /\
    (is_Some (res_stats r) <-> (0 < n)%nat).
Proof.
  destruct (X4_data_guards_agree (mkConfig 4 1 ["raw"]) 10 0
              [EvWorker "raw" [] 0; EvCoord 1; EvCoord 1] "raw"
              ltac:(discriminate) ltac:(apply list_elem_of_here))
    as (s' & r & n & Hrun & Hr & Hn & _ & _ & _ & _ & H).
  exists s', r, n. auto.
Defined.

(** X5. Along any schedule, when a stream has latest statistics they are
    the statistics of one nonempty frame of normalized samples, computed
    over the stored frequency axis and spectrum (both of length [n/2 + 1]
    for that frame), and the last entries of the SNR, bird-power and
    low-power histories are the values of these same statistics. *)
Theorem X5_latest_results_are_one_frame (c : Config) (duration start : R)
    (tr : list event) (Hsr : sample_rate c <> 0%Z) :
  exists s',
    run c duration (init_system c start) tr = Ok s' /\
    forall name r st,
      results s' !! name = Some r -> res_stats r = Some st ->
      exists audio freq psd_db,
        audio <> [] /\ Forall normalized audio /\
        res_freq r = Some freq /\ res_psd r = Some psd_db /\
        analyze_frequency_spectrum c audio = Ok (freq, psd_db) /\
        compute_statistics audio freq psd_db = Ok st /\
        length freq = (length audio / 2 + 1)%nat /\
        length psd_db = (length audio / 2 + 1)%nat /\
        last (snr_history r) = Some (snr_bird_to_low st) /\
        last (bird_power_history r) = Some (bird_freq_power st) /\
        last (low_power_history r) = Some (low_freq_power st).
Proof.
  destruct (run_from_init c duration start tr Hsr)
    as (s' & Hrun & _ & _ & Hres & _).
  exists s'. split; [exact Hrun|]. intros name r st Hr Hst.
  specialize (Hres name r Hr). unfold latest_ok in Hres. rewrite Hst in Hres.
  destruct Hres as (audio & freq & psd_db & Hne & Hnorm & Ha & Hcs & Hf & Hp & Hl).
  exists audio, freq, psd_db.
  destruct (analyze_then_statistics_ok c audio Hne Hsr)
    as (freq' & psd' & st' & Ha' & Hlf & Hlp & _).
  rewrite Ha in Ha'. injection Ha' as <- <-.
  repeat (split; [assumption|]). exact Hl.
Qed.

Lemma X5_latest_results_are_one_frame_witness :
  exists s',
    run (mkConfig 4 1 ["raw"]) 10 (init_system (mkConfig 4 1 ["raw"]) 0)
      [EvWorker "raw" [] 0; EvWorker "raw" [Byte.x01] 1; EvCoord 2; EvCoord 2]
      = Ok s' /\
    forall r st, results s' !! "raw" = Some r -> res_stats r = Some st ->
                 last (snr_history r) = Some (snr_bird_to_low st).
Proof.
  destruct (X5_latest_results_are_one_frame (mkConfig 4 1 ["raw"]) 10 0
              [EvWorker "raw" [] 0; EvWorker "raw" [Byte.x01] 1;
               EvCoord 2; EvCoord 2] ltac:(discriminate)) as (s' & Hrun & H).
  exists s'. split; [exact Hrun|]. intros r st Hr Hst.
  destruct (H "raw" r st Hr Hst)
    as (audio & freq & psd_db & _ & _ & _ & _ & _ & _ & _ & _ & Hl & _).
  exact Hl.
Defined.

(** ** After the deadline *)

Lemma flag_ok_step (c : Config) (duration : R) (s s' : System) (e : event) :
  wf c s -> sample_rate c <> 0%Z -> flag_ok s ->
  step c duration s e = Ok s' -> flag_ok s'.
Proof.
  intros Hwf Hsr Hf. unfold flag_ok in *. destruct e as [n raw now|now]; cbn [step].
  - intros H. injection H as <-.
    destruct (worker_step_frame c s n raw now) as (-> & -> & _). exact Hf.
  - unfold coord_step. destruct (coord s) as [|[|n rest]|] eqn:Hc.
    + destruct (Rltb _ _); intros H; injection H as <-; cbn; [|tauto].
      split; [|discriminate]. intros Hr. apply Hf in Hr. discriminate.
    + intros H; injection H as <-; cbn.
      split; [|discriminate]. intros Hr. apply Hf in Hr. discriminate.
    + assert (Hin : n ∈ streams c).
      { destruct Hwf as (_ & Hp & _). specialize (Hp _ Hc).
        apply Forall_cons in Hp. tauto. }
      destruct (poll_stream_wf c s n Hwf Hsr Hin) as (t & Hp & _ & Hr & _).
      rewrite Hp. cbn [bind]. intros H; injection H as <-; cbn. rewrite Hr.
      split; [|discriminate]. intros Hr'. apply Hf in Hr'. discriminate.
    + intros H; injection H as <-. rewrite Hc. exact Hf.
Qed.

Lemma flag_ok_run (c : Config) (duration : R) (tr : list event) (s s' : System) :
  wf c s -> sample_rate c <> 0%Z -> flag_ok s ->
  run c duration s tr = Ok s' -> flag_ok s'.
Proof.
  intros Hwf Hsr. revert s Hwf.
  induction tr as [|e tr IH]; intros s Hwf Hf; cbn [run].
  - intros H. now injection H as <-.
  - destruct (step_total c duration s e Hwf Hsr) as (s1 & Hs1 & Hwf1).
    rewrite Hs1. cbn [bind]. apply IH; [assumption|].
    exact (flag_ok_step c duration s s1 e Hwf Hsr Hf Hs1).
Qed.

(** Once the coordinator is done, nothing it owns changes any more. *)
Lemma done_frozen (c : Config) (duration : R) (tr : list event) (s s' : System) :
  coord s = Done -> run c duration s tr = Ok s' ->
  coord s' = Done /\ running s' = running s /\
  results s' = results s /\ analysis_count s' = analysis_count s.
Proof.
  revert s. induction tr as [|e tr IH]; intros s Hd; cbn [run].
  - intros H. injection H as <-. auto.
  - destruct e as [n raw now|now]; cbn [step bind].
    + destruct (worker_step_frame c s n raw now) as (Hr & Hc & Hres & Hcnt & _).
      intros Hrun. destruct (IH _ (eq_trans Hc Hd) Hrun) as (H1 & H2 & H3 & H4).
      split; [exact H1|]. split; [congruence|]. split; congruence.
    + unfold coord_step. rewrite Hd. cbn [bind]. now apply IH.
Qed.

(** With the flag cleared, a capture thread is finished after at most two
    steps of its own: it may complete the read it is blocked in, then it
    sees the flag. *)
Lemma worker_exits_after_stop (c : Config) (s : System) (n : string)
    (pc : worker_pc) (raw1 raw2 : list byte) (t1 t2 : R) :
  running s = false -> workers s !! n = Some pc ->
  workers (worker_step c (worker_step c s n raw1 t1) n raw2 t2) !! n
  = Some Exited.
Proof.
  intros Hr Hw.
  assert (Hhead : forall s0 raw t, running s0 = false ->
            workers s0 !! n = Some AtHead ->
            workers (worker_step c s0 n raw t) !! n = Some Exited).
  { intros s0 raw t Hr0 Hw0. unfold worker_step. rewrite Hw0, Hr0. cbn.
    apply lookup_insert_eq. }
  assert (Hexit : forall s0 raw t, workers s0 !! n = Some Exited ->
            workers (worker_step c s0 n raw t) !! n = Some Exited).
  { intros s0 raw t Hw0. unfold worker_step. now rewrite Hw0. }
  assert (Hrun1 : running (worker_step c s n raw1 t1) = false).
  { destruct (worker_step_frame c s n raw1 t1) as (-> & _). exact Hr. }
  destruct pc.
  - apply Hexit. now apply Hhead.
  - assert (Hcase : workers (worker_step c s n raw1 t1) !! n = Some AtHead \/
                    workers (worker_step c s n raw1 t1) !! n = Some Exited).
    { unfold worker_step. rewrite Hw.
      destruct (audio_queues s !! n) as [q|]; cbn.
      - destruct (capture_chunk c q raw1 t1) as [[q'|]|]; cbn;
          rewrite lookup_insert_eq; auto.
      - rewrite lookup_insert_eq; auto. }
    destruct Hcase as [Hh|He]; [now apply Hhead|now apply Hexit].
  - apply Hexit. now apply Hexit.
Qed.

(** X6. When the coordinator has left its loop the [running] flag is
    cleared, and from then on, whatever the threads still do, the flag stays
    cleared, the histories, latest results and counters never change again,
    and every capture thread is finished after at most two more steps of its
    own. *)
Theorem X6_results_frozen_after_done (c : Config) (duration start : R)
    (tr : list event) (s : System)
    (Hsr : sample_rate c <> 0%Z)
    (Hrun : run c duration (init_system c start) tr = Ok s)
    (Hdone : coord s = Done) :
  running s = false /\
  forall tr2, exists s2,
    run c duration s tr2 = Ok s2 /\
    coord s2 = Done /\ running s2 = false /\
    results s2 = results s /\ analysis_count s2 = analysis_count s /\
    forall name pc raw1 t1 raw2 t2,
      workers s2 !! name = Some pc ->
      workers (worker_step c (worker_step c s2 name raw1 t1) name raw2 t2)
        !! name = Some Exited.
Proof.
  pose proof (wf_init c start) as Hwf0.
  assert (Hflag : flag_ok s).
  { eapply flag_ok_run; [exact Hwf0|exact Hsr| |exact Hrun].
    split; discriminate. }
  assert (Hr : running s = false) by (now apply Hflag).
  split; [exact Hr|]. intros tr2.
  pose proof (run_wf c duration tr _ s Hwf0 Hsr Hrun) as Hwf.
  destruct (run_total c duration tr2 s Hwf Hsr) as (s2 & Hrun2 & _).
  destruct (done_frozen c duration tr2 s s2 Hdone Hrun2) as (H1 & H2 & H3 & H4).
  exists s2. split; [exact Hrun2|]. split; [exact H1|].
  split; [congruence|]. split; [exact H3|]. split; [exact H4|].
  intros name pc raw1 t1 raw2 t2 Hw.
  apply (worker_exits_after_stop c s2 name pc); [congruence|exact Hw].
Qed.

Lemma X6_results_frozen_after_done_witness :
  let cfg := mkConfig 4 1 ["raw"] in
  let s := set_coord (set_running (init_system cfg 0) false) Done in
  run cfg 10 (init_system cfg 0) [EvCoord 11] = Ok s /\
  running s = false /\
  exists s2,
    run cfg 10 s [EvWorker "raw" [] 12; EvCoord 13] = Ok s2 /\
    results s2 = results s.
Proof.
  intros cfg s.
  assert (Hrun : run cfg 10 (init_system cfg 0) [EvCoord 11] = Ok s).
  { cbn [run step]. unfold coord_step. cbn [coord init_system start_time].
    rewrite Rltb_false by lra. reflexivity. }
  destruct (X6_results_frozen_after_done cfg 10 0 [EvCoord 11] s
              ltac:(discriminate) Hrun eq_refl) as (Hr & Hall).
  split; [exact Hrun|]. split; [exact Hr|].
  destruct (Hall [EvWorker "raw" [] 12; EvCoord 13])
    as (s2 & Hrun2 & _ & _ & Hres & _).
  exists s2. split; [exact Hrun2|exact Hres].
Defined.

(** ** The window and the spectrum *)

(** The analysis of a chunk of finite samples, bin by bin. *)
Lemma analyze_finite (c : Config) (samples : list R) :
  samples <> [] -> sample_rate c <> 0%Z ->
  analyze_frequency_spectrum c (map Fin samples) =
  Ok (map (fun k => Fin (bin_frequency (sample_rate c) (length samples) k))
        (seq 0 (length samples / 2 + 1)),
      map (fun k => Fin (power_db_spec samples k))
        (seq 0 (length samples / 2 + 1))).
Proof.
  intros Hne Hsr.
  assert (Hn : (0 < length samples)%nat).
  { destruct samples; cbn; [congruence|lia]. }
  pose proof (analyze_frequency_spectrum_ok c (map Fin samples)) as Ha.
  cbv zeta in Ha. rewrite windowed_is_textbook, length_map in Ha.
  rewrite Ha; [|destruct samples; [congruence|discriminate]|assumption].
  f_equal. f_equal.
  - apply map_ext. intros k. now rewrite bin_frequency_code.
  - rewrite !map_map. apply map_ext. intros k.
    now rewrite rfft_bin_is_dft, power_db_of_bin.
Qed.

Lemma hann_lookup (M j : nat) :
  (j < M)%nat -> hann M !! j = Some (hann_spec M j).
Proof. intros Hj. rewrite hann_is_textbook. now apply lookup_map_seq. Qed.

Lemma hann_spec_range (M j : nat) : (0 <= hann_spec M j <= 1)%R.
Proof.
  unfold hann_spec. destruct (M <=? 1)%nat; [lra|].
  pose proof (COS_bound (2 * PI * INR j / INR (M - 1))) as [H1 H2]. lra.
Qed.

Lemma hann_spec_first (M : nat) : (2 <= M)%nat -> hann_spec M 0 = 0%R.
Proof.
  intros HM. unfold hann_spec.
  destruct (M <=? 1)%nat eqn:E; [apply Nat.leb_le in E; lia|].
  cbn [INR]. unfold Rdiv. rewrite Rmult_0_r, Rmult_0_l, cos_0. lra.
Qed.

Lemma hann_spec_mirror (M j : nat) :
  (2 <= M)%nat -> (j < M)%nat ->
  hann_spec M (M - 1 - j) = hann_spec M j.
Proof.
  intros HM Hj. unfold hann_spec.
  destruct (M <=? 1)%nat eqn:E; [reflexivity|].
  assert (Hd : (0 < INR (M - 1))%R) by (apply lt_0_INR; lia).
  rewrite minus_INR by lia.
  replace (2 * PI * (INR (M - 1) - INR j) / INR (M - 1))%R
    with (- (2 * PI * INR j / INR (M - 1)) + 2 * INR 1 * PI)%R
    by (cbn [INR]; field; lra).
  now rewrite cos_period, cos_neg.
Qed.

Lemma hann_spec_last (M : nat) : (2 <= M)%nat -> hann_spec M (M - 1) = 0%R.
Proof.
  intros HM. rewrite <- (hann_spec_first M HM).
  replace (M - 1)%nat with (M - 1 - 0)%nat by lia.
  apply hann_spec_mirror; lia.
Qed.

Lemma Rsum_zeros (l : list R) : Forall (fun x => x = 0%R) l -> Rsum l = 0%R.
Proof.
  induction 1 as [|x l Hx _ IH]; [reflexivity|].
  change (Rsum (x :: l)) with (x + Rsum l)%R. rewrite Hx, IH. lra.
Qed.

(** X7. The Hann window of [M >= 2] points has [M] weights, all between 0
    and 1, is symmetric, and is zero at both ends; for one point it is [1].
    So the first and the last sample of a chunk never contribute, and a
    chunk of two samples has the floor power of -100 dB in both bins
    whatever the samples are. *)
Theorem X7_hann_window (M : nat) (HM : (2 <= M)%nat) :
  length (hann M) = M /\
  (forall j w, hann M !! j = Some w -> (0 <= w <= 1)%R) /\
  (forall j w, (j < M)%nat -> hann M !! j = Some w ->
               hann M !! (M - 1 - j)%nat = Some w) /\
  (exists w, hann M !! 0%nat = Some w /\ w = 0%R) /\
  (exists w, hann M !! (M - 1)%nat = Some w /\ w = 0%R) /\
  hann 1 = [1%R] /\
  (forall (c : Config) (a b : R), sample_rate c <> 0%Z ->
     exists freq p0 p1,
       analyze_frequency_spectrum c [Fin a; Fin b] = Ok (freq, [Fin p0; Fin p1]) /\
       p0 = (-100)%R /\ p1 = (-100)%R).
Proof.
  split; [apply hann_length|]. split; [|split; [|split; [|split; [|split]]]].
  - intros j w Hj. pose proof (lookup_lt_Some _ _ _ Hj) as Hlt.
    rewrite hann_length in Hlt. rewrite hann_lookup in Hj by assumption.
    injection Hj as <-. apply hann_spec_range.
  - intros j w Hlt Hj. rewrite hann_lookup in Hj by assumption.
    injection Hj as <-. rewrite hann_lookup by lia.
    now rewrite hann_spec_mirror.
  - exists (hann_spec M 0). split; [apply hann_lookup; lia|].
    now apply hann_spec_first.
  - exists (hann_spec M (M - 1)). split; [apply hann_lookup; lia|].
    now apply hann_spec_last.
  - reflexivity.
  - intros c a b Hsr.
    pose proof (analyze_finite c [a; b] ltac:(discriminate) Hsr) as Ha.
    cbn [length Nat.div Nat.divmod fst Nat.add seq map] in Ha.
    change (map Fin [a; b]) with [Fin a; Fin b] in Ha.
    eexists _, _, _. split; [exact Ha|].
    assert (Hw : windowed_spec [a; b] = [(hann_spec 2 0 * a)%R; (hann_spec 2 1 * b)%R])
      by reflexivity.
    assert (H0 : hann_spec 2 0 = 0%R) by (apply hann_spec_first; lia).
    assert (H1 : hann_spec 2 1 = 0%R) by (apply (hann_spec_last 2); lia).
    assert (Hz : forall k, power_db_spec [a; b] k = (-100)%R).
    { intros k. unfold power_db_spec. cbv zeta. rewrite Hw, H0, H1.
      unfold dft_re, dft_im. cbn [imap Rsum fold_right length].
      unfold compose. cbn beta.
      match goal with
      | |- (10 * log10 ?e)%R = _ =>
          replace e with floor_const
            by (unfold floor_const; generalize 1e-10%R; intros fl; ring)
      end.
      rewrite log10_floor. lra. }
    split; apply Hz.
Qed.

Lemma X7_hann_window_witness :
  (2 <= 3)%nat /\ length (hann 3) = 3%nat /\
  exists w, hann 3 !! 2%nat = Some w /\ w = 0%R.
Proof.
  split; [lia|].
  destruct (X7_hann_window 3 ltac:(lia)) as (Hl & _ & _ & _ & Hlast & _).
  split; [exact Hl|exact Hlast].
Defined.

Lemma log10_le (x y : R) : (0 < x)%R -> (x <= y)%R -> (log10 x <= log10 y)%R.
Proof.
  intros Hx Hxy. unfold log10. pose proof ln10_pos as H10.
  apply Rmult_le_compat_r; [left; now apply Rinv_0_lt_compat|].
  destruct Hxy as [Hlt| ->]; [left; now apply ln_increasing|right; reflexivity].
Qed.

Lemma power_db_spec_floor (samples : list R) (k : nat) :
  (-100 <= power_db_spec samples k)%R.
Proof.
  unfold power_db_spec. cbv zeta.
  set (re := dft_re _ k). set (im := dft_im _ k).
  assert (Hlog : (log10 floor_const <= log10 (re ^ 2 + im ^ 2 + 1e-10))%R).
  { apply log10_le; [apply floor_const_pos|]. unfold floor_const.
    pose proof (pow2_ge_0 re). pose proof (pow2_ge_0 im). lra. }
  rewrite log10_floor in Hlog. lra.
Qed.

Lemma windowed_spec_zeros (samples : list R) :
  Forall (fun x => x = 0%R) samples ->
  Forall (fun x => x = 0%R) (windowed_spec samples).
Proof.
  intros Hz. unfold windowed_spec. apply Forall_forall. intros w Hw.
  apply elem_of_lookup_imap_1 in Hw. destruct Hw as (j & x & -> & Hx).
  rewrite Forall_forall in Hz. rewrite (Hz x); [lra|].
  eapply list_elem_of_lookup_2; eauto.
Qed.

Lemma imap_zeros (g : nat -> R) (w : list R) :
  Forall (fun x => x = 0%R) w ->
  Forall (fun x => x = 0%R) (imap (fun j wj => (wj * g j)%R) w).
Proof.
  intros Hz. apply Forall_forall. intros y Hy.
  apply elem_of_lookup_imap_1 in Hy. destruct Hy as (j & x & -> & Hx).
  rewrite Forall_forall in Hz. rewrite (Hz x); [lra|].
  eapply list_elem_of_lookup_2; eauto.
Qed.

(** X8. For a chunk of finite samples every power value is finite and at
    least -100 dB, the value of the floor; for a silent chunk every power
    value is exactly -100 dB. *)
Theorem X8_power_floor (c : Config) (samples : list R)
    (Hne : samples <> []) (Hsr : sample_rate c <> 0%Z) :
  exists freq psd_db,
    analyze_frequency_spectrum c (map Fin samples) = Ok (freq, psd_db) /\
    (forall k p, psd_db !! k = Some p ->
       exists r, p = Fin r /\ (-100 <= r)%R) /\
    (Forall (fun x => x = 0%R) samples ->
     forall k p, psd_db !! k = Some p -> p = Fin (-100)).
Proof.
  eexists _, _. split; [now apply analyze_finite|]. split.
  - intros k p Hk. pose proof (lookup_lt_Some _ _ _ Hk) as Hlt.
    rewrite length_map, length_seq in Hlt.
    rewrite lookup_map_seq in Hk by assumption. injection Hk as <-.
    eexists. split; [reflexivity|]. apply power_db_spec_floor.
  - intros Hz k p Hk. pose proof (lookup_lt_Some _ _ _ Hk) as Hlt.
    rewrite length_map, length_seq in Hlt.
    rewrite lookup_map_seq in Hk by assumption. injection Hk as <-.
    f_equal. unfold power_db_spec. cbv zeta.
    pose proof (windowed_spec_zeros samples Hz) as Hw.
    unfold dft_re, dft_im.
    rewrite !Rsum_zeros by (now apply imap_zeros).
    replace (0 ^ 2 + 0 ^ 2 + 1e-10)%R with floor_const
      by (unfold floor_const; lra).
    rewrite log10_floor. lra.
Qed.

Lemma X8_power_floor_witness :
  exists freq psd_db,
    analyze_frequency_spectrum (mkConfig 4 1 ["raw"]) (map Fin [0; 0; 0; 0]%R)
      = Ok (freq, psd_db) /\
    forall k p, psd_db !! k = Some p -> p = Fin (-100).
Proof.
  destruct (X8_power_floor (mkConfig 4 1 ["raw"]) [0; 0; 0; 0]%R
              ltac:(discriminate) ltac:(discriminate))
    as (freq & psd_db & Ha & _ & Hz).
  exists freq, psd_db. split; [exact Ha|].
  apply Hz. repeat constructor.
Defined.

(** ** Levels of a chunk *)

Lemma xmax_fin (a b : R) : xmax (Fin a) (Fin b) = Fin (Rmax a b).
Proof.
  cbn. unfold Rltb, Rmax.
  destruct (Rlt_dec a b), (Rle_dec a b); try reflexivity; try (exfalso; lra).
  f_equal. lra.
Qed.

Lemma fold_xmax_fin (l : list R) (a : R) :
  fold_left xmax (map Fin l) (Fin a) = Fin (fold_left Rmax l a).
Proof.
  revert a. induction l as [|x l IH]; intros a; [reflexivity|].
  cbn [map fold_left]. rewrite xmax_fin. apply IH.
Qed.

Lemma fold_Rmax_ge (l : list R) (a : R) :
  (a <= fold_left Rmax l a)%R /\
  (forall x, In x l -> (x <= fold_left Rmax l a)%R) /\
  (fold_left Rmax l a = a \/ In (fold_left Rmax l a) l).
Proof.
  revert a. induction l as [|x l IH]; intros a; cbn [fold_left].
  - split; [lra|]. split; [intros x []|now left].
  - destruct (IH (Rmax a x)) as (H1 & H2 & H3).
    pose proof (Rmax_l a x). pose proof (Rmax_r a x).
    split; [lra|]. split.
    + intros y [<-|Hy]; [lra|auto].
    + destruct H3 as [H3|H3]; [|right; now right].
      rewrite H3. unfold Rmax. destruct (Rle_dec a x); [right; now left|now left].
Qed.

Lemma peak_finite (l : list R) :
  l <> [] ->
  exists p, np_max (map xabs (map Fin l)) = Ok (Fin p) /\
            (forall x, In x l -> (Rabs x <= p)%R) /\
            (exists x, In x l /\ p = Rabs x).
Proof.
  destruct l as [|x0 xs]; [congruence|]. intros _.
  exists (fold_left Rmax (map Rabs xs) (Rabs x0)). split.
  - cbn [map np_max xabs]. rewrite <- fold_xmax_fin. f_equal. f_equal.
    rewrite !map_map. reflexivity.
  - destruct (fold_Rmax_ge (map Rabs xs) (Rabs x0)) as (H1 & H2 & H3). split.
    + intros x [<-|Hx]; [exact H1|]. apply H2. now apply in_map.
    + destruct H3 as [H3|H3].
      * exists x0. split; [now left|exact H3].
      * apply in_map_iff in H3. destruct H3 as (x & Hx & Hin).
        exists x. split; [now right|now rewrite Hx].
Qed.

Lemma mean_square_finite (l : list R) :
  l <> [] ->
  xmean (map xsquare (map Fin l))
  = Fin (Rsum (map (fun x => x * x) l) / INR (length l))%R.
Proof.
  intros Hne. unfold xmean. rewrite !length_map.
  replace (map xsquare (map Fin l)) with (map Fin (map (fun x => x * x)%R l))
    by (rewrite !map_map; reflexivity).
  rewrite xsum_fin_Rsum. cbn [xdiv].
  rewrite Reqb_false; [reflexivity|].
  apply not_0_INR. destruct l; cbn; [congruence|lia].
Qed.

Lemma sum_squares_bound (l : list R) (p : R) :
  (forall x, In x l -> (Rabs x <= p)%R) ->
  (0 <= Rsum (map (fun x => x * x) l) <= INR (length l) * (p * p))%R.
Proof.
  induction l as [|x l IH]; intros Hb.
  - cbn. lra.
  - change (Rsum (map (fun x => x * x) (x :: l)))%R
      with (x * x + Rsum (map (fun x => x * x) l))%R.
    rewrite length_cons, S_INR.
    destruct IH as [IH0 IH1]; [intros y Hy; apply Hb; now right|].
    assert (Hx : (Rabs x <= p)%R) by (apply Hb; now left).
    assert (Hsq : (x * x <= p * p)%R).
    { unfold Rabs in Hx. destruct (Rcase_abs x); nra. }
    pose proof (Rle_0_sqr x) as H0. unfold Rsqr in H0. nra.
Qed.

Lemma to_db20_pos (x : R) :
  (0 < x)%R -> to_db20 (Fin x) = Fin (20 * log10 x).
Proof.
  intros Hx. unfold to_db20, xlog10.
  rewrite Rltb_false by lra. now rewrite Reqb_false by lra.
Qed.

Lemma to_db20_zero : to_db20 (Fin 0) = NInf.
Proof.
  unfold to_db20, xlog10. rewrite Rltb_false by lra.
  rewrite Reqb_true by reflexivity. cbn. unfold signed_inf.
  rewrite Reqb_false by lra. now rewrite Rltb_false by lra.
Qed.

(** X9. For a nonempty chunk of finite samples: the peak is the largest
    absolute sample; the RMS is between 0 and the peak, so [rms_db] is at
    least -200 and at most [peak_db]; samples within [-1, 1] give a peak of
    at most 1; the crest factor is [peak / (rms + 1e-10)], never negative;
    and [crest_factor_db] is minus infinity exactly for a chunk whose peak
    is zero, finite otherwise. *)
Theorem X9_levels_of_a_chunk (l : list R) (freq psd_db : list xreal)
    (st : Stats) (Hne : l <> [])
    (Hst : compute_statistics (map Fin l) freq psd_db = Ok st) :
  exists r p,
    rms st = Fin r /\ peak st = Fin p /\
    (0 <= r <= p)%R /\
    (forall x, In x l -> (Rabs x <= p)%R) /\
    (exists x, In x l /\ p = Rabs x) /\
    ((forall x, In x l -> (-1 <= x <= 1)%R) -> (p <= 1)%R) /\
    rms_db st = Fin (20 * log10 (r + 1e-10)) /\
    peak_db st = Fin (20 * log10 (p + 1e-10)) /\
    (-200 <= 20 * log10 (r + 1e-10) <= 20 * log10 (p + 1e-10))%R /\
    crest_factor st = Fin (p / (r + 1e-10)) /\
    (0 <= p / (r + 1e-10))%R /\
    (p = 0%R -> crest_factor_db st = NInf) /\
    (p <> 0%R -> crest_factor_db st = Fin (20 * log10 (p / (r + 1e-10)))).
Proof.
  destruct (compute_statistics_levels _ _ _ _ Hst)
    as (pk & Hpk & Hrms & Hdb & Hpeak & Hpdb & Hcf & Hcfdb & _).
  destruct (peak_finite l Hne) as (p & Hp & Hbound & Hmem).
  rewrite Hp in Hpk. injection Hpk as <-.
  set (n := INR (length l)).
  assert (Hn : (0 < n)%R).
  { apply lt_0_INR. destruct l; cbn; [congruence|lia]. }
  destruct (sum_squares_bound l p Hbound) as [HS0 HS1]. fold n in HS1.
  set (S := Rsum (map (fun x => (x * x)%R) l)) in *.
  assert (Hp0 : (0 <= p)%R).
  { destruct Hmem as (x & _ & ->). apply Rabs_pos. }
  assert (Hm0 : (0 <= S / n)%R).
  { apply Rmult_le_pos; [exact HS0|]. left. now apply Rinv_0_lt_compat. }
  assert (Hm1 : (S / n <= p * p)%R).
  { apply Rmult_le_reg_r with n; [exact Hn|]. unfold Rdiv.
    rewrite Rmult_assoc, Rinv_l by lra. lra. }
  assert (Hr : rms st = Fin (sqrt (S / n))).
  { rewrite Hrms, mean_square_finite by assumption. cbn [xsqrt].
    fold S n. now rewrite Rltb_false by lra. }
  assert (Hrp : (0 <= sqrt (S / n) <= p)%R).
  { split; [apply sqrt_pos|]. rewrite <- (sqrt_square p) by assumption.
    apply sqrt_le_1; nra. }
  set (r := sqrt (S / n)) in *.
  pose proof floor_const_pos as Hfl. unfold floor_const in Hfl.
  exists r, p. split; [exact Hr|]. split; [exact Hpeak|].
  split; [exact Hrp|]. split; [exact Hbound|]. split; [exact Hmem|].
  split.
  { intros H1. destruct Hmem as (x & Hx & ->). specialize (H1 x Hx).
    unfold Rabs. destruct (Rcase_abs x); lra. }
  assert (Hrdb : rms_db st = Fin (20 * log10 (r + 1e-10))).
  { rewrite Hdb, Hr. cbn [xadd]. unfold floor_const. apply to_db20_pos. lra. }
  assert (Hpdb' : peak_db st = Fin (20 * log10 (p + 1e-10))).
  { rewrite Hpdb. cbn [xadd]. unfold floor_const. apply to_db20_pos. lra. }
  split; [exact Hrdb|]. split; [exact Hpdb'|]. split.
  { pose proof (log10_le floor_const (r + 1e-10)) as H1.
    pose proof (log10_le (r + 1e-10) (p + 1e-10)) as H2.
    rewrite log10_floor in H1. unfold floor_const in H1.
    specialize (H1 ltac:(lra) ltac:(lra)). specialize (H2 ltac:(lra) ltac:(lra)).
    lra. }
  assert (Hc : crest_factor st = Fin (p / (r + 1e-10))).
  { rewrite Hcf, Hr. cbn [xadd xdiv]. unfold floor_const.
    now rewrite Reqb_false by lra. }
  assert (Hc0 : (0 <= p / (r + 1e-10))%R).
  { apply Rmult_le_pos; [exact Hp0|]. left. apply Rinv_0_lt_compat. lra. }
  split; [exact Hc|]. split; [exact Hc0|]. split.
  - intros ->. rewrite Hcfdb, Hc.
    replace (0 / (r + 1e-10))%R with 0%R by (unfold Rdiv; now rewrite Rmult_0_l).
    apply to_db20_zero.
  - intros Hpne. rewrite Hcfdb, Hc. apply to_db20_pos.
    apply Rmult_lt_0_compat; [lra|]. apply Rinv_0_lt_compat. lra.
Qed.

Lemma X9_levels_of_a_chunk_witness :
  exists st r p,
    compute_statistics (map Fin [0.5; -1]%R) [Fin 0] [Fin 1] = Ok st /\
    rms st = Fin r /\ peak st = Fin p /\ (0 <= r <= p)%R /\ (p <= 1)%R.
Proof.
  destruct (compute_statistics_ok (map Fin [0.5; -1]%R) [Fin 0] [Fin 1]
              ltac:(discriminate) eq_refl ltac:(discriminate))
    as (pk & roll & _ & _ & _ & Hst).
  destruct (X9_levels_of_a_chunk [0.5; -1]%R [Fin 0] [Fin 1] _
              ltac:(discriminate) Hst)
    as (r & p & Hr & Hp & Hrp & _ & _ & H1 & _).
  eexists _, r, p. split; [exact Hst|]. split; [exact Hr|].
  split; [exact Hp|]. split; [exact Hrp|].
  apply H1. intros x [<-|[<-|[]]]; lra.
Defined.

(** ** The frequency axis and the bands *)

Lemma bin_frequency_range (sr : Z) (n k : nat) :
  (0 < n)%nat -> (0 < sr)%Z -> (k < n / 2 + 1)%nat ->
  (0 <= bin_frequency sr n k <= IZR sr / 2)%R.
Proof.
  intros Hn Hsr Hk. unfold bin_frequency.
  pose proof (INR_pos_nonzero n Hn) as Hn'.
  assert (Hsr' : (0 < IZR sr)%R) by (now apply IZR_lt).
  assert (H2k : (2 * INR k <= INR n)%R).
  { replace 2%R with (INR 2) by reflexivity. rewrite <- mult_INR.
    apply le_INR. pose proof (Nat.Div0.mul_div_le n 2). lia. }
  pose proof (pos_INR k) as Hk0.
  assert (Hinv : (0 < / INR n)%R) by (now apply Rinv_0_lt_compat).
  split.
  - unfold Rdiv. apply Rmult_le_pos; [|lra]. apply Rmult_le_pos; lra.
  - apply Rmult_le_reg_r with (INR n); [exact Hn'|].
    unfold Rdiv. rewrite Rmult_assoc, Rinv_l by lra. nra.
Qed.

(** X10. The frequency axis of a chunk of [n] samples starts at 0 Hz,
    advances by [sample_rate / n] from one bin to the next, never exceeds
    half the sample rate, and for an even [n] ends exactly there. *)
Theorem X10_frequency_axis (c : Config) (samples : list R)
    (Hne : samples <> []) (Hsr : (0 < sample_rate c)%Z) :
  exists freq psd_db,
    analyze_frequency_spectrum c (map Fin samples) = Ok (freq, psd_db) /\
    (forall k f, freq !! k = Some f ->
       exists r, f = Fin r /\ (0 <= r <= IZR (sample_rate c) / 2)%R) /\
    (exists r, freq !! 0%nat = Some (Fin r) /\ r = 0%R) /\
    (forall k f f', freq !! k = Some (Fin f) -> freq !! (S k) = Some (Fin f') ->
       (f' - f = IZR (sample_rate c) / INR (length samples))%R) /\
    (Nat.even (length samples) = true ->
     exists r, freq !! (length samples / 2)%nat = Some (Fin r) /\
               r = (IZR (sample_rate c) / 2)%R).
Proof.
  assert (Hn : (0 < length samples)%nat).
  { destruct samples; cbn; [congruence|lia]. }
  pose proof (INR_pos_nonzero _ Hn) as Hn'.
  eexists _, _. split; [apply analyze_finite; [assumption|lia]|].
  set (m := (length samples / 2 + 1)%nat).
  assert (Hlk : forall k f,
            map (fun k0 => Fin (bin_frequency (sample_rate c) (length samples) k0))
              (seq 0 m) !! k = Some f ->
            (k < m)%nat /\
            f = Fin (bin_frequency (sample_rate c) (length samples) k)).
  { intros k f Hk. pose proof (lookup_lt_Some _ _ _ Hk) as Hlt.
    rewrite length_map, length_seq in Hlt. split; [exact Hlt|].
    rewrite lookup_map_seq in Hk by assumption. now injection Hk as <-. }
  split; [|split; [|split]].
  - intros k f Hk. destruct (Hlk k f Hk) as [Hlt ->].
    eexists. split; [reflexivity|]. now apply bin_frequency_range.
  - exists (bin_frequency (sample_rate c) (length samples) 0).
    split; [rewrite lookup_map_seq by (unfold m; lia); reflexivity|].
    unfold bin_frequency. cbn [INR]. unfold Rdiv. now rewrite !Rmult_0_l.
  - intros k f f' Hk Hk'.
    destruct (Hlk _ _ Hk) as [_ Hf]. destruct (Hlk _ _ Hk') as [_ Hf'].
    injection Hf as ->. injection Hf' as ->.
    unfold bin_frequency. rewrite S_INR. field. lra.
  - intros Heven.
    exists (bin_frequency (sample_rate c) (length samples) (length samples / 2)).
    split; [rewrite lookup_map_seq by (unfold m; lia); reflexivity|].
    unfold bin_frequency.
    apply Nat.even_spec in Heven. destruct Heven as [h Hh].
    rewrite Hh at 1 2. replace (2 * h / 2)%nat with h
      by (symmetry; rewrite Nat.mul_comm; apply Nat.div_mul; lia).
    rewrite Hh in Hn'. rewrite mult_INR in *. cbn [INR] in *.
    replace (1 + 1)%R with 2%R in * by lra. field. lra.
Qed.

Lemma X10_frequency_axis_witness :
  exists freq psd_db,
    analyze_frequency_spectrum (mkConfig 48000 1 ["raw"])
      (map Fin [0; 1; 0; -1]%R) = Ok (freq, psd_db) /\
    exists r, freq !! 2%nat = Some (Fin r) /\ r = 24000%R.
Proof.
  destruct (X10_frequency_axis (mkConfig 48000 1 ["raw"]) [0; 1; 0; -1]%R
              ltac:(discriminate) ltac:(cbn; lia))
    as (freq & psd_db & Ha & _ & _ & _ & Hny).
  exists freq, psd_db. split; [exact Ha|].
  destruct (Hny eq_refl) as (r & Hr & ->).
  exists (IZR 48000 / 2)%R. split; [exact Hr|]. cbn. lra.
Defined.

Lemma existsb_all_false {A : Type} (f : A -> bool) (l : list A) :
  (forall x, In x l -> f x = false) -> existsb f l = false.
Proof.
  induction l as [|x l IH]; intros H; [reflexivity|]. cbn.
  rewrite (H x) by (now left). apply IH. intros y Hy. apply H. now right.
Qed.

Lemma select_bins_all (band : xreal -> bool) (freq psd_db : list xreal) :
  (forall f, In f freq -> band f = true) -> length freq = length psd_db ->
  select_bins band freq psd_db = psd_db.
Proof.
  revert psd_db. induction freq as [|f fs IH]; intros [|p ps] Hall Hlen;
    cbn in *; try discriminate; [reflexivity|].
  rewrite (Hall f) by (now left). f_equal. apply IH; [|lia].
  intros g Hg. apply Hall. now right.
Qed.

Lemma xmean_fin (ps : list R) :
  ps <> [] -> xmean (map Fin ps) = Fin (Rsum ps / INR (length ps)).
Proof.
  intros Hne. unfold xmean. rewrite length_map, xsum_fin_Rsum. cbn [xdiv].
  rewrite Reqb_false; [reflexivity|].
  apply not_0_INR. destruct ps; cbn; [congruence|lia].
Qed.

Lemma Rsum_lower (ps : list R) (lo : R) :
  (forall p, In p ps -> (lo <= p)%R) -> (INR (length ps) * lo <= Rsum ps)%R.
Proof.
  induction ps as [|p ps IH]; intros H.
  - cbn. lra.
  - change (Rsum (p :: ps)) with (p + Rsum ps)%R. rewrite length_cons, S_INR.
    specialize (H p (or_introl eq_refl)) as Hp.
    specialize (IH (fun q Hq => H q (or_intror Hq))). lra.
Qed.

(** X11. At a sample rate below 2000 Hz every bin lies in the low band:
    the mid, bird and high powers are minus infinity, the low power is the
    finite mean of the whole spectrum (at least -100 dB), so the bird-to-low
    SNR is minus infinity and the bird-to-mid SNR is NaN; analysis and
    statistics both return. *)
Theorem X11_low_sample_rate_bands (c : Config) (samples : list R)
    (Hne : samples <> []) (Hsr : (0 < sample_rate c < 2000)%Z) :
  exists freq psd_db st,
    analyze_frequency_spectrum c (map Fin samples) = Ok (freq, psd_db) /\
    compute_statistics (map Fin samples) freq psd_db = Ok st /\
    mid_freq_power st = NInf /\ bird_freq_power st = NInf /\
    high_freq_power st = NInf /\
    (exists r, low_freq_power st = Fin r /\ (-100 <= r)%R) /\
    low_freq_power st = xmean psd_db /\
    snr_bird_to_low st = NInf /\ snr_bird_to_mid st = NaN.
Proof.
  assert (Hn : (0 < length samples)%nat).
  { destruct samples; cbn; [congruence|lia]. }
  set (m := (length samples / 2 + 1)%nat).
  set (fs := map (fun k => bin_frequency (sample_rate c) (length samples) k) (seq 0 m)).
  set (ps := map (fun k => power_db_spec samples k) (seq 0 m)).
  assert (Ha : analyze_frequency_spectrum c (map Fin samples)
               = Ok (map Fin fs, map Fin ps)).
  { rewrite analyze_finite by (assumption || lia).
    unfold fs, ps. now rewrite !map_map. }
  assert (Hfs : forall f, In f (map Fin fs) ->
            exists r, f = Fin r /\ (0 <= r < 1000)%R).
  { intros f Hf. apply in_map_iff in Hf. destruct Hf as (r & <- & Hr).
    unfold fs in Hr. apply in_map_iff in Hr. destruct Hr as (k & <- & Hk).
    apply in_seq in Hk. eexists. split; [reflexivity|].
    pose proof (bin_frequency_range (sample_rate c) (length samples) k
                  Hn ltac:(lia) ltac:(unfold m in Hk; lia)) as [H0 H1].
    assert (IZR (sample_rate c) < 2000)%R by (apply IZR_lt; lia). lra. }
  assert (Hlenfp : length (map Fin fs) = length (map Fin ps)).
  { unfold fs, ps. now rewrite !length_map. }
  assert (Hpsne : ps <> []).
  { unfold ps, m. rewrite Nat.add_1_r. discriminate. }
  destruct (compute_statistics_ok (map Fin samples) (map Fin fs) (map Fin ps))
    as (pk & roll & _ & _ & _ & Hst).
  { destruct samples; [congruence|discriminate]. }
  { exact Hlenfp. }
  { destruct ps; [congruence|discriminate]. }
  assert (Hlow : forall f, In f (map Fin fs) -> low_band f = true).
  { intros f Hf. destruct (Hfs f Hf) as (r & -> & Hr).
    unfold low_band. cbn. apply Rltb_true. lra. }
  assert (Hmid : existsb mid_band (map Fin fs) = false).
  { apply existsb_all_false. intros f Hf. destruct (Hfs f Hf) as (r & -> & Hr).
    unfold mid_band. cbn. now rewrite Rleb_false by lra. }
  assert (Hbird : existsb bird_band (map Fin fs) = false).
  { apply existsb_all_false. intros f Hf. destruct (Hfs f Hf) as (r & -> & Hr).
    unfold bird_band. cbn. now rewrite Rleb_false by lra. }
  assert (Hhigh : existsb high_band (map Fin fs) = false).
  { apply existsb_all_false. intros f Hf. destruct (Hfs f Hf) as (r & -> & Hr).
    unfold high_band. cbn. apply Rltb_false. lra. }
  assert (Hlowp : band_power_spec low_band (map Fin fs) (map Fin ps)
                  = Fin (Rsum ps / INR (length ps))).
  { unfold band_power_spec.
    replace (existsb low_band (map Fin fs)) with true.
    - rewrite select_bins_all by assumption. now apply xmean_fin.
    - symmetry. apply existsb_exists. unfold fs, m. rewrite Nat.add_1_r.
      cbn [seq map]. eexists. split; [now left|]. apply Hlow.
      unfold fs, m. rewrite Nat.add_1_r. now left. }
  assert (Hmidp : band_power_spec mid_band (map Fin fs) (map Fin ps) = NInf).
  { unfold band_power_spec. now rewrite Hmid. }
  assert (Hbirdp : band_power_spec bird_band (map Fin fs) (map Fin ps) = NInf).
  { unfold band_power_spec. now rewrite Hbird. }
  assert (Hhighp : band_power_spec high_band (map Fin fs) (map Fin ps) = NInf).
  { unfold band_power_spec. now rewrite Hhigh. }
  eexists _, _, _. split; [exact Ha|]. split; [exact Hst|].
  cbn [mid_freq_power bird_freq_power high_freq_power low_freq_power
       snr_bird_to_low snr_bird_to_mid].
  rewrite Hmidp, Hbirdp, Hhighp, Hlowp.
  do 3 (split; [reflexivity|]).
  split.
  - eexists. split; [reflexivity|].
    assert (Hl : (0 < INR (length ps))%R).
    { apply lt_0_INR. destruct ps; cbn; [congruence|lia]. }
    pose proof (Rsum_lower ps (-100)) as Hs.
    assert (Hge : forall p, In p ps -> (-100 <= p)%R).
    { intros p Hp. unfold ps in Hp. apply in_map_iff in Hp.
      destruct Hp as (k & <- & _). apply power_db_spec_floor. }
    specialize (Hs Hge).
    apply Rmult_le_reg_r with (INR (length ps)); [exact Hl|].
    unfold Rdiv. rewrite Rmult_assoc, Rinv_l by lra. lra.
  - split; [now rewrite xmean_fin|]. split; reflexivity.
Qed.

Lemma X11_low_sample_rate_bands_witness :
  exists freq psd_db st,
    analyze_frequency_spectrum (mkConfig 4 1 ["raw"]) (map Fin [0; 1; 0; -1]%R)
      = Ok (freq, psd_db) /\
    compute_statistics (map Fin [0; 1; 0; -1]%R) freq psd_db = Ok st /\
    snr_bird_to_low st = NInf /\ snr_bird_to_mid st = NaN.
Proof.
  destruct (X11_low_sample_rate_bands (mkConfig 4 1 ["raw"]) [0; 1; 0; -1]%R
              ltac:(discriminate) ltac:(cbn; lia))
    as (freq & psd_db & st & Ha & Hst & _ & _ & _ & _ & _ & H1 & H2).
  exists freq, psd_db, st. auto.
Defined.

(** ** Rolloff and centroid on decibel values *)

Lemma power_db_spec_silent (samples : list R) (k : nat) :
  Forall (fun x => x = 0%R) samples -> power_db_spec samples k = (-100)%R.
Proof.
  intros Hz. unfold power_db_spec. cbv zeta.
  pose proof (windowed_spec_zeros samples Hz) as Hw.
  unfold dft_re, dft_im.
  rewrite !Rsum_zeros by (now apply imap_zeros).
  replace (0 ^ 2 + 0 ^ 2 + 1e-10)%R with floor_const
    by (unfold floor_const; lra).
  rewrite log10_floor. lra.
Qed.

Lemma Rleb_false_inv (a b : R) : Rleb a b = false -> (b < a)%R.
Proof. unfold Rleb. destruct (Rle_dec a b); [discriminate|intros _; lra]. Qed.

Lemma cumulative_fin (ps : list R) (i : nat) :
  cumulative (map Fin ps) i = Fin (Rsum (take (S i) ps)).
Proof. unfold cumulative. now rewrite firstn_map, xsum_fin_Rsum. Qed.

Lemma reaches_fin (ps : list R) (i : nat) :
  reaches (map Fin ps) i = Rleb (0.85 * Rsum ps) (Rsum (take (S i) ps)).
Proof. unfold reaches. now rewrite cumulative_fin, xsum_fin_Rsum. Qed.

Lemma Rsum_nonpos (l : list R) :
  (forall p, In p l -> (p <= 0)%R) -> (Rsum l <= 0)%R.
Proof.
  induction l as [|p l IH]; intros H; [cbn; lra|].
  change (Rsum (p :: l)) with (p + Rsum l)%R.
  specialize (H p (or_introl eq_refl)) as Hp.
  specialize (IH (fun q Hq => H q (or_intror Hq))). lra.
Qed.

Lemma Rsum_nonneg (l : list R) :
  (forall p, In p l -> (0 <= p)%R) -> (0 <= Rsum l)%R.
Proof.
  induction l as [|p l IH]; intros H; [cbn; lra|].
  change (Rsum (p :: l)) with (p + Rsum l)%R.
  specialize (H p (or_introl eq_refl)) as Hp.
  specialize (IH (fun q Hq => H q (or_intror Hq))). lra.
Qed.

Lemma Rsum_app (l1 l2 : list R) : Rsum (l1 ++ l2) = (Rsum l1 + Rsum l2)%R.
Proof.
  induction l1 as [|x l1 IH]; [change (Rsum l2 = 0 + Rsum l2)%R; lra|].
  change (Rsum ((x :: l1) ++ l2)) with (x + Rsum (l1 ++ l2))%R.
  change (Rsum (x :: l1)) with (x + Rsum l1)%R. rewrite IH. lra.
Qed.

Lemma In_take {A : Type} (n : nat) (l : list A) (x : A) :
  In x (take n l) -> In x l.
Proof.
  revert n. induction l as [|y l IH]; intros [|n] H; cbn in *; try tauto.
  destruct H as [H|H]; [now left|right; eauto].
Qed.

Lemma Rsum_take_mono (l : list R) (a b : nat) :
  (forall p, In p l -> (0 <= p)%R) -> (a <= b)%nat ->
  (Rsum (take a l) <= Rsum (take b l))%R.
Proof.
  revert a b. induction l as [|x l IH]; intros a b Hpos Hab.
  - destruct a, b; cbn; lra.
  - destruct a as [|a].
    + apply Rsum_nonneg. intros p Hp. apply Hpos. eapply In_take; eauto.
    + destruct b as [|b]; [lia|].
      change (take (S a) (x :: l)) with (x :: take a l).
      change (take (S b) (x :: l)) with (x :: take b l).
      change (x + Rsum (take a l) <= x + Rsum (take b l))%R.
      specialize (IH a b (fun q Hq => Hpos q (or_intror Hq)) ltac:(lia)). lra.
Qed.

(** With power values that are all at most zero the cumulative sums only
    fall, so the only bin that can reach 85% of the (negative) total is the
    first one. *)
Lemma rolloff_nonpositive_power (fs ps : list R) (v : xreal) :
  (forall p, In p ps -> (p <= 0)%R) ->
  rolloff_spec (map Fin fs) (map Fin ps) v ->
  v = Fin 0 \/ map Fin fs !! 0%nat = Some v.
Proof.
  intros Hneg [(i & Hi & Hr & Hfirst & Hv)|[_ ->]]; [|now left].
  right. destruct i as [|i]; [exact Hv|]. exfalso.
  specialize (Hfirst 0%nat ltac:(lia)).
  rewrite reaches_fin in Hr, Hfirst.
  destruct ps as [|p0 rest]; [cbn in Hi; lia|].
  apply Rleb_spec in Hr. apply Rleb_false_inv in Hfirst.
  change (take 1 (p0 :: rest)) with [p0] in Hfirst.
  change (Rsum [p0]) with (p0 + 0)%R in Hfirst.
  change (take (S (S i)) (p0 :: rest)) with (p0 :: take (S i) rest) in Hr.
  change (Rsum (p0 :: take (S i) rest)) with (p0 + Rsum (take (S i) rest))%R in Hr.
  assert (Rsum (take (S i) rest) <= 0)%R; [|lra].
  apply Rsum_nonpos. intros p Hp. apply Hneg. right.
  eapply In_take; eauto.
Qed.

(** X12. When no power value of a chunk is above 0 dB, the spectral rolloff
    of the chunk is 0 Hz: the cumulative sum of the decibel values only
    falls, so the 85% threshold is met at the first bin (0 Hz) or nowhere
    (the sentinel 0). *)
Theorem X12_rolloff_of_nonpositive_power (c : Config) (samples : list R)
    (Hne : samples <> []) (Hsr : sample_rate c <> 0%Z)
    (Hneg : forall k, (k <= length samples / 2)%nat ->
              (power_db_spec samples k <= 0)%R) :
  exists freq psd_db st,
    analyze_frequency_spectrum c (map Fin samples) = Ok (freq, psd_db) /\
    compute_statistics (map Fin samples) freq psd_db = Ok st /\
    spectral_rolloff st = Fin 0.
Proof.
  set (m := (length samples / 2 + 1)%nat).
  set (fs := map (fun k => bin_frequency (sample_rate c) (length samples) k) (seq 0 m)).
  set (ps := map (fun k => power_db_spec samples k) (seq 0 m)).
  assert (Ha : analyze_frequency_spectrum c (map Fin samples)
               = Ok (map Fin fs, map Fin ps)).
  { rewrite analyze_finite by assumption.
    unfold fs, ps. now rewrite !map_map. }
  destruct (compute_statistics_ok (map Fin samples) (map Fin fs) (map Fin ps))
    as (pk & roll & _ & _ & Hspec & Hst).
  { destruct samples; [congruence|discriminate]. }
  { unfold fs, ps. now rewrite !length_map. }
  { unfold ps, m. rewrite Nat.add_1_r. discriminate. }
  eexists _, _, _. split; [exact Ha|]. split; [exact Hst|].
  cbn [spectral_rolloff].
  apply rolloff_nonpositive_power in Hspec.
  - destruct Hspec as [->|H0]; [reflexivity|].
    unfold fs, m in H0. rewrite Nat.add_1_r in H0. cbn in H0.
    injection H0 as <-. f_equal. unfold bin_frequency. cbn [INR].
    unfold Rdiv. now rewrite !Rmult_0_l.
  - intros p Hp. unfold ps in Hp. apply in_map_iff in Hp.
    destruct Hp as (k & <- & Hk). apply in_seq in Hk. apply Hneg.
    unfold m in Hk. lia.
Qed.

Lemma X12_rolloff_of_nonpositive_power_witness :
  exists freq psd_db st,
    analyze_frequency_spectrum (mkConfig 48000 1 ["raw"]) (map Fin [0; 0; 0; 0]%R)
      = Ok (freq, psd_db) /\
    compute_statistics (map Fin [0; 0; 0; 0]%R) freq psd_db = Ok st /\
    spectral_rolloff st = Fin 0.
Proof.
  apply (X12_rolloff_of_nonpositive_power (mkConfig 48000 1 ["raw"]) [0; 0; 0; 0]%R).
  - discriminate.
  - discriminate.
  - intros k _. rewrite power_db_spec_silent by (repeat constructor). lra.
Defined.

(** X13. When no power value is below zero, the rolloff is a true threshold:
    a bin is always found, its frequency is returned, every bin before it is
    below 85% of the total and every bin from it on reaches 85%. *)
Theorem X13_rolloff_of_nonnegative_power (fs ps : list R)
    (Hne : ps <> []) (Hlen : length fs = length ps)
    (Hpos : forall p, In p ps -> (0 <= p)%R) :
  exists i v,
    rolloff (map Fin fs) (map Fin ps) = Ok (Fin v) /\
    fs !! i = Some v /\ (i < length ps)%nat /\
    forall j, (j < length ps)%nat -> reaches (map Fin ps) j = (i <=? j)%nat.
Proof.
  destruct (rolloff_correct (map Fin fs) (map Fin ps)) as (v & Hr & Hspec).
  { destruct ps; [congruence|discriminate]. }
  { now rewrite !length_map. }
  assert (Hlast : reaches (map Fin ps) (length ps - 1) = true).
  { rewrite reaches_fin. apply Rleb_true.
    replace (S (length ps - 1)) with (length ps)
      by (destruct ps; cbn; [congruence|lia]).
    rewrite firstn_all. pose proof (Rsum_nonneg ps Hpos). lra. }
  destruct Hspec as [(i & Hi & Hreach & Hfirst & Hv)|[Hnone _]].
  - rewrite length_map in Hi.
    rewrite list_lookup_fmap in Hv.
    destruct (fs !! i) as [r|] eqn:Hfi; [|discriminate].
    injection Hv as <-.
    exists i, r. split; [exact Hr|]. split; [exact Hfi|]. split; [exact Hi|].
    intros j Hj. destruct (Nat.leb_spec i j) as [Hij|Hij].
    + rewrite reaches_fin in Hreach |- *. apply Rleb_spec in Hreach.
      apply Rleb_true.
      pose proof (Rsum_take_mono ps (S i) (S j) Hpos ltac:(lia)). lra.
    + now apply Hfirst.
  - exfalso. rewrite Hnone in Hlast; [discriminate|].
    rewrite length_map. destruct ps; cbn; [congruence|lia].
Qed.

Lemma X13_rolloff_of_nonnegative_power_witness :
  exists i v,
    rolloff (map Fin [0; 100; 200]%R) (map Fin [1; 8; 1]%R) = Ok (Fin v) /\
    [0; 100; 200]%R !! i = Some v /\ (i < 3)%nat.
Proof.
  destruct (X13_rolloff_of_nonnegative_power [0; 100; 200]%R [1; 8; 1]%R)
    as (i & v & Hr & Hv & Hi & _).
  - discriminate.
  - reflexivity.
  - intros p [<-|[<-|[<-|[]]]]; lra.
  - exists i, v. auto.
Defined.

Lemma zip_with_xmul_fin (fs ps : list R) :
  zip_with xmul (map Fin fs) (map Fin ps) = map Fin (zip_with Rmult fs ps).
Proof.
  revert ps. induction fs as [|f fs IH]; intros [|p ps]; cbn; try reflexivity.
  now rewrite IH.
Qed.

Lemma Rsum_weighted_bounds (fs ps : list R) (lo hi : R) :
  length fs = length ps ->
  (forall f, In f fs -> (lo <= f <= hi)%R) ->
  (forall p, In p ps -> (0 <= p)%R) ->
  (lo * Rsum ps <= Rsum (zip_with Rmult fs ps) <= hi * Rsum ps)%R.
Proof.
  revert ps. induction fs as [|f fs IH]; intros [|p ps] Hlen Hf Hp;
    try discriminate.
  - cbn. lra.
  - change (Rsum (p :: ps)) with (p + Rsum ps)%R.
    change (Rsum (zip_with Rmult (f :: fs) (p :: ps)))
      with (f * p + Rsum (zip_with Rmult fs ps))%R.
    specialize (IH ps ltac:(cbn in Hlen; lia)
                  (fun g Hg => Hf g (or_intror Hg))
                  (fun q Hq => Hp q (or_intror Hq))).
    specialize (Hf f (or_introl eq_refl)).
    specialize (Hp p (or_introl eq_refl)). nra.
Qed.

Lemma Rsum_weighted_bounds_neg (fs ps : list R) (lo hi : R) :
  length fs = length ps ->
  (forall f, In f fs -> (lo <= f <= hi)%R) ->
  (forall p, In p ps -> (p <= 0)%R) ->
  (hi * Rsum ps <= Rsum (zip_with Rmult fs ps) <= lo * Rsum ps)%R.
Proof.
  revert ps. induction fs as [|f fs IH]; intros [|p ps] Hlen Hf Hp;
    try discriminate.
  - cbn. lra.
  - change (Rsum (p :: ps)) with (p + Rsum ps)%R.
    change (Rsum (zip_with Rmult (f :: fs) (p :: ps)))
      with (f * p + Rsum (zip_with Rmult fs ps))%R.
    specialize (IH ps ltac:(cbn in Hlen; lia)
                  (fun g Hg => Hf g (or_intror Hg))
                  (fun q Hq => Hp q (or_intror Hq))).
    specialize (Hf f (or_introl eq_refl)).
    specialize (Hp p (or_introl eq_refl)). nra.
Qed.

Lemma Rsum_pos (l : list R) :
  l <> [] -> (forall p, In p l -> (0 < p)%R) -> (0 < Rsum l)%R.
Proof.
  destruct l as [|p l]; [congruence|]. intros _ H.
  change (Rsum (p :: l)) with (p + Rsum l)%R.
  specialize (H p (or_introl eq_refl)) as Hp.
  assert (0 <= Rsum l)%R; [|lra].
  apply Rsum_nonneg. intros q Hq. apply Rlt_le, H. now right.
Qed.

Lemma Rsum_neg (l : list R) :
  l <> [] -> (forall p, In p l -> (p < 0)%R) -> (Rsum l < 0)%R.
Proof.
  destruct l as [|p l]; [congruence|]. intros _ H.
  change (Rsum (p :: l)) with (p + Rsum l)%R.
  specialize (H p (or_introl eq_refl)) as Hp.
  assert (Rsum l <= 0)%R; [|lra].
  apply Rsum_nonpos. intros q Hq. apply Rlt_le, H. now right.
Qed.

Lemma quotient_bounds_pos (n s lo hi : R) :
  (0 < s)%R -> (lo * s <= n <= hi * s)%R -> (lo <= n / s <= hi)%R.
Proof.
  intros Hs [H1 H2]. split.
  - apply Rmult_le_reg_r with s; [exact Hs|].
    unfold Rdiv. rewrite Rmult_assoc, Rinv_l by lra. lra.
  - apply Rmult_le_reg_r with s; [exact Hs|].
    unfold Rdiv. rewrite Rmult_assoc, Rinv_l by lra. lra.
Qed.

Lemma quotient_bounds_neg (n s lo hi : R) :
  (s < 0)%R -> (hi * s <= n <= lo * s)%R -> (lo <= n / s <= hi)%R.
Proof.
  intros Hs [H1 H2].
  replace (n / s)%R with ((- n) / (- s))%R by (field; lra).
  apply quotient_bounds_pos; lra.
Qed.

(** The centroid of finite frequencies weighted by power values of one
    strict sign lies between the lowest and the highest frequency. *)
Lemma centroid_between (fs ps : list R) (lo hi : R) :
  ps <> [] -> length fs = length ps ->
  (forall f, In f fs -> (lo <= f <= hi)%R) ->
  (forall p, In p ps -> (0 < p)%R) \/ (forall p, In p ps -> (p < 0)%R) ->
  exists r,
    xdiv (xsum (zip_with xmul (map Fin fs) (map Fin ps))) (xsum (map Fin ps))
      = Fin r /\ (lo <= r <= hi)%R.
Proof.
  intros Hne Hlen Hf Hsign.
  rewrite zip_with_xmul_fin, !xsum_fin_Rsum. cbn [xdiv].
  destruct Hsign as [Hp|Hn].
  - pose proof (Rsum_pos ps Hne Hp) as Hs.
    rewrite Reqb_false by lra. eexists. split; [reflexivity|].
    apply quotient_bounds_pos; [exact Hs|].
    apply Rsum_weighted_bounds; auto. intros p Hin. apply Rlt_le. auto.
  - pose proof (Rsum_neg ps Hne Hn) as Hs.
    rewrite Reqb_false by lra. eexists. split; [reflexivity|].
    apply quotient_bounds_neg; [exact Hs|].
    apply Rsum_weighted_bounds_neg; auto. intros p Hin. apply Rlt_le. auto.
Qed.

(** X14. When the power values of a chunk are all above 0 dB, or all
    below, the spectral centroid is a frequency of the analysed range: finite
    and between 0 Hz and half the sample rate. *)
Theorem X14_centroid_in_range (c : Config) (samples : list R)
    (Hne : samples <> []) (Hsr : (0 < sample_rate c)%Z)
    (Hsign : (forall k, (k <= length samples / 2)%nat ->
                (0 < power_db_spec samples k)%R) \/
             (forall k, (k <= length samples / 2)%nat ->
                (power_db_spec samples k < 0)%R)) :
  exists freq psd_db st r,
    analyze_frequency_spectrum c (map Fin samples) = Ok (freq, psd_db) /\
    compute_statistics (map Fin samples) freq psd_db = Ok st /\
    spectral_centroid st = Fin r /\
    (0 <= r <= IZR (sample_rate c) / 2)%R.
Proof.
  assert (Hn : (0 < length samples)%nat).
  { destruct samples; cbn; [congruence|lia]. }
  set (m := (length samples / 2 + 1)%nat).
  set (fs := map (fun k => bin_frequency (sample_rate c) (length samples) k) (seq 0 m)).
  set (ps := map (fun k => power_db_spec samples k) (seq 0 m)).
  assert (Ha : analyze_frequency_spectrum c (map Fin samples)
               = Ok (map Fin fs, map Fin ps)).
  { rewrite analyze_finite by (assumption || lia).
    unfold fs, ps. now rewrite !map_map. }
  assert (Hlen : length fs = length ps).
  { unfold fs, ps. now rewrite !length_map. }
  assert (Hpsne : ps <> []).
  { unfold ps, m. rewrite Nat.add_1_r. discriminate. }
  destruct (compute_statistics_ok (map Fin samples) (map Fin fs) (map Fin ps))
    as (pk & roll & _ & _ & _ & Hst).
  { destruct samples; [congruence|discriminate]. }
  { now rewrite !length_map. }
  { destruct ps; [congruence|discriminate]. }
  destruct (centroid_between fs ps 0 (IZR (sample_rate c) / 2) Hpsne Hlen)
    as (r & Hr & Hrange).
  { intros f Hf. unfold fs in Hf. apply in_map_iff in Hf.
    destruct Hf as (k & <- & Hk). apply in_seq in Hk.
    apply bin_frequency_range; [exact Hn|exact Hsr|unfold m in Hk; lia]. }
  { destruct Hsign as [Hp|Hq]; [left|right]; intros p Hin;
      unfold ps in Hin; apply in_map_iff in Hin;
      destruct Hin as (k & <- & Hk); apply in_seq in Hk;
      [apply Hp|apply Hq]; unfold m in Hk; lia. }
  eexists _, _, _, r. split; [exact Ha|]. split; [exact Hst|].
  cbn [spectral_centroid]. split; [exact Hr|exact Hrange].
Qed.

Lemma X14_centroid_in_range_witness :
  exists freq psd_db st r,
    analyze_frequency_spectrum (mkConfig 48000 1 ["raw"]) (map Fin [0; 0; 0; 0]%R)
      = Ok (freq, psd_db) /\
    compute_statistics (map Fin [0; 0; 0; 0]%R) freq psd_db = Ok st /\
    spectral_centroid st = Fin r /\
    (0 <= r <= IZR 48000 / 2)%R.
Proof.
  apply (X14_centroid_in_range (mkConfig 48000 1 ["raw"]) [0; 0; 0; 0]%R).
  - discriminate.
  - cbn. lia.
  - right. intros k _. rewrite power_db_spec_silent by (repeat constructor). lra.
Defined.

(** ** The command line: stream specifications *)

Lemma str_partition_no_eq (s : string) :
  str_contains equals_sign s = false -> str_partition_eq s = (s, None).
Proof.
  induction s as [|ch rest IH]; intros H; [reflexivity|].
  cbn [str_contains str_partition_eq String.append] in H |- *. apply orb_false_iff in H. destruct H as [Hch Hrest].
  rewrite Hch, (IH Hrest). reflexivity.
Qed.

Lemma str_partition_append (name url : string) :
  str_contains equals_sign name = false ->
  str_partition_eq (name +:+ String equals_sign url) = (name, Some url).
Proof.
  induction name as [|ch rest IH]; intros H.
  - change (str_partition_eq (String equals_sign url) = (EmptyString, Some url)).
    cbn [str_partition_eq]. now rewrite (proj2 (Ascii.eqb_eq _ _) eq_refl).
  - change (str_partition_eq (String ch (rest +:+ String equals_sign url))
            = (String ch rest, Some url)).
    cbn [str_contains str_partition_eq] in H |- *.
    apply orb_false_iff in H. destruct H as [Hch Hrest].
    rewrite Hch, (IH Hrest). reflexivity.
Qed.

Lemma str_partition_Some (s h t : string) :
  str_partition_eq s = (h, Some t) ->
  s = h +:+ String equals_sign t /\ str_contains equals_sign h = false.
Proof.
  revert h. induction s as [|ch rest IH]; intros h H; [discriminate|].
  cbn [str_partition_eq] in H. destruct (Ascii.eqb ch equals_sign) eqn:Hch.
  - apply Ascii.eqb_eq in Hch. injection H as <- <-. subst ch. now split.
  - destruct (str_partition_eq rest) as [h' t'] eqn:Hrest.
    injection H as <- ->. destruct (IH h' eq_refl) as [-> Hh'].
    split; [reflexivity|]. cbn [str_contains]. now rewrite Hch, Hh'.
Qed.

Lemma str_partition_None (s h : string) :
  str_partition_eq s = (h, None) ->
  h = s /\ str_contains equals_sign s = false.
Proof.
  revert h. induction s as [|ch rest IH]; intros h H.
  - injection H as <-. now split.
  - cbn [str_partition_eq] in H. destruct (Ascii.eqb ch equals_sign) eqn:Hch; [discriminate|].
    destruct (str_partition_eq rest) as [h' t'] eqn:Hrest.
    injection H as <- ->. destruct (IH h' eq_refl) as [-> Hh'].
    split; [reflexivity|]. cbn [str_contains]. now rewrite Hch, Hh'.
Qed.

Lemma parse_stream_spec_ok (name url : string) :
  str_contains equals_sign name = false ->
  parse_stream_spec (name +:+ "=" +:+ url) = Ok (name, url).
Proof.
  intros H. unfold parse_stream_spec, str_split_eq.
  change ("=" +:+ url) with (String equals_sign url).
  now rewrite str_partition_append.
Qed.

Lemma parse_stream_spec_invalid (s : string) :
  str_contains equals_sign s = false -> parse_stream_spec s = Raise ValueError.
Proof.
  intros H. unfold parse_stream_spec, str_split_eq.
  now rewrite str_partition_no_eq.
Qed.

Lemma parse_stream_spec_Ok_inv (s name url : string) :
  parse_stream_spec s = Ok (name, url) ->
  s = name +:+ "=" +:+ url /\ str_contains equals_sign name = false.
Proof.
  unfold parse_stream_spec, str_split_eq.
  destruct (str_partition_eq s) as [h [t|]] eqn:Hp; [|discriminate].
  intros H. injection H as <- <-. now apply str_partition_Some.
Qed.

Lemma parse_stream_spec_Raise_inv (s : string) (e : exn) :
  parse_stream_spec s = Raise e ->
  e = ValueError /\ str_contains equals_sign s = false.
Proof.
  unfold parse_stream_spec, str_split_eq.
  destruct (str_partition_eq s) as [h [t|]] eqn:Hp; [discriminate|].
  intros H. injection H as <-. split; [reflexivity|].
  now apply str_partition_None in Hp.
Qed.

(** X15. A stream specification is split at its first ['=']: [name=url]
    with no ['='] in the name parses to exactly that name and URL (the URL
    may contain further ['=']), a specification parses only in this way, and
    one without ['='] raises [ValueError] and nothing else. *)
Theorem X15_stream_spec_parsing :
  (forall name url, str_contains equals_sign name = false ->
     parse_stream_spec (name +:+ "=" +:+ url) = Ok (name, url)) /\
  (forall s name url, parse_stream_spec s = Ok (name, url) ->
     s = name +:+ "=" +:+ url /\ str_contains equals_sign name = false) /\
  (forall s, str_contains equals_sign s = false <->
     parse_stream_spec s = Raise ValueError) /\
  (forall s e, parse_stream_spec s = Raise e -> e = ValueError).
Proof.
  split; [exact parse_stream_spec_ok|].
  split; [exact parse_stream_spec_Ok_inv|]. split.
  - intros s. split; [apply parse_stream_spec_invalid|].
    intros H. now apply parse_stream_spec_Raise_inv in H.
  - intros s e H. now apply parse_stream_spec_Raise_inv in H.
Qed.

Lemma X15_stream_spec_parsing_witness :
  parse_stream_spec "raw=rtsp://host:8554/mic?rate=48000"
  = Ok ("raw", "rtsp://host:8554/mic?rate=48000")%string.
Proof.
  apply (proj1 X15_stream_spec_parsing "raw" "rtsp://host:8554/mic?rate=48000")%string.
  reflexivity.
Defined.

Lemma dict_set_keys (d : StreamDict) (k v k' : string) :
  k' ∈ map fst (dict_set d k v) <-> k' = k \/ k' ∈ map fst d.
Proof.
  induction d as [|[k0 v0] d IH]; cbn.
  - rewrite list_elem_of_singleton. rewrite elem_of_nil. tauto.
  - destruct (String.eqb_spec k0 k) as [->|Hne]; cbn.
    + rewrite !elem_of_cons. tauto.
    + rewrite !elem_of_cons, IH. tauto.
Qed.

Lemma dict_set_NoDup (d : StreamDict) (k v : string) :
  NoDup (map fst d) -> NoDup (map fst (dict_set d k v)).
Proof.
  induction d as [|[k0 v0] d IH]; cbn; intros Hnd.
  - apply NoDup_singleton.
  - apply NoDup_cons in Hnd. destruct Hnd as [Hnin Hnd].
    destruct (String.eqb_spec k0 k) as [->|Hne]; cbn.
    + apply NoDup_cons. auto.
    + apply NoDup_cons. split; [|auto].
      rewrite dict_set_keys. intros [->|Hin]; [congruence|contradiction].
Qed.

Lemma dict_set_length (d : StreamDict) (k v : string) :
  (length d <= length (dict_set d k v) <= S (length d))%nat /\
  (0 < length (dict_set d k v))%nat.
Proof.
  induction d as [|[k0 v0] d IH]; cbn; [lia|].
  destruct (String.eqb k0 k); cbn; lia.
Qed.

Lemma dict_lookup_set (d : StreamDict) (k v k' : string) :
  dict_lookup (dict_set d k v) k' =
  if String.eqb k k' then Some v else dict_lookup d k'.
Proof.
  induction d as [|[k0 v0] d IH]; cbn; [reflexivity|].
  destruct (String.eqb_spec k0 k) as [->|Hne]; cbn.
  - destruct (String.eqb k k'); reflexivity.
  - rewrite IH. destruct (String.eqb_spec k0 k') as [->|Hne'].
    + destruct (String.eqb_spec k k'); [congruence|reflexivity].
    + reflexivity.
Qed.

Lemma last_url_cons (name s : string) (specs : list string) :
  last_url name (s :: specs) =
  match last_url name specs with
  | Some u => Some u
  | None => spec_url_for name s
  end.
Proof.
  unfold last_url.
  change (omap (spec_url_for name) (s :: specs))
    with (match spec_url_for name s with
          | Some u => u :: omap (spec_url_for name) specs
          | None => omap (spec_url_for name) specs
          end).
  destruct (spec_url_for name s) as [u|].
  - rewrite last_cons. reflexivity.
  - now destruct (last _).
Qed.

(** The loop over valid specifications, from any dict built so far. *)
Lemma parse_stream_specs_valid (specs : list string) (acc : StreamDict) :
  Forall (fun s => str_contains equals_sign s = true) specs ->
  NoDup (map fst acc) ->
  exists d,
    parse_stream_specs specs acc = Returns d /\
    NoDup (map fst d) /\
    (length acc <= length d <= length acc + length specs)%nat /\
    (specs <> [] -> 0 < length d)%nat /\
    forall name, dict_lookup d name =
                 match last_url name specs with
                 | Some u => Some u
                 | None => dict_lookup acc name
                 end.
Proof.
  intros Hall. revert acc.
  induction Hall as [|s specs Hs Hall IH]; intros acc Hnd.
  - exists acc. cbn. repeat split; auto; try lia. congruence.
  - cbn [parse_stream_specs].
    destruct (parse_stream_spec s) as [[name url]|e] eqn:Hp.
    + destruct (IH (dict_set acc name url) (dict_set_NoDup _ _ _ Hnd))
        as (d & Hd & Hnd' & Hlen & _ & Hlook).
      pose proof (dict_set_length acc name url) as [Hl1 Hl2].
      exists d. split; [exact Hd|]. split; [exact Hnd'|].
      split; [cbn; lia|]. split; [intros _; lia|].
      intros n. rewrite Hlook, last_url_cons.
      destruct (last_url n specs); [reflexivity|].
      rewrite dict_lookup_set. unfold spec_url_for. rewrite Hp.
      destruct (String.eqb name n); reflexivity.
    + apply parse_stream_spec_Raise_inv in Hp. destruct Hp as [_ Hp].
      congruence.
Qed.

Lemma custom_streams_valid (specs : list string) :
  specs <> [] ->
  Forall (fun s => str_contains equals_sign s = true) specs ->
  exists d,
    custom_streams_of_args (Some specs) = Returns (Some d) /\
    NoDup (map fst d) /\
    (0 < length d <= length specs)%nat /\
    (forall name, dict_lookup d name = last_url name specs) /\
    main_config (Some specs) = Returns (mkConfig 48000 1 (map fst d)).
Proof.
  intros Hne Hall.
  destruct (parse_stream_specs_valid specs [] Hall (NoDup_nil_2))
    as (d & Hd & Hnd & Hlen & Hpos & Hlook).
  specialize (Hpos Hne). cbn in Hlen.
  assert (Hc : custom_streams_of_args (Some specs) = Returns (Some d)).
  { unfold custom_streams_of_args. destruct specs; [congruence|].
    now rewrite Hd. }
  exists d. split; [exact Hc|]. split; [exact Hnd|]. split; [lia|]. split.
  - intros name. rewrite Hlook. now destruct (last_url name specs).
  - unfold main_config. rewrite Hc. unfold init_streams.
    destruct d; [cbn in Hpos; lia|reflexivity].
Qed.

(** X16. When every [-s] option contains ['='], [main] builds the stream
    dict without exiting: its names are distinct, there is at least one and
    at most one per option, the URL of a name is the URL of the last option
    with that name, and the analyzer is created on exactly these names. *)
Theorem X16_custom_streams (specs : list string)
    (Hne : specs <> [])
    (Hall : Forall (fun s => str_contains equals_sign s = true) specs) :
  exists d,
    custom_streams_of_args (Some specs) = Returns (Some d) /\
    NoDup (map fst d) /\
    (0 < length d <= length specs)%nat /\
    (forall name, dict_lookup d name = last_url name specs) /\
    main_config (Some specs) = Returns (mkConfig 48000 1 (map fst d)).
Proof. exact (custom_streams_valid specs Hne Hall). Qed.

Lemma X16_custom_streams_witness :
  exists d,
    custom_streams_of_args (Some ["a=1"; "b=2"; "a=3=4"]%string)
      = Returns (Some d) /\
    (length d <= 3)%nat /\
    dict_lookup d "a"%string = last_url "a"%string ["a=1"; "b=2"; "a=3=4"]%string.
Proof.
  destruct (X16_custom_streams ["a=1"; "b=2"; "a=3=4"]%string)
    as (d & Hd & _ & Hlen & Hlook & _).
  - discriminate.
  - repeat constructor.
  - exists d. split; [exact Hd|]. split; [cbn in Hlen; lia|apply Hlook].
Defined.

Lemma parse_stream_specs_invalid (specs : list string) (s : string)
    (acc : StreamDict) :
  In s specs -> str_contains equals_sign s = false ->
  parse_stream_specs specs acc = SystemExit 1.
Proof.
  revert acc. induction specs as [|s0 specs IH]; intros acc Hin Hbad;
    [contradiction|].
  cbn [parse_stream_specs].
  destruct (parse_stream_spec s0) as [[name url]|e] eqn:Hp.
  - destruct Hin as [->|Hin].
    + rewrite parse_stream_spec_invalid in Hp by assumption. discriminate.
    + now apply IH.
  - apply parse_stream_spec_Raise_inv in Hp. now destruct Hp as [-> _].
Qed.

Lemma parse_stream_specs_caught (specs : list string) (acc : StreamDict)
    (e : exn) :
  parse_stream_specs specs acc <> Uncaught e.
Proof.
  revert acc. induction specs as [|s0 specs IH]; intros acc; [discriminate|].
  cbn [parse_stream_specs].
  destruct (parse_stream_spec s0) as [[name url]|e0] eqn:Hp; [apply IH|].
  apply parse_stream_spec_Raise_inv in Hp. destruct Hp as [-> _]. discriminate.
Qed.

(** X17. One [-s] option without ['='] makes [main] exit with status 1
    before any analyzer is created, wherever the option stands and whatever
    the other options are; no exception escapes the parsing of the options. *)
Theorem X17_invalid_spec_exits (specs : list string) (s : string)
    (Hin : In s specs) (Hbad : str_contains equals_sign s = false) :
  custom_streams_of_args (Some specs) = SystemExit 1 /\
  main_config (Some specs) = SystemExit 1 /\
  (forall stream e, custom_streams_of_args stream <> Uncaught e).
Proof.
  assert (Hc : custom_streams_of_args (Some specs) = SystemExit 1).
  { unfold custom_streams_of_args. destruct specs; [contradiction|].
    now rewrite (parse_stream_specs_invalid _ s). }
  split; [exact Hc|]. split.
  - unfold main_config. now rewrite Hc.
  - intros [[|s0 l]|] e; cbn; try discriminate.
    pose proof (parse_stream_specs_caught (s0 :: l) [] e) as Hn.
    cbn [parse_stream_specs] in Hn.
    destruct (parse_stream_spec s0) as [[n u]|e0].
    + destruct (parse_stream_specs l _); congruence.
    + destruct e0; congruence.
Qed.

Lemma X17_invalid_spec_exits_witness :
  main_config (Some ["raw=rtsp://host/raw"; "filtered"]%string) = SystemExit 1.
Proof.
  apply (X17_invalid_spec_exits ["raw=rtsp://host/raw"; "filtered"]%string
           "filtered"%string).
  - right. now left.
  - reflexivity.
Defined.

Lemma specs_valid_or_not (specs : list string) :
  Forall (fun s => str_contains equals_sign s = true) specs \/
  exists s, In s specs /\ str_contains equals_sign s = false.
Proof.
  induction specs as [|s0 specs [IH|(s & Hin & Hs)]].
  - left. constructor.
  - destruct (str_contains equals_sign s0) eqn:H0.
    + left. now constructor.
    + right. exists s0. split; [now left|exact H0].
  - right. exists s. split; [now right|exact Hs].
Qed.

(** X18. Whatever the [-s] options are, [main] either exits with status 1
    or creates an analyzer with at least one stream and distinct stream
    names (the three default streams when no option is given), chunks of
    48000 samples, 96000 bytes, and a run of it never raises. *)
Theorem X18_analyzer_of_main (stream : option (list string)) :
  main_config stream = SystemExit 1 \/
  exists c,
    main_config stream = Returns c /\
    streams c <> [] /\ NoDup (streams c) /\
    (stream = None -> streams c = ["raw"; "filtered"; "bird"]%string) /\
    chunk_size c = 48000%Z /\ chunk_bytes c = 96000%Z /\
    forall duration start tr,
      exists s, run c duration (init_system c start) tr = Ok s /\ wf c s.
Proof.
  assert (Hcfg : forall names, names <> [] -> NoDup names ->
            (stream = None -> names = ["raw"; "filtered"; "bird"]%string) ->
            main_config stream = Returns (mkConfig 48000 1 names) ->
            exists c, main_config stream = Returns c /\
              streams c <> [] /\ NoDup (streams c) /\
              (stream = None -> streams c = ["raw"; "filtered"; "bird"]%string) /\
              chunk_size c = 48000%Z /\ chunk_bytes c = 96000%Z /\
              forall duration start tr,
                exists s, run c duration (init_system c start) tr = Ok s /\ wf c s).
  { intros names Hne Hnd Hdef Hm. exists (mkConfig 48000 1 names).
    assert (Hcs : chunk_size (mkConfig 48000 1 names) = 48000%Z).
    { apply chunk_size_exact. cbn. lra. }
    split; [exact Hm|]. split; [exact Hne|]. split; [exact Hnd|].
    split; [exact Hdef|]. split; [exact Hcs|]. split.
    - unfold chunk_bytes. rewrite Hcs. reflexivity.
    - intros duration start tr.
      destruct (run_from_init (mkConfig 48000 1 names) duration start tr)
        as (s & Hs & Hwf & _); [discriminate|]. eauto. }
  assert (Hdefault : NoDup (map fst default_streams)).
  { cbn. repeat (apply NoDup_cons; split;
      [rewrite ?elem_of_cons, elem_of_nil; intros H;
       repeat (destruct H as [H|H]; try discriminate); exact H|]).
    apply NoDup_nil_2. }
  destruct stream as [specs|].
  - destruct specs as [|s0 l].
    + right. apply (Hcfg (map fst default_streams)); auto; try discriminate.
    + destruct (specs_valid_or_not (s0 :: l)) as [Hall|(s & Hin & Hs)].
      * right.
        destruct (custom_streams_valid (s0 :: l) ltac:(discriminate) Hall)
          as (d & _ & Hnd & Hlen & _ & Hm).
        apply (Hcfg (map fst d)); auto; try discriminate.
        destruct d; [cbn in Hlen; lia|discriminate].
      * left. unfold main_config, custom_streams_of_args.
        now rewrite (parse_stream_specs_invalid _ s).
  - right. apply (Hcfg (map fst default_streams)); auto; discriminate.
Qed.

Lemma X18_analyzer_of_main_witness :
  main_config None = SystemExit 1 \/
  exists c, main_config None = Returns c /\ streams c <> [] /\ NoDup (streams c).
Proof.
  destruct (X18_analyzer_of_main None) as [H|(c & Hc & Hne & Hnd & _)].
  - now left.
  - right. exists c. auto.
Defined.

(** ** Band powers of a chunk and the histories of a run *)

Lemma select_bins_fin (band : xreal -> bool) (fs ps : list R) :
  length fs = length ps ->
  exists qs,
    select_bins band (map Fin fs) (map Fin ps) = map Fin qs /\
    (forall q, In q qs -> In q ps) /\
    (existsb band (map Fin fs) = true -> qs <> []).
Proof.
  revert ps. induction fs as [|f fs IH]; intros [|p ps] Hlen; try discriminate.
  - exists []. cbn. split; [reflexivity|]. split; [tauto|discriminate].
  - destruct (IH ps ltac:(cbn in Hlen; lia)) as (qs & Hqs & Hin & Hne).
    cbn [map select_bins existsb]. destruct (band (Fin f)) eqn:Hb.
    + exists (p :: qs). rewrite Hqs. split; [reflexivity|]. split.
      * intros q [<-|Hq]; [now left|right; auto].
      * discriminate.
    + exists qs. split; [exact Hqs|]. split.
      * intros q Hq. right. auto.
      * cbn. exact Hne.
Qed.

Lemma Rmean_lower (qs : list R) (lo : R) :
  qs <> [] -> (forall q, In q qs -> (lo <= q)%R) ->
  (lo <= Rsum qs / INR (length qs))%R.
Proof.
  intros Hne Hlo.
  assert (Hl : (0 < INR (length qs))%R).
  { apply lt_0_INR. destruct qs; cbn; [congruence|lia]. }
  pose proof (Rsum_lower qs lo Hlo) as Hs.
  apply Rmult_le_reg_r with (INR (length qs)); [exact Hl|].
  unfold Rdiv. rewrite Rmult_assoc, Rinv_l by lra. lra.
Qed.

(** The power of a band over finite decibel values of at least -100: such
    a value again when a frequency lies in the band, minus infinity when
    none does. *)
Lemma band_power_cases (band : xreal -> bool) (fs ps : list R) :
  length fs = length ps -> (forall p, In p ps -> (-100 <= p)%R) ->
  (existsb band (map Fin fs) = true /\
   db_finite (band_power_spec band (map Fin fs) (map Fin ps)))
  \/ (existsb band (map Fin fs) = false /\
      band_power_spec band (map Fin fs) (map Fin ps) = NInf).
Proof.
  intros Hlen Hlo. unfold band_power_spec.
  destruct (existsb band (map Fin fs)) eqn:Hex; [left|right; now split].
  split; [reflexivity|].
  destruct (select_bins_fin band fs ps Hlen) as (qs & -> & Hin & Hne).
  specialize (Hne Hex). rewrite xmean_fin by assumption.
  eexists. split; [reflexivity|]. apply Rmean_lower; auto.
Qed.

Lemma existsb_bins (band : xreal -> bool) (sr : Z) (n : nat) :
  existsb band
    (map Fin (map (fun k => bin_frequency sr n k) (seq 0 (n / 2 + 1)))) = true
  <-> band_has_bin sr n band.
Proof.
  rewrite existsb_exists. unfold band_has_bin. split.
  - intros (f & Hf & Hb). apply in_map_iff in Hf. destruct Hf as (r & <- & Hr).
    apply in_map_iff in Hr. destruct Hr as (k & <- & Hk). apply in_seq in Hk.
    exists k. split; [lia|exact Hb].
  - intros (k & Hk & Hb). eexists. split; [|exact Hb].
    apply in_map, in_map_iff. exists k. split; [reflexivity|].
    apply in_seq. lia.
Qed.

Lemma low_band_has_bin (sr : Z) (n : nat) : band_has_bin sr n low_band.
Proof.
  exists 0%nat. split; [lia|]. unfold low_band, bin_frequency. cbn [INR xltb].
  apply Rltb_true. unfold Rdiv. rewrite !Rmult_0_l. lra.
Qed.

(** What the analysis of one chunk of finite samples gives for the bands. *)
Lemma chunk_band_values (c : Config) (samples : list R) :
  samples <> [] -> sample_rate c <> 0%Z ->
  exists freq psd_db st,
    analyze_frequency_spectrum c (map Fin samples) = Ok (freq, psd_db) /\
    compute_statistics (map Fin samples) freq psd_db = Ok st /\
    db_finite (low_freq_power st) /\
    (forall get band,
       In (get, band) [(mid_freq_power, mid_band); (bird_freq_power, bird_band);
                       (high_freq_power, high_band)] ->
       (band_has_bin (sample_rate c) (length samples) band /\ db_finite (get st))
       \/ (~ band_has_bin (sample_rate c) (length samples) band /\ get st = NInf)) /\
    snr_bird_to_low st = xsub (bird_freq_power st) (low_freq_power st) /\
    snr_bird_to_mid st = xsub (bird_freq_power st) (mid_freq_power st).
Proof.
  intros Hne Hsr.
  set (m := (length samples / 2 + 1)%nat).
  set (fs := map (fun k => bin_frequency (sample_rate c) (length samples) k) (seq 0 m)).
  set (ps := map (fun k => power_db_spec samples k) (seq 0 m)).
  assert (Ha : analyze_frequency_spectrum c (map Fin samples)
               = Ok (map Fin fs, map Fin ps)).
  { rewrite analyze_finite by assumption.
    unfold fs, ps. now rewrite !map_map. }
  assert (Hlen : length fs = length ps).
  { unfold fs, ps. now rewrite !length_map. }
  assert (Hlo : forall p, In p ps -> (-100 <= p)%R).
  { intros p Hp. unfold ps in Hp. apply in_map_iff in Hp.
    destruct Hp as (k & <- & _). apply power_db_spec_floor. }
  destruct (compute_statistics_ok (map Fin samples) (map Fin fs) (map Fin ps))
    as (pk & roll & _ & _ & _ & Hst).
  { destruct samples; [congruence|discriminate]. }
  { now rewrite !length_map. }
  { unfold ps, m. rewrite Nat.add_1_r. discriminate. }
  assert (Hband : forall band,
            (band_has_bin (sample_rate c) (length samples) band /\
             db_finite (band_power_spec band (map Fin fs) (map Fin ps)))
            \/ (~ band_has_bin (sample_rate c) (length samples) band /\
                band_power_spec band (map Fin fs) (map Fin ps) = NInf)).
  { intros band.
    destruct (band_power_cases band fs ps Hlen Hlo) as [[Hex Hv]|[Hex Hv]].
    - left. split; [|exact Hv]. apply existsb_bins. exact Hex.
    - right. split; [|exact Hv]. intros Hb. apply existsb_bins in Hb.
      unfold fs, m in Hex. congruence. }
  eexists _, _, _. split; [exact Ha|]. split; [exact Hst|].
  cbn [low_freq_power mid_freq_power bird_freq_power high_freq_power
       snr_bird_to_low snr_bird_to_mid].
  split.
  - destruct (Hband low_band) as [[_ Hv]|[Hno _]]; [exact Hv|].
    exfalso. apply Hno, low_band_has_bin.
  - split; [|split; reflexivity].
    intros get band [Hin|[Hin|[Hin|[]]]]; injection Hin as <- <-;
      cbn [mid_freq_power bird_freq_power high_freq_power]; apply Hband.
Qed.


Lemma normalized_fin (audio : list xreal) :
  Forall normalized audio -> exists l, audio = map Fin l.
Proof.
  induction 1 as [|x audio (r & -> & _) _ (l & ->)].
  - now exists [].
  - now exists (r :: l).
Qed.

Lemma histories_clean_step (c : Config) (duration : R) (s s' : System)
    (e : event) :
  wf c s -> sample_rate c <> 0%Z -> frames_normalized s -> histories_clean s ->
  step c duration s e = Ok s' -> histories_clean s'.
Proof.
  intros Hwf Hsr Hn Hr. destruct e as [n raw now|now]; cbn [step].
  - intros H. injection H as <-.
    destruct (worker_step_frame c s n raw now) as (_ & _ & Hres & _).
    unfold histories_clean. rewrite Hres. exact Hr.
  - unfold coord_step. destruct (coord s) as [|[|n rest]|] eqn:Hc.
    + destruct (Rltb _ _); intros H; injection H as <-; exact Hr.
    + intros H; injection H as <-; exact Hr.
    + assert (Hin : n ∈ streams c).
      { destruct Hwf as (_ & Hp & _). specialize (Hp _ Hc).
        apply Forall_cons in Hp. tauto. }
      destruct (poll_stream_cases c s n Hwf Hsr Hin)
        as (q & r & m & Hq0 & Hr0 & Hm0 & [[_ Hp]|Hp]).
      * rewrite Hp. cbn [bind]. intros H; injection H as <-. exact Hr.
      * destruct Hp as (ts & audio & rest' & freq & psd_db & st & Hit & Ha & Hst & Hp).
        rewrite Hp. cbn [bind]. intros H; injection H as <-.
        intros b r1. cbn. destruct (decide (n = b)) as [->|Hne].
        -- rewrite lookup_insert_eq. intros Hr1. injection Hr1 as <-. cbn.
           destruct Hwf as (_ & _ & Hqs). destruct (Hqs b q Hq0) as (_ & _ & Hall).
           specialize (Hn b q Hq0). rewrite Hit in Hn, Hall.
           apply Forall_cons in Hn. apply Forall_cons in Hall.
           destruct Hn as [Hnorm _]. destruct Hall as [Hne _]. cbn in Hnorm, Hne.
           destruct (normalized_fin audio Hnorm) as (l & ->).
           destruct (chunk_band_values c l) as
             (freq' & psd' & st' & Ha' & Hst' & Hlow & Hbands & Hsnr & _);
             [now destruct l|assumption|].
           rewrite Ha in Ha'. injection Ha' as <- <-.
           rewrite Hst in Hst'. injection Hst' as <-.
           destruct (Hr b r Hr0) as (H1 & H2 & H3).
           assert (Hbird : db_or_ninf (bird_freq_power st)).
           { destruct (Hbands bird_freq_power bird_band ltac:(right; now left))
               as [[_ Hv]|[_ Hv]]; [now left|now right]. }
           split; [|split]; apply Forall_app; (split; [assumption|]);
             (constructor; [|constructor]); auto.
           rewrite Hsnr. destruct Hlow as (lo & -> & _).
           destruct Hbird as [(bd & -> & _)| ->]; cbn; [left; eauto|now right].
        -- rewrite lookup_insert_ne by assumption. apply Hr.
    + intros H; injection H as <-; exact Hr.
Qed.

Lemma histories_clean_run (c : Config) (duration : R) (tr : list event)
    (s : System) :
  sample_rate c <> 0%Z ->
  wf c s -> frames_normalized s -> histories_clean s ->
  exists s', run c duration s tr = Ok s' /\ histories_clean s'.
Proof.
  intros Hsr. revert s.
  induction tr as [|e tr IH]; intros s Hwf Hn Hh; cbn [run].
  - exists s. auto.
  - destruct (step_total c duration s e Hwf Hsr) as (s1 & Hs1 & Hwf1).
    rewrite Hs1. cbn [bind]. apply IH; [assumption| |].
    + exact (frames_normalized_step c duration s s1 e Hwf Hsr Hn Hs1).
    + exact (histories_clean_step c duration s s1 e Hwf Hsr Hn Hh Hs1).
Qed.

(** X20. Along any schedule from the start of a run, no history ever holds
    NaN or plus infinity: every recorded SNR is a real number or minus
    infinity, every recorded bird power is at least -100 dB or minus
    infinity, and every recorded low power is a real number of at least
    -100 dB. *)
Theorem X20_histories_hold_no_nan (c : Config) (duration start : R)
    (tr : list event) (Hsr : sample_rate c <> 0%Z) :
  exists s',
    run c duration (init_system c start) tr = Ok s' /\
    forall name r, results s' !! name = Some r ->
      Forall diff_or_ninf (snr_history r) /\
      Forall db_or_ninf (bird_power_history r) /\
      Forall db_finite (low_power_history r).
Proof.
  destruct (init_invariants c start) as (Hwf & Hn & _ & _).
  apply (histories_clean_run c duration tr (init_system c start) Hsr Hwf Hn).
  intros name r Hr. cbn in Hr. apply dict_init_lookup_Some in Hr. subst r.
  cbn. repeat split; constructor.
Qed.

Lemma X20_histories_hold_no_nan_witness :
  exists s',
    run (mkConfig 4 1 ["raw"]) 10 (init_system (mkConfig 4 1 ["raw"]) 0)
      [EvWorker "raw" [] 0; EvWorker "raw" [Byte.x01] 1; EvCoord 2; EvCoord 2]
      = Ok s' /\
    forall r, results s' !! "raw" = Some r -> Forall diff_or_ninf (snr_history r).
Proof.
  destruct (X20_histories_hold_no_nan (mkConfig 4 1 ["raw"]) 10 0
              [EvWorker "raw" [] 0; EvWorker "raw" [Byte.x01] 1;
               EvCoord 2; EvCoord 2] ltac:(discriminate)) as (s' & Hrun & H).
  exists s'. split; [exact Hrun|]. intros r Hr. now destruct (H "raw" r Hr).
Defined.

Lemma one_second_bin (sr : Z) (n k : nat) :
  Z.of_nat n = sr -> (0 < n)%nat -> bin_frequency sr n k = INR k.
Proof.
  intros <- Hn. unfold bin_frequency. rewrite <- INR_IZR_INZ.
  pose proof (INR_pos_nonzero n Hn). field. lra.
Qed.

Lemma one_second_bands (sr : Z) (n : nat) :
  Z.of_nat n = sr -> (16002 <= sr)%Z ->
  band_has_bin sr n mid_band /\ band_has_bin sr n bird_band /\
  band_has_bin sr n high_band.
Proof.
  intros Hn Hsr.
  assert (Hbin : forall z, (0 <= z)%Z ->
            bin_frequency sr n (Z.to_nat z) = IZR z).
  { intros z Hz. rewrite one_second_bin by lia.
    rewrite INR_IZR_INZ. f_equal. lia. }
  assert (Hhalf : forall z, (0 <= z <= 8001)%Z -> (Z.to_nat z <= n / 2)%nat).
  { intros z Hz. apply Nat.div_le_lower_bound; lia. }
  split; [|split].
  - exists (Z.to_nat 1000). split; [apply Hhalf; lia|].
    rewrite Hbin by lia. unfold mid_band. cbn [xleb xltb].
    rewrite Rleb_true, Rltb_true by lra. reflexivity.
  - exists (Z.to_nat 3000). split; [apply Hhalf; lia|].
    rewrite Hbin by lia. unfold bird_band. cbn [xleb xltb].
    rewrite !Rleb_true by lra. reflexivity.
  - exists (Z.to_nat 8001). split; [apply Hhalf; lia|].
    rewrite Hbin by lia. unfold high_band. cbn [xleb xltb].
    apply Rltb_true. lra.
Qed.

(** X21. With chunks of one second (as many samples as the sample rate) at
    16002 Hz or more, as in the analyzer that [main] creates, every band has
    a bin: the four band powers are real numbers of at least -100 dB and
    both SNR values are real numbers. *)
Theorem X21_one_second_chunks_have_all_bands (c : Config) (samples : list R)
    (Hlen : Z.of_nat (length samples) = sample_rate c)
    (Hsr : (16002 <= sample_rate c)%Z) :
  exists freq psd_db st,
    analyze_frequency_spectrum c (map Fin samples) = Ok (freq, psd_db) /\
    compute_statistics (map Fin samples) freq psd_db = Ok st /\
    db_finite (low_freq_power st) /\ db_finite (mid_freq_power st) /\
    db_finite (bird_freq_power st) /\ db_finite (high_freq_power st) /\
    (exists r, snr_bird_to_low st = Fin r) /\
    (exists r, snr_bird_to_mid st = Fin r).
Proof.
  destruct (chunk_band_values c samples)
    as (freq & psd_db & st & Ha & Hst & Hlow & Hbands & Hsnr1 & Hsnr2).
  { intros ->. cbn in Hlen. lia. }
  { lia. }
  destruct (one_second_bands (sample_rate c) (length samples) Hlen Hsr)
    as (Hm & Hb & Hh).
  assert (Hmid : db_finite (mid_freq_power st)).
  { destruct (Hbands mid_freq_power mid_band ltac:(now left)) as [[_ H]|[H _]];
      [exact H|contradiction]. }
  assert (Hbird : db_finite (bird_freq_power st)).
  { destruct (Hbands bird_freq_power bird_band ltac:(right; now left))
      as [[_ H]|[H _]]; [exact H|contradiction]. }
  assert (Hhigh : db_finite (high_freq_power st)).
  { destruct (Hbands high_freq_power high_band ltac:(right; right; now left))
      as [[_ H]|[H _]]; [exact H|contradiction]. }
  exists freq, psd_db, st. do 6 (split; [assumption|]).
  rewrite Hsnr1, Hsnr2.
  destruct Hlow as (l & -> & _), Hmid as (m & -> & _), Hbird as (b & -> & _).
  cbn. eauto.
Qed.

Lemma X21_one_second_chunks_have_all_bands_witness :
  exists freq psd_db st,
    analyze_frequency_spectrum (mkConfig 48000 1 ["raw"])
      (map Fin (repeat 0%R (Z.to_nat 48000))) = Ok (freq, psd_db) /\
    compute_statistics (map Fin (repeat 0%R (Z.to_nat 48000))) freq psd_db = Ok st /\
    (exists r, snr_bird_to_low st = Fin r).
Proof.
  destruct (X21_one_second_chunks_have_all_bands (mkConfig 48000 1 ["raw"])
              (repeat 0%R (Z.to_nat 48000)))
    as (freq & psd_db & st & Ha & Hst & _ & _ & _ & _ & Hsnr & _).
  - rewrite repeat_length. cbn [sample_rate]. lia.
  - cbn. lia.
  - exists freq, psd_db, st. auto.
Defined.

(** ** The median and the standard deviation of a history *)

#[local] Instance Rle_AntiSymm : AntiSymm (=) Rle.
Proof. intros x y. apply Rle_antisym. Qed.

Lemma xinsert_fin (a : R) (l : list R) :
  xinsert (Fin a) (map Fin l) = map Fin (Rinsert a l).
Proof.
  induction l as [|b l IH]; [reflexivity|].
  cbn [map xinsert Rinsert xleb]. destruct (Rleb a b); [reflexivity|].
  cbn [map]. now rewrite IH.
Qed.

Lemma xsort_fin (l : list R) : xsort (map Fin l) = map Fin (Rsort l).
Proof.
  induction l as [|a l IH]; [reflexivity|].
  unfold xsort, Rsort in *. cbn [map fold_right]. rewrite IH.
  apply xinsert_fin.
Qed.

Lemma no_nan_fin (l : list R) : existsb is_nan (map Fin l) = false.
Proof. induction l as [|a l IH]; [reflexivity|exact IH]. Qed.

Lemma Rinsert_Permutation (a : R) (l : list R) : Permutation (Rinsert a l) (a :: l).
Proof.
  induction l as [|b l IH]; [reflexivity|]. cbn [Rinsert].
  destruct (Rleb a b); [reflexivity|].
  rewrite IH. apply perm_swap.
Qed.

Lemma Rsort_Permutation (l : list R) : Permutation (Rsort l) l.
Proof.
  induction l as [|a l IH]; [reflexivity|].
  unfold Rsort in *. cbn [fold_right]. rewrite Rinsert_Permutation.
  now constructor.
Qed.

Lemma Rinsert_Sorted (a : R) (l : list R) :
  Sorted Rle l -> Sorted Rle (Rinsert a l).
Proof.
  induction 1 as [|b l Hs IH Hhd]; [repeat constructor|].
  cbn [Rinsert]. destruct (Rleb a b) eqn:Hab.
  - apply Rleb_spec in Hab. constructor; [now constructor|now constructor].
  - apply Rleb_false_inv in Hab. constructor; [exact IH|].
    destruct l as [|d l]; cbn [Rinsert].
    + constructor. lra.
    + destruct (Rleb a d); constructor; [lra|]. now inversion Hhd.
Qed.

Lemma Rsort_Sorted (l : list R) : Sorted Rle (Rsort l).
Proof.
  induction l as [|a l IH]; [constructor|].
  unfold Rsort in *. cbn [fold_right]. now apply Rinsert_Sorted.
Qed.

Lemma Rsort_length (l : list R) : length (Rsort l) = length l.
Proof. apply Permutation_length, Rsort_Permutation. Qed.

Lemma Rsort_perm_eq (l l' : list R) : Permutation l l' -> Rsort l = Rsort l'.
Proof.
  intros Hp. apply (Sorted_unique Rle); try apply Rsort_Sorted.
  now rewrite !Rsort_Permutation.
Qed.

Lemma slice_map {A B : Type} (f : A -> B) (l : list A) (i j : nat) :
  slice (map f l) i j = map f (slice l i j).
Proof. unfold slice. now rewrite skipn_map, firstn_map. Qed.

Lemma slice_one {A : Type} (d : A) (l : list A) (i : nat) :
  (i < length l)%nat -> slice l i (i + 1) = [nth i l d].
Proof.
  unfold slice. replace (i + 1 - i)%nat with 1%nat by lia.
  revert i. induction l as [|x l IH]; intros i Hi; [cbn in Hi; lia|].
  destruct i as [|i]; [reflexivity|].
  cbn [drop skipn nth]. apply IH. cbn in Hi. lia.
Qed.

Lemma slice_two {A : Type} (d : A) (l : list A) (i : nat) :
  (i + 1 < length l)%nat -> slice l i (i + 2) = [nth i l d; nth (i + 1) l d].
Proof.
  unfold slice. replace (i + 2 - i)%nat with 2%nat by lia.
  revert i. induction l as [|x l IH]; intros i Hi; [cbn in Hi; lia|].
  destruct i as [|i].
  - destruct l as [|y l]; [cbn in Hi; lia|reflexivity].
  - cbn [drop skipn nth Nat.add]. apply IH. cbn in Hi. lia.
Qed.

Lemma odd_half_lt (n : nat) : Nat.odd n = true -> (n / 2 < n)%nat.
Proof.
  intros Ho. destruct n; [discriminate|]. apply Nat.div_lt; lia.
Qed.

Lemma even_half (n : nat) :
  (0 < n)%nat -> Nat.odd n = false ->
  (1 <= n / 2)%nat /\ (n / 2 < n)%nat.
Proof.
  intros Hn Ho. destruct n as [|[|n]]; [lia|discriminate|]. split.
  - apply Nat.div_le_lower_bound; lia.
  - apply Nat.div_lt; lia.
Qed.

(** The median of the code is the textbook median. *)
Lemma np_median_fin (l : list R) :
  l <> [] -> np_median (map Fin l) = Fin (median_spec l).
Proof.
  intros Hne.
  assert (Hn : (0 < length l)%nat) by (destruct l; cbn; [congruence|lia]).
  unfold np_median, median_spec. rewrite no_nan_fin, xsort_fin. cbv zeta.
  rewrite length_map, Rsort_length.
  destruct (Nat.odd (length l)) eqn:Ho.
  - rewrite slice_map, (slice_one 0%R)
      by (rewrite Rsort_length; now apply odd_half_lt).
    rewrite xmean_fin by discriminate. f_equal. cbn. field.
  - destruct (even_half (length l) Hn Ho) as [H1 H2].
    replace (length l / 2 + 1)%nat with (length l / 2 - 1 + 2)%nat by lia.
    rewrite slice_map, (slice_two 0%R) by (rewrite Rsort_length; lia).
    replace (length l / 2 - 1 + 1)%nat with (length l / 2)%nat by lia.
    rewrite xmean_fin by discriminate. f_equal. cbn. field.
Qed.

Lemma Rsort_nth_in (l : list R) (i : nat) :
  (i < length l)%nat -> In (nth i (Rsort l) 0%R) l.
Proof.
  intros Hi. eapply Permutation_in; [apply Rsort_Permutation|].
  apply nth_In. now rewrite Rsort_length.
Qed.

Lemma median_spec_bounds (l : list R) (lo hi : R) :
  l <> [] -> (forall x, In x l -> (lo <= x <= hi)%R) ->
  (lo <= median_spec l <= hi)%R.
Proof.
  intros Hne Hb.
  assert (Hn : (0 < length l)%nat) by (destruct l; cbn; [congruence|lia]).
  unfold median_spec. cbv zeta. destruct (Nat.odd (length l)) eqn:Ho.
  - apply Hb, Rsort_nth_in. now apply odd_half_lt.
  - destruct (even_half (length l) Hn Ho) as [H1 H2].
    pose proof (Hb _ (Rsort_nth_in l (length l / 2 - 1) ltac:(lia))).
    pose proof (Hb _ (Rsort_nth_in l (length l / 2) ltac:(lia))).
    lra.
Qed.

(** X22. The median that the reports compute on a nonempty history of real
    numbers is the textbook median of the ordered values (the middle one,
    or the mean of the two middle ones); it lies between any bounds of the
    values and does not depend on the order of the history. *)
Theorem X22_median_of_a_history (l : list R) (Hne : l <> []) :
  np_median (map Fin l) = Fin (median_spec l) /\
  Sorted Rle (Rsort l) /\ Permutation (Rsort l) l /\
  (forall lo hi, (forall x, In x l -> (lo <= x <= hi)%R) ->
     (lo <= median_spec l <= hi)%R) /\
  (forall l', Permutation l l' ->
     np_median (map Fin l') = np_median (map Fin l)).
Proof.
  split; [now apply np_median_fin|].
  split; [apply Rsort_Sorted|]. split; [apply Rsort_Permutation|].
  split; [intros lo hi; now apply median_spec_bounds|].
  intros l' Hp.
  assert (Hne' : l' <> []).
  { intros ->. apply Permutation_sym, Permutation_nil in Hp. congruence. }
  rewrite !np_median_fin by assumption. f_equal.
  unfold median_spec. cbv zeta.
  now rewrite (Rsort_perm_eq l l' Hp), (Permutation_length Hp).
Qed.

Lemma X22_median_of_a_history_witness :
  np_median (map Fin [3; 1; 2; 10]%R) = Fin (median_spec [3; 1; 2; 10]%R) /\
  (1 <= median_spec [3; 1; 2; 10]%R <= 10)%R.
Proof.
  destruct (X22_median_of_a_history [3; 1; 2; 10]%R ltac:(discriminate))
    as (Hm & _ & _ & Hb & _).
  split; [exact Hm|]. apply Hb.
  intros x [<-|[<-|[<-|[<-|[]]]]]; lra.
Defined.

Lemma Rsum_squares_nonneg (l : list R) (m : R) :
  (0 <= Rsum (map (fun x => (x - m) ^ 2)%R l))%R.
Proof.
  apply Rsum_nonneg. intros p Hp. apply in_map_iff in Hp.
  destruct Hp as (x & <- & _). apply pow2_ge_0.
Qed.

Lemma Rsum_squares_zero (l : list R) (m : R) :
  Rsum (map (fun x => (x - m) ^ 2)%R l) = 0%R <-> forall x, In x l -> x = m.
Proof.
  induction l as [|a l IH].
  - cbn. split; [tauto|reflexivity].
  - change (Rsum (map (fun x => (x - m) ^ 2)%R (a :: l)))
      with ((a - m) ^ 2 + Rsum (map (fun x => (x - m) ^ 2)%R l))%R.
    pose proof (pow2_ge_0 (a - m)) as Ha.
    pose proof (Rsum_squares_nonneg l m) as Hl. split.
    + intros H x [<-|Hx].
      * assert (Hz : ((a - m) ^ 2 = 0)%R) by lra.
        assert (a - m = 0)%R by nra. lra.
      * apply IH; [lra|exact Hx].
    + intros H. rewrite (proj2 IH) by (intros x Hx; apply H; now right).
      rewrite (H a) by (now left). lra.
Qed.

Lemma Rsum_const (l : list R) (v : R) :
  (forall x, In x l -> x = v) -> Rsum l = (INR (length l) * v)%R.
Proof.
  induction l as [|a l IH]; intros H.
  - cbn. lra.
  - change (Rsum (a :: l)) with (a + Rsum l)%R. rewrite length_cons, S_INR.
    rewrite IH by (intros x Hx; apply H; now right).
    rewrite (H a) by (now left). lra.
Qed.

Lemma np_std_fin (l : list R) :
  l <> [] -> np_std (map Fin l) = Fin (std_spec l).
Proof.
  intros Hne. unfold np_std, std_spec. cbv zeta.
  rewrite (xmean_fin l Hne). fold (Rmean l). rewrite map_map.
  rewrite (map_ext _ (fun x => Fin ((x - Rmean l) ^ 2)%R)).
  2:{ intros x. unfold xsquare, xsub. cbn [xadd xopp xabs xmul]. f_equal.
      replace (x + - Rmean l)%R with (x - Rmean l)%R by lra.
      rewrite <- Rabs_mult. rewrite Rabs_right; [ring|].
      apply Rle_ge. generalize (x - Rmean l)%R. intros t. nra. }
  rewrite <- (map_map (fun x => ((x - Rmean l) ^ 2)%R) Fin).
  rewrite xmean_fin by (destruct l; [congruence|discriminate]).
  rewrite length_map. unfold Rmean at 2. rewrite length_map.
  cbn [xsqrt]. rewrite Rltb_false; [reflexivity|].
  assert (Hl : (0 < INR (length l))%R).
  { apply lt_0_INR. destruct l; cbn; [congruence|lia]. }
  apply Rmult_le_reg_r with (INR (length l)); [exact Hl|].
  unfold Rdiv. rewrite Rmult_assoc, Rinv_l by lra.
  pose proof (Rsum_squares_nonneg l (Rmean l)). lra.
Qed.

(** X23. The standard deviation that the reports compute on a nonempty
    history of real numbers is the population standard deviation: a real
    number, never negative, and zero exactly when all values of the history
    are equal. *)
Theorem X23_std_of_a_history (l : list R) (Hne : l <> []) :
  np_std (map Fin l) = Fin (std_spec l) /\
  (0 <= std_spec l)%R /\
  (std_spec l = 0%R <-> forall x y, In x l -> In y l -> x = y).
Proof.
  split; [now apply np_std_fin|]. split; [apply sqrt_pos|].
  assert (Hl : (0 < INR (length l))%R).
  { apply lt_0_INR. destruct l; cbn; [congruence|lia]. }
  pose proof (Rsum_squares_nonneg l (Rmean l)) as Hs.
  assert (Hv : (0 <= Rmean (map (fun x => (x - Rmean l) ^ 2)%R l))%R).
  { unfold Rmean at 1. rewrite length_map.
    apply Rmult_le_reg_r with (INR (length l)); [exact Hl|].
    unfold Rdiv. rewrite Rmult_assoc, Rinv_l by lra. lra. }
  assert (Hzero : Rmean (map (fun x => (x - Rmean l) ^ 2)%R l) = 0%R <->
                  Rsum (map (fun x => (x - Rmean l) ^ 2)%R l) = 0%R).
  { unfold Rmean at 1. rewrite length_map. split.
    - intros H. apply (Rmult_eq_compat_r (INR (length l))) in H.
      unfold Rdiv in H. rewrite Rmult_assoc, Rinv_l in H by lra. lra.
    - intros ->. unfold Rdiv. apply Rmult_0_l. }
  unfold std_spec. split.
  - intros H. apply sqrt_eq_0 in H; [|exact Hv].
    apply (proj1 Hzero) in H.
    pose proof (proj1 (Rsum_squares_zero l (Rmean l)) H) as Hall.
    intros x y Hx Hy. now rewrite (Hall x), (Hall y).
  - intros H. replace (Rmean _) with 0%R; [apply sqrt_0|]. symmetry.
    apply (proj2 Hzero), (proj2 (Rsum_squares_zero l (Rmean l))). intros x Hx.
    destruct l as [|a l]; [contradiction|].
    assert (Hall : forall z, In z (a :: l) -> z = a).
    { intros z Hz. apply H; [exact Hz|now left]. }
    unfold Rmean. rewrite (Rsum_const (a :: l) a Hall), (Hall x Hx).
    field. lra.
Qed.

Lemma X23_std_of_a_history_witness :
  np_std (map Fin [2; 2; 2]%R) = Fin (std_spec [2; 2; 2]%R) /\
  std_spec [2; 2; 2]%R = 0%R.
Proof.
  destruct (X23_std_of_a_history [2; 2; 2]%R ltac:(discriminate))
    as (Hs & _ & Hz).
  split; [exact Hs|]. apply Hz.
  intros x y [<-|[<-|[<-|[]]]] [<-|[<-|[<-|[]]]]; reflexivity.
Defined.

(** ** The reports after a run *)

(** What the reports find for a stream in a state of a run. *)
Lemma stream_report_facts (c : Config) (s : System) (name : string) :
  sample_rate c <> 0%Z -> wf c s -> results_ok c s -> history_ok s ->
  name ∈ streams c ->
  exists r n,
    results s !! name = Some r /\ analysis_count s !! name = Some n /\
    length (snr_history r) = n /\ length (timestamp_history r) = n /\
    ((res_stats r = None /\ n = 0%nat) \/
     (exists st, res_stats r = Some st /\ (0 < n)%nat /\
                 db_finite (low_freq_power st))).
Proof.
  intros Hsr (Hd & _) Hres Hh Hin.
  destruct (Hd name Hin) as (_ & [r Hr] & [n Hn]).
  exists r, n. split; [exact Hr|]. split; [exact Hn|].
  destruct (Hh name r n Hr Hn) as (Ht & Hs & _).
  split; [exact Hs|]. split; [exact Ht|].
  specialize (Hres name r Hr). unfold latest_ok in Hres.
  destruct (res_stats r) as [st|].
  - right. exists st. split; [reflexivity|].
    destruct Hres as (audio & freq & psd_db & Hne & Hnorm & Ha & Hst & _ & _ & Hl & _).
    apply last_Some_nonempty in Hl. split.
    + destruct (snr_history r); [congruence|]. cbn in Hs. lia.
    + destruct (normalized_fin audio Hnorm) as (l & ->).
      destruct (chunk_band_values c l) as
        (freq' & psd' & st' & Ha' & Hst' & Hlow & _);
        [now destruct l|assumption|].
      rewrite Ha in Ha'. injection Ha' as <- <-.
      rewrite Hst in Hst'. now injection Hst' as <-.
  - left. destruct Hres as (_ & _ & Hs0 & _).
    rewrite Hs0 in Hs. cbn in Hs. now split.
Qed.

Lemma export_streams_spec (c : Config) (s : System) (names : list string) :
  sample_rate c <> 0%Z -> wf c s -> results_ok c s -> history_ok s ->
  Forall (fun n => n ∈ streams c) names ->
  exists entries,
    export_streams (results s) names = Ok entries /\
    (length entries <= length names)%nat /\
    (forall name e, In (name, e) entries ->
       name ∈ names /\
       analysis_count s !! name = Some (exp_chunk_count e) /\
       (0 < exp_chunk_count e)%nat /\
       length (exp_snr_history e) = exp_chunk_count e /\
       exp_snr_median e = np_median (exp_snr_history e) /\
       exp_snr_std e = np_std (exp_snr_history e) /\
       exists r, results s !! name = Some r /\
                 res_stats r = Some (exp_stats e) /\
                 exp_snr_history e = snr_history r) /\
    (forall name, name ∈ names -> analyzed s name ->
       exists e, In (name, e) entries).
Proof.
  intros Hsr Hwf Hres Hh. induction 1 as [|name names Hin _ IH].
  - exists []. cbn. split; [reflexivity|]. split; [lia|]. split; [tauto|].
    intros name Hn. now apply elem_of_nil in Hn.
  - destruct IH as (entries & He & Hlen & Hsound & Hcomplete).
    destruct (stream_report_facts c s name Hsr Hwf Hres Hh Hin)
      as (r & n & Hr & Hn & Hs & _ & Hcase).
    cbn [export_streams]. unfold dict_get at 1. rewrite Hr. cbn [bind].
    rewrite He. cbn [bind].
    eexists. split; [reflexivity|].
    destruct Hcase as [[Hst ->]|(st & Hst & Hpos & _)]; rewrite Hst.
    + cbn [app]. split; [cbn; lia|]. split.
      * intros b e Hb. destruct (Hsound b e Hb) as (Hbn & Hrest).
        split; [now apply elem_of_cons; right|exact Hrest].
      * intros b Hb Ha. apply elem_of_cons in Hb. destruct Hb as [->|Hb].
        -- destruct Ha as (k & Hk & Hk0). rewrite Hn in Hk.
           injection Hk as <-. lia.
        -- now apply Hcomplete.
    + cbn [app]. split; [cbn; lia|]. split.
      * intros b e [Hb|Hb].
        -- injection Hb as <- <-. cbn.
           split; [apply elem_of_cons; now left|].
           rewrite Hs. repeat (split; [assumption || reflexivity|]). eauto.
        -- destruct (Hsound b e Hb) as (Hbn & Hrest).
           split; [now apply elem_of_cons; right|exact Hrest].
      * intros b Hb Ha. apply elem_of_cons in Hb. destruct Hb as [->|Hb].
        -- eexists. now left.
        -- destruct (Hcomplete b Hb Ha) as (e & He'). exists e. now right.
Qed.

(** X24. After any run, [export_results] raises no [KeyError]; the exported
    streams are exactly the streams of which at least one chunk was
    analyzed; for each of them [chunk_count] is the stream's analysis counter
    and the length of the exported SNR history, and the median and the
    standard deviation are those of that history. *)
Theorem X24_exported_streams (c : Config) (duration start : R)
    (tr : list event) (Hsr : sample_rate c <> 0%Z) :
  exists s' entries,
    run c duration (init_system c start) tr = Ok s' /\
    export_streams (results s') (streams c) = Ok entries /\
    (length entries <= length (streams c))%nat /\
    (forall name, name ∈ streams c ->
       ((exists e, In (name, e) entries) <-> analyzed s' name)) /\
    (forall name e, In (name, e) entries ->
       name ∈ streams c /\
       analysis_count s' !! name = Some (exp_chunk_count e) /\
       length (exp_snr_history e) = exp_chunk_count e /\
       exp_snr_median e = np_median (exp_snr_history e) /\
       exp_snr_std e = np_std (exp_snr_history e) /\
       exists r, results s' !! name = Some r /\
                 res_stats r = Some (exp_stats e) /\
                 exp_snr_history e = snr_history r).
Proof.
  destruct (run_from_init c duration start tr Hsr)
    as (s' & Hrun & Hwf & _ & Hres & Hh).
  destruct (export_streams_spec c s' (streams c) Hsr Hwf Hres Hh)
    as (entries & He & Hlen & Hsound & Hcomplete).
  { apply Forall_forall. auto. }
  exists s', entries. do 3 (split; [assumption|]). split.
  - intros name Hin. split.
    + intros (e & Hin'). destruct (Hsound name e Hin') as (_ & Hc & Hpos & _).
      exists (exp_chunk_count e). now split.
    + now apply Hcomplete.
  - intros name e Hin. destruct (Hsound name e Hin)
      as (H1 & H2 & _ & H3 & H4 & H5 & H6). auto 10.
Qed.

Lemma X24_exported_streams_witness :
  exists s' entries,
    run (mkConfig 4 1 ["raw"]) 10 (init_system (mkConfig 4 1 ["raw"]) 0)
      [EvWorker "raw" [] 0; EvWorker "raw" [Byte.x01] 1; EvCoord 2; EvCoord 2]
      = Ok s' /\
    export_streams (results s') ["raw"] = Ok entries /\
    (length entries <= 1)%nat.
Proof.
  destruct (X24_exported_streams (mkConfig 4 1 ["raw"]) 10 0
              [EvWorker "raw" [] 0; EvWorker "raw" [Byte.x01] 1;
               EvCoord 2; EvCoord 2] ltac:(discriminate))
    as (s' & entries & Hrun & He & Hlen & _).
  exists s', entries. auto.
Defined.

Lemma adjacent_cons (a b x : string) (l : list string) :
  adjacent a b l -> adjacent a b (x :: l).
Proof. intros (pre & post & ->). now exists (x :: pre), post. Qed.

Lemma adjacent_inv (a b x y : string) (l : list string) :
  adjacent a b (x :: y :: l) -> (a = x /\ b = y) \/ adjacent a b (y :: l).
Proof.
  intros ([|p pre] & post & H); cbn in H.
  - injection H as -> -> _. now left.
  - injection H as -> H. right. now exists pre, post.
Qed.

Lemma adjacent_short (a b : string) (l : list string) :
  (length l <= 1)%nat -> ~ adjacent a b l.
Proof.
  intros Hl (pre & post & ->). rewrite length_app in Hl. cbn in Hl. lia.
Qed.

Lemma filter_effectiveness_cons (results : gmap string StreamResult)
    (curr next : string) (tl : list string) :
  filter_effectiveness results (curr :: next :: tl) =
  let* rc := dict_get results curr in
  let* row :=
    match res_stats rc with
    | None => Ok []
    | Some curr_stats =>
        let* rn := dict_get results next in
        match res_stats rn with
        | None => Ok []
        | Some next_stats =>
            Ok [mkEffectiveness curr next
                  (xsub (low_freq_power curr_stats) (low_freq_power next_stats))
                  (xsub (bird_freq_power next_stats) (bird_freq_power curr_stats))
                  (xsub (np_median (snr_history rn)) (np_median (snr_history rc)))]
        end
    end in
  let* rows := filter_effectiveness results (next :: tl) in
  Ok (row ++ rows).
Proof. reflexivity. Qed.

Lemma filter_effectiveness_spec (c : Config) (s : System) (names : list string) :
  sample_rate c <> 0%Z -> wf c s -> results_ok c s -> history_ok s ->
  Forall (fun n => n ∈ streams c) names ->
  exists rows,
    filter_effectiveness (results s) names = Ok rows /\
    (length rows <= length names - 1)%nat /\
    (forall row, In row rows ->
       adjacent (curr_name row) (next_name row) names /\
       analyzed s (curr_name row) /\ analyzed s (next_name row) /\
       (exists d, low_reduction row = Fin d) /\
       exists rc rn sc sn,
         results s !! curr_name row = Some rc /\ res_stats rc = Some sc /\
         results s !! next_name row = Some rn /\ res_stats rn = Some sn /\
         low_reduction row = xsub (low_freq_power sc) (low_freq_power sn) /\
         bird_change row = xsub (bird_freq_power sn) (bird_freq_power sc) /\
         median_snr_improvement row
           = xsub (np_median (snr_history rn)) (np_median (snr_history rc))) /\
    (forall a b, adjacent a b names -> analyzed s a -> analyzed s b ->
       exists row, In row rows /\ curr_name row = a /\ next_name row = b).
Proof.
  intros Hsr Hwf Hres Hh.
  induction names as [|curr names IH]; intros Hall.
  - exists []. cbn. split; [reflexivity|]. split; [lia|]. split; [tauto|].
    intros a b Hadj. exfalso. revert Hadj. apply adjacent_short. cbn. lia.
  - destruct names as [|next tl].
    + exists []. cbn. split; [reflexivity|]. split; [lia|]. split; [tauto|].
      intros a b Hadj. exfalso. revert Hadj. apply adjacent_short. cbn. lia.
    + apply Forall_cons in Hall. destruct Hall as [Hc Hall].
      pose proof Hall as Hall'. apply Forall_cons in Hall'.
      destruct Hall' as [Hn _].
      destruct (IH Hall) as (rows & Hrows & Hlen & Hsound & Hcomplete).
      destruct (stream_report_facts c s curr Hsr Hwf Hres Hh Hc)
        as (rc & nc & Hrc & Hnc & _ & _ & Hcc).
      destruct (stream_report_facts c s next Hsr Hwf Hres Hh Hn)
        as (rn & nn & Hrn & Hnn & _ & _ & Hcn).
      rewrite filter_effectiveness_cons. unfold dict_get at 1. rewrite Hrc. cbn [bind].
      destruct Hcc as [[Hsc ->]|(sc & Hsc & Hposc & (lc & Hlc & _))]; rewrite Hsc.
      * cbn [bind]. rewrite Hrows. cbn [bind app].
        exists rows. split; [reflexivity|]. split; [cbn in Hlen |- *; lia|]. split.
        -- intros row Hrow. destruct (Hsound row Hrow) as (Hadj & Hrest).
           split; [now apply adjacent_cons|exact Hrest].
        -- intros a b Hadj Ha Hb. apply adjacent_inv in Hadj.
           destruct Hadj as [[-> ->]|Hadj]; [|now apply Hcomplete].
           destruct Ha as (k & Hk & Hk0). rewrite Hnc in Hk.
           injection Hk as <-. lia.
      * unfold dict_get at 1. rewrite Hrn. cbn [bind].
        destruct Hcn as [[Hsn ->]|(sn & Hsn & Hposn & (ln & Hln & _))]; rewrite Hsn.
        -- cbn [bind]. rewrite Hrows. cbn [bind app].
           exists rows. split; [reflexivity|]. split; [cbn in Hlen |- *; lia|]. split.
           ++ intros row Hrow. destruct (Hsound row Hrow) as (Hadj & Hrest).
              split; [now apply adjacent_cons|exact Hrest].
           ++ intros a b Hadj Ha Hb. apply adjacent_inv in Hadj.
              destruct Hadj as [[-> ->]|Hadj]; [|now apply Hcomplete].
              destruct Hb as (k & Hk & Hk0). rewrite Hnn in Hk.
              injection Hk as <-. lia.
        -- cbn [bind]. rewrite Hrows. cbn [bind app].
           eexists. split; [reflexivity|]. split; [cbn in Hlen |- *; lia|]. split.
           ++ intros row [<-|Hrow].
              ** cbn. split; [now exists [], tl|].
                 split; [now exists nc|]. split; [now exists nn|].
                 split; [rewrite Hlc, Hln; cbn; eauto|].
                 exists rc, rn, sc, sn. auto 10.
              ** destruct (Hsound row Hrow) as (Hadj & Hrest).
                 split; [now apply adjacent_cons|exact Hrest].
           ++ intros a b Hadj Ha Hb. apply adjacent_inv in Hadj.
              destruct Hadj as [[-> ->]|Hadj].
              ** eexists. split; [now left|]. now split.
              ** destruct (Hcomplete a b Hadj Ha Hb) as (row & Hrow & Hab).
                 exists row. split; [now right|exact Hab].
Qed.

(** X25. After any run the FILTER EFFECTIVENESS section raises no
    [KeyError] and has one entry for each pair of consecutive streams that
    both had at least one chunk analyzed, and no other entry, so at most one
    less than there are streams; the low frequency reduction of an entry is
    always a real number, the difference of the latest low band powers. *)
Theorem X25_filter_effectiveness_entries (c : Config) (duration start : R)
    (tr : list event) (Hsr : sample_rate c <> 0%Z) :
  exists s' rows,
    run c duration (init_system c start) tr = Ok s' /\
    filter_effectiveness (results s') (streams c) = Ok rows /\
    (length rows <= length (streams c) - 1)%nat /\
    (forall row, In row rows ->
       adjacent (curr_name row) (next_name row) (streams c) /\
       analyzed s' (curr_name row) /\ analyzed s' (next_name row) /\
       (exists d, low_reduction row = Fin d) /\
       exists rc rn sc sn,
         results s' !! curr_name row = Some rc /\ res_stats rc = Some sc /\
         results s' !! next_name row = Some rn /\ res_stats rn = Some sn /\
         low_reduction row = xsub (low_freq_power sc) (low_freq_power sn) /\
         bird_change row = xsub (bird_freq_power sn) (bird_freq_power sc) /\
         median_snr_improvement row
           = xsub (np_median (snr_history rn)) (np_median (snr_history rc))) /\
    (forall a b, adjacent a b (streams c) -> analyzed s' a -> analyzed s' b ->
       exists row, In row rows /\ curr_name row = a /\ next_name row = b).
Proof.
  destruct (run_from_init c duration start tr Hsr)
    as (s' & Hrun & Hwf & _ & Hres & Hh).
  destruct (filter_effectiveness_spec c s' (streams c) Hsr Hwf Hres Hh)
    as (rows & Hrows & H).
  { apply Forall_forall. auto. }
  exists s', rows. auto.
Qed.

Lemma X25_filter_effectiveness_entries_witness :
  exists s' rows,
    run (mkConfig 4 1 ["raw"; "bird"]) 10
      (init_system (mkConfig 4 1 ["raw"; "bird"]) 0)
      [EvWorker "raw" [] 0; EvWorker "raw" [Byte.x01] 1; EvCoord 2; EvCoord 2]
      = Ok s' /\
    filter_effectiveness (results s') ["raw"; "bird"] = Ok rows /\
    (length rows <= 1)%nat.
Proof.
  destruct (X25_filter_effectiveness_entries (mkConfig 4 1 ["raw"; "bird"]) 10 0
              [EvWorker "raw" [] 0; EvWorker "raw" [Byte.x01] 1;
               EvCoord 2; EvCoord 2] ltac:(discriminate))
    as (s' & rows & Hrun & He & Hlen & _).
  exists s', rows. auto.
Defined.

(** ** The plots: colours and relative times *)

Lemma plot_colors_three (a b c0 d : string) :
  a <> b -> a <> c0 -> b <> c0 -> d <> a -> d <> b -> d <> c0 ->
  let m := plot_colors (a :: b :: c0 :: d :: []) in
  forall rest, plot_colors (a :: b :: c0 :: d :: rest) = m /\
    m !! a = palette !! 0%nat /\ m !! b = palette !! 1%nat /\
    m !! c0 = palette !! 2%nat /\ m !! d = None.
Proof.
  intros Hab Hac Hbc Hda Hdb Hdc m rest. unfold m, plot_colors, palette.
  cbn [zip zip_with fold_left fst snd]. split; [reflexivity|].
  split; [|split; [|split]].
  - rewrite !lookup_insert_ne by congruence. apply lookup_insert_eq.
  - rewrite lookup_insert_ne by congruence. apply lookup_insert_eq.
  - apply lookup_insert_eq.
  - rewrite !lookup_insert_ne by congruence. apply lookup_empty.
Qed.

Lemma NoDup_distinct2 (a b : string) (rest : list string) :
  NoDup (a :: b :: rest) -> a <> b.
Proof.
  rewrite NoDup_cons, elem_of_cons. intros [Ha _] ->. apply Ha. now left.
Qed.

Lemma NoDup_distinct3 (a b c0 : string) (rest : list string) :
  NoDup (a :: b :: c0 :: rest) -> a <> b /\ a <> c0 /\ b <> c0.
Proof.
  intros Hnd. split; [exact (NoDup_distinct2 _ _ _ Hnd)|].
  pose proof Hnd as Hnd'. apply NoDup_cons in Hnd'. destruct Hnd' as [Ha Hnd'].
  split; [|exact (NoDup_distinct2 _ _ _ Hnd')].
  intros ->. apply Ha. apply elem_of_cons. right. apply elem_of_cons. now left.
Qed.

Lemma NoDup_distinct4 (a b c0 d : string) (rest : list string) :
  NoDup (a :: b :: c0 :: d :: rest) ->
  a <> b /\ a <> c0 /\ b <> c0 /\ d <> a /\ d <> b /\ d <> c0.
Proof.
  intros Hnd. destruct (NoDup_distinct3 _ _ _ _ Hnd) as (Hab & Hac & Hbc).
  do 3 (split; [assumption|]).
  pose proof Hnd as Hnd'. apply NoDup_cons in Hnd'. destruct Hnd' as [Ha Hnd'].
  destruct (NoDup_distinct3 _ _ _ _ Hnd') as (_ & Hbd & Hcd).
  split; [|split; congruence].
  intros ->. apply Ha. do 2 (apply elem_of_cons; right).
  apply elem_of_cons. now left.
Qed.

(** X26. The colour dict of [plot_comparison] has an entry for the first
    three streams only: with distinct names, the list of colours for the
    histogram is the first colours of the palette when there are at most
    three streams, and raises [KeyError] when there are more. *)
Theorem X26_plot_colours (names : list string) (Hnd : NoDup names) :
  ((length names <= 3)%nat ->
     hist_colors names = Ok (take (length names) palette)) /\
  ((3 < length names)%nat -> hist_colors names = Raise KeyError).
Proof.
  destruct names as [|a [|b [|c0 [|d rest]]]]; cbn [length].
  - split; [reflexivity|lia].
  - split; [intros _|lia].
    unfold hist_colors, plot_colors, palette.
    cbn [zip zip_with fold_left fst snd colors_of take firstn].
    unfold dict_get. rewrite lookup_insert_eq. reflexivity.
  - pose proof (NoDup_distinct2 _ _ _ Hnd) as Hab.
    split; [intros _|lia].
    unfold hist_colors, plot_colors, palette.
    cbn [zip zip_with fold_left fst snd colors_of take firstn].
    unfold dict_get.
    rewrite lookup_insert_ne, lookup_insert_eq by congruence. cbn [bind].
    rewrite lookup_insert_eq. reflexivity.
  - destruct (NoDup_distinct3 _ _ _ _ Hnd) as (Hab & Hac & Hbc).
    split; [intros _|lia].
    unfold hist_colors, plot_colors, palette.
    cbn [zip zip_with fold_left fst snd colors_of take firstn].
    unfold dict_get.
    rewrite (lookup_insert_ne _ c0 a), (lookup_insert_ne _ b a),
      lookup_insert_eq by congruence. cbn [bind].
    rewrite (lookup_insert_ne _ c0 b), lookup_insert_eq by congruence.
    cbn [bind]. rewrite lookup_insert_eq. reflexivity.
  - destruct (NoDup_distinct4 _ _ _ _ _ Hnd)
      as (Hab & Hac & Hbc & Had & Hbd & Hcd).
    split; [lia|intros _].
    destruct (plot_colors_three a b c0 d Hab Hac Hbc Had Hbd Hcd rest)
      as (Hm & Hma & Hmb & Hmc & Hmd).
    unfold hist_colors. rewrite Hm. cbn [colors_of]. unfold dict_get.
    rewrite Hma, Hmb, Hmc, Hmd. reflexivity.
Qed.

Lemma X26_plot_colours_witness :
  hist_colors ["raw"; "filtered"; "bird"; "extra"]%string = Raise KeyError.
Proof.
  apply (X26_plot_colours ["raw"; "filtered"; "bird"; "extra"]%string).
  - repeat (apply NoDup_cons; split;
      [rewrite ?elem_of_cons, elem_of_nil; intros H;
       repeat (destruct H as [H|H]; try discriminate); exact H|]).
    apply NoDup_nil_2.
  - cbn. lia.
Defined.

Lemma run_timestamps (c : Config) (duration start : R) (tr : list event)
    (name : string) :
  sample_rate c <> 0%Z -> name ∈ streams c ->
  exists s' r,
    run c duration (init_system c start) tr = Ok s' /\
    results s' !! name = Some r /\
    length (snr_history r) = length (timestamp_history r) /\
    sublist (timestamp_history r) (clock_readings name tr).
Proof.
  intros Hsr Hin.
  destruct (run_from_init c duration start tr Hsr)
    as (s' & Hrun & Hwf' & _ & _ & Hh).
  destruct Hwf' as (Hd' & _).
  destruct (Hd' name Hin) as ([q Hq] & [r Hr] & [n Hn]).
  exists s', r. split; [exact Hrun|]. split; [exact Hr|].
  destruct (Hh name r n Hr Hn) as (H1 & H2 & _).
  split; [congruence|].
  assert (Hst : stamps_ok name ([] ++ tr) s').
  { eapply stamps_run; [apply wf_init|exact Hsr| |exact Hrun].
    intros r0 q0 Hr0 Hq0. cbn in Hr0, Hq0.
    apply dict_init_lookup_Some in Hr0, Hq0. subst. cbn. constructor. }
  cbn in Hst. specialize (Hst r q Hr Hq).
  apply sublist_app_l in Hst. destruct Hst as (k1 & k2 & -> & Hk1 & _).
  now apply sublist_inserts_r.
Qed.

Lemma Sorted_shift (l : list R) (t0 : R) :
  Sorted Rle l -> Sorted Rle (map (fun t => (t - t0)%R) l).
Proof.
  induction 1 as [|a l Hs IH Hhd]; cbn; constructor; [exact IH|].
  destruct Hhd as [|b l Hab]; cbn; constructor. lra.
Qed.

Lemma Sorted_head_least (t0 : R) (l : list R) :
  Sorted Rle (t0 :: l) -> Forall (fun t => (t0 <= t)%R) (t0 :: l).
Proof.
  intros Hs. apply Sorted_StronglySorted in Hs; [|exact Rle_Transitive].
  apply StronglySorted_inv in Hs. destruct Hs as [_ Hall].
  constructor; [lra|exact Hall].
Qed.


(** ** The end of the analysis loop *)

Lemma late_step (c : Config) (duration : R) (s s1 : System) (e : event) :
  wf c s -> sample_rate c <> 0%Z ->
  past_deadline duration (start_time s) e -> polling_suffix c s ->
  step c duration s e = Ok s1 ->
  polling_suffix c s1 /\
  steps_to_done (coord s1)
  = (steps_to_done (coord s) - coord_events [e])%nat.
Proof.
  intros Hwf Hsr Hlate Hsuf. destruct e as [n raw now|now]; cbn [step coord_events].
  - intros H. injection H as <-.
    destruct (worker_step_frame c s n raw now) as (_ & Hc & _).
    unfold polling_suffix. rewrite Hc. split; [exact Hsuf|lia].
  - cbn in Hlate. unfold coord_step. destruct (coord s) as [|[|n rest]|] eqn:Hc.
    + rewrite Rltb_false by lra. intros H. injection H as <-. cbn.
      split; [intros rest Hr; discriminate|reflexivity].
    + intros H. injection H as <-. cbn.
      split; [intros rest Hr; discriminate|reflexivity].
    + destruct (coord_poll_step c duration now s n rest Hwf Hsr Hc)
        as (s' & Hs' & Hc' & _).
      cbn [step] in Hs'. unfold coord_step in Hs'. rewrite Hc in Hs'.
      rewrite Hs'. intros H. injection H as <-. rewrite Hc'. cbn. split; [|lia].
      intros rest' Hr. rewrite Hc' in Hr. injection Hr as <-.
      destruct (Hsuf (n :: rest) Hc) as (done & Hd).
      exists (done ++ [n]). now rewrite <- app_assoc.
    + intros H. injection H as <-. rewrite Hc. cbn.
      split; [|reflexivity]. intros rest Hr. congruence.
Qed.

Lemma late_run (c : Config) (duration : R) (tr : list event) (s : System) :
  wf c s -> sample_rate c <> 0%Z -> polling_suffix c s ->
  Forall (past_deadline duration (start_time s)) tr ->
  exists s',
    run c duration s tr = Ok s' /\
    steps_to_done (coord s')
    = (steps_to_done (coord s) - coord_events tr)%nat.
Proof.
  intros Hwf Hsr. revert s Hwf.
  induction tr as [|e tr IH]; intros s Hwf Hsuf Hlate; cbn [run].
  - exists s. split; [reflexivity|]. cbn. lia.
  - apply Forall_cons in Hlate. destruct Hlate as [He Hlate].
    destruct (step_total c duration s e Hwf Hsr) as (s1 & Hs1 & Hwf1).
    rewrite Hs1. cbn [bind].
    destruct (late_step c duration s s1 e Hwf Hsr He Hsuf Hs1) as [Hsuf1 Hm].
    rewrite <- (start_time_step c duration s s1 e Hwf Hsr Hs1) in Hlate.
    destruct (IH s1 Hwf1 Hsuf1 Hlate) as (s' & Hrun & Hm').
    exists s'. split; [exact Hrun|]. rewrite Hm', Hm.
    destruct e; cbn [coord_events]; lia.
Qed.

Lemma polling_suffix_run (c : Config) (duration : R) (tr : list event)
    (s s' : System) :
  wf c s -> sample_rate c <> 0%Z -> polling_suffix c s ->
  run c duration s tr = Ok s' -> polling_suffix c s'.
Proof.
  intros Hwf Hsr. revert s Hwf.
  induction tr as [|e tr IH]; intros s Hwf Hsuf; cbn [run].
  - intros H. now injection H as <-.
  - destruct (step_total c duration s e Hwf Hsr) as (s1 & Hs1 & Hwf1).
    rewrite Hs1. cbn [bind]. apply IH; [assumption|].
    destruct e as [n raw now|now]; cbn [step] in Hs1.
    + injection Hs1 as <-.
      destruct (worker_step_frame c s n raw now) as (_ & Hc & _).
      unfold polling_suffix. now rewrite Hc.
    + unfold coord_step in Hs1. destruct (coord s) as [|[|n rest]|] eqn:Hc.
      * destruct (Rltb _ _); injection Hs1 as <-; intros rest Hr; cbn in Hr;
          [injection Hr as <-; now exists []|discriminate].
      * injection Hs1 as <-. intros rest Hr. discriminate.
      * destruct (coord_poll_step c duration now s n rest Hwf Hsr Hc)
          as (s2 & Hs2 & Hc2 & _).
        cbn [step] in Hs2. unfold coord_step in Hs2. rewrite Hc in Hs2.
        rewrite Hs2 in Hs1. injection Hs1 as <-.
        intros rest' Hr. rewrite Hc2 in Hr. injection Hr as <-.
        destruct (Hsuf (n :: rest) Hc) as (done & Hd).
        exists (done ++ [n]). now rewrite <- app_assoc.
      * injection Hs1 as <-. intros rest Hr. congruence.
Qed.

Lemma steps_to_done_zero (pc : coord_pc) : steps_to_done pc = 0%nat -> pc = Done.
Proof. destruct pc; cbn; intros H; [lia|lia|reflexivity]. Qed.

(** X28. The analysis loop ends: from any state of a run, once every test
    of the clock by the coordinator finds the duration elapsed, the
    coordinator needs at most two steps more than there are streams (the
    polls left in its round, the short sleep, the last test of the loop),
    whatever the capture threads do in between; then the loop is left and
    [running] is cleared. *)
Theorem X28_analysis_loop_ends (c : Config) (duration start : R)
    (pre tr : list event) (Hsr : sample_rate c <> 0%Z)
    (Hlate : Forall (past_deadline duration start) tr)
    (Hsteps : (length (streams c) + 2 <= coord_events tr)%nat) :
  exists s s',
    run c duration (init_system c start) pre = Ok s /\
    run c duration s tr = Ok s' /\
    (steps_to_done (coord s) <= length (streams c) + 2)%nat /\
    coord s' = Done /\ running s' = false.
Proof.
  pose proof (wf_init c start) as Hwf0.
  destruct (run_total c duration pre _ Hwf0 Hsr) as (s & Hrun & Hwf).
  assert (Hsuf0 : polling_suffix c (init_system c start)).
  { intros rest Hr. discriminate. }
  pose proof (polling_suffix_run c duration pre _ s Hwf0 Hsr Hsuf0 Hrun) as Hsuf.
  assert (Hst : start_time s = start).
  { now rewrite (start_time_run c duration pre _ s Hwf0 Hsr Hrun). }
  rewrite <- Hst in Hlate.
  destruct (late_run c duration tr s Hwf Hsr Hsuf Hlate) as (s' & Hrun' & Hm).
  assert (Hbound : (steps_to_done (coord s) <= length (streams c) + 2)%nat).
  { destruct (coord s) as [|rest|] eqn:Hc; cbn; try lia.
    destruct (Hsuf rest Hc) as (done & ->). rewrite length_app. lia. }
  exists s, s'. do 3 (split; [assumption|]).
  assert (Hdone : coord s' = Done) by (apply steps_to_done_zero; lia).
  split; [exact Hdone|].
  assert (Hf0 : flag_ok (init_system c start)).
  { split; discriminate. }
  pose proof (flag_ok_run c duration pre _ s Hwf0 Hsr Hf0 Hrun) as Hf.
  pose proof (flag_ok_run c duration tr s s' Hwf Hsr Hf Hrun') as Hf'.
  now apply Hf'.
Qed.

Lemma X28_analysis_loop_ends_witness :
  exists s s',
    run (mkConfig 4 1 ["raw"]) 10 (init_system (mkConfig 4 1 ["raw"]) 0)
      [EvWorker "raw" [] 0; EvCoord 1] = Ok s /\
    run (mkConfig 4 1 ["raw"]) 10 s
      [EvCoord 11; EvWorker "raw" [Byte.x01] 12; EvCoord 12; EvCoord 13] = Ok s' /\
    coord s' = Done /\ running s' = false.
Proof.
  destruct (X28_analysis_loop_ends (mkConfig 4 1 ["raw"]) 10 0
              [EvWorker "raw" [] 0; EvCoord 1]
              [EvCoord 11; EvWorker "raw" [Byte.x01] 12; EvCoord 12; EvCoord 13]
              ltac:(discriminate))
    as (s & s' & Hrun & Hrun' & _ & Hd & Hr).
  - repeat constructor; cbn; lra.
  - cbn. lia.
  - exists s, s'. auto.
Defined.

(** ** Reads of at most the requested size *)

Lemma nothing_captured_step (c : Config) (duration : R) (s s' : System)
    (e : event) :
  wf c s -> sample_rate c <> 0%Z -> chunk_size c = 0%Z -> read_bounded c e ->
  nothing_captured s -> step c duration s e = Ok s' -> nothing_captured s'.
Proof.
  intros Hwf Hsr Hcs Hread (Hq & Hr & Hn).
  destruct e as [n raw now|now]; cbn [step].
  - intros H. injection H as <-.
    destruct (worker_step_frame c s n raw now) as (_ & _ & Hres & Hcnt & _ & Hoth).
    unfold nothing_captured. rewrite Hres, Hcnt. split; [|split; assumption].
    intros b q Hb. destruct (decide (b = n)) as [->|Hne].
    + destruct (worker_step_queue c s n raw now)
        as [Heq|(q0 & q' & _ & _ & Hcap & _)].
      * rewrite Heq in Hb. eauto.
      * exfalso. cbn in Hread. unfold chunk_bytes in Hread. rewrite Hcs in Hread.
        destruct raw; [|cbn in Hread; lia]. discriminate.
    + destruct (Hoth b Hne) as [_ Hqb]. rewrite Hqb in Hb. eauto.
  - unfold coord_step. destruct (coord s) as [|[|n rest]|] eqn:Hc.
    + destruct (Rltb _ _); intros H; injection H as <-; repeat split; assumption.
    + intros H; injection H as <-; repeat split; assumption.
    + assert (Hin : n ∈ streams c).
      { destruct Hwf as (_ & Hp & _). specialize (Hp _ Hc).
        apply Forall_cons in Hp. tauto. }
      destruct (poll_stream_cases c s n Hwf Hsr Hin)
        as (q & r & m & Hq0 & Hr0 & Hm0 & [[_ Hp]|Hp]).
      * rewrite Hp. cbn [bind]. intros H; injection H as <-.
        repeat split; assumption.
      * destruct Hp as (ts & audio & rest' & _ & _ & _ & Hit & _).
        rewrite (Hq n q Hq0) in Hit. discriminate.
    + intros H; injection H as <-; repeat split; assumption.
Qed.

(** X29. When the chunk size is 0, every read asks for 0 bytes: if reads
    return at most what was asked for, every read is a zero-byte read, no
    frame is ever queued and nothing is ever analyzed, whatever the
    schedule. *)
Theorem X29_zero_chunk_size_analyzes_nothing (c : Config) (duration start : R)
    (tr : list event) (Hsr : sample_rate c <> 0%Z)
    (Hzero : chunk_size c = 0%Z)
    (Hreads : Forall (read_bounded c) tr) :
  exists s',
    run c duration (init_system c start) tr = Ok s' /\
    forall name, name ∈ streams c ->
      results s' !! name = Some empty_result /\
      analysis_count s' !! name = Some 0%nat /\
      exists q, audio_queues s' !! name = Some q /\ items q = [].
Proof.
  assert (Hgen : forall s, wf c s -> nothing_captured s ->
            exists s', run c duration s tr = Ok s' /\ wf c s' /\
                       nothing_captured s').
  { induction Hreads as [|e tr He Hreads IH]; intros s Hwf Hn; cbn [run].
    - eauto.
    - destruct (step_total c duration s e Hwf Hsr) as (s1 & Hs1 & Hwf1).
      rewrite Hs1. cbn [bind]. apply IH; [exact Hwf1|].
      exact (nothing_captured_step c duration s s1 e Hwf Hsr Hzero He Hn Hs1). }
  destruct (Hgen (init_system c start) (wf_init c start))
    as (s' & Hrun & (Hd & _) & Hq & Hr & Hn).
  { split; [|split].
    - intros name q H. cbn in H. apply dict_init_lookup_Some in H. now subst q.
    - intros name r H. cbn in H. now apply dict_init_lookup_Some in H.
    - intros name n H. cbn in H. now apply dict_init_lookup_Some in H. }
  exists s'. split; [exact Hrun|]. intros name Hin.
  destruct (Hd name Hin) as ([q Hq0] & [r Hr0] & [n Hn0]).
  rewrite Hr0, Hn0, (Hr name r Hr0), (Hn name n Hn0).
  split; [reflexivity|]. split; [reflexivity|]. exists q. eauto.
Qed.

(** At 4 Hz with chunks of 0.125 s the product is 0.5 and [int] gives 0. *)
Lemma X29_zero_chunk_size_analyzes_nothing_witness :
  exists s',
    run (mkConfig 4 0.125 ["raw"]) 10 (init_system (mkConfig 4 0.125 ["raw"]) 0)
      [EvWorker "raw" [] 0; EvWorker "raw" [] 1; EvCoord 2; EvCoord 2] = Ok s' /\
    results s' !! "raw" = Some empty_result.
Proof.
  assert (Hz : chunk_size (mkConfig 4 0.125 ["raw"]) = 0%Z).
  { unfold chunk_size, py_int. cbn [sample_rate chunk_duration].
    rewrite Rleb_true by lra. apply Zfloor_eq. cbn. lra. }
  destruct (X29_zero_chunk_size_analyzes_nothing (mkConfig 4 0.125 ["raw"]) 10 0
              [EvWorker "raw" [] 0; EvWorker "raw" [] 1; EvCoord 2; EvCoord 2]
              ltac:(discriminate) Hz) as (s' & Hrun & H).
  - repeat constructor; cbn; unfold chunk_bytes; rewrite Hz; cbn; lia.
  - exists s'. split; [exact Hrun|]. apply H, list_elem_of_here.
Defined.

Lemma frames_sized_step (c : Config) (duration : R) (s s' : System)
    (e : event) :
  wf c s -> sample_rate c <> 0%Z -> read_bounded c e -> frames_sized c s ->
  step c duration s e = Ok s' -> frames_sized c s'.
Proof.
  intros Hwf Hsr Hread Hn. destruct e as [n raw now|now]; cbn [step].
  - intros H. injection H as <-. intros b q1 Hb.
    destruct (worker_step_frame c s n raw now) as (_ & _ & _ & _ & _ & Hoth).
    destruct (decide (b = n)) as [->|Hne].
    + destruct (worker_step_queue c s n raw now)
        as [Heq|(q & q' & Hq0 & _ & Hcap & Hq1)].
      * rewrite Heq in Hb. eauto.
      * rewrite Hq1 in Hb. injection Hb as <-.
        destruct Hwf as (_ & _ & Hqs). destruct (Hqs n q Hq0) as (Hm & Hbd & _).
        destruct (capture_chunk_Some c q q' raw now Hm Hbd Hcap)
          as (audio & front & _ & Hf & _ & _ & _ & Hit & Hfr).
        rewrite Hit. apply Forall_app. split.
        -- specialize (Hn n q Hq0).
           destruct Hfr as [->| ->]; [assumption|now apply Forall_tl].
        -- constructor; [|constructor]. cbn [snd].
           destruct (frame_samples_length c raw Hread) as (codes & _ & Hfs & Hlen).
           rewrite Hf in Hfs. injection Hfs as ->. now rewrite length_map.
    + destruct (Hoth b Hne) as [_ Hqb]. rewrite Hqb in Hb. eauto.
  - unfold coord_step. destruct (coord s) as [|[|n rest]|] eqn:Hc.
    + destruct (Rltb _ _); intros H; injection H as <-; exact Hn.
    + intros H; injection H as <-; exact Hn.
    + assert (Hin : n ∈ streams c).
      { destruct Hwf as (_ & Hp & _). specialize (Hp _ Hc).
        apply Forall_cons in Hp. tauto. }
      destruct (poll_stream_cases c s n Hwf Hsr Hin)
        as (q & r & m & Hq0 & Hr0 & Hm0 & [[_ Hp]|Hp]).
      * rewrite Hp. cbn [bind]. intros H; injection H as <-. exact Hn.
      * destruct Hp as (ts & audio & rest' & freq & psd_db & st & Hit & _ & _ & Hp).
        rewrite Hp. cbn [bind]. intros H; injection H as <-.
        intros b q1. cbn. destruct (decide (n = b)) as [->|Hne].
        -- rewrite lookup_insert_eq. intros Hq1. injection Hq1 as <-. cbn.
           specialize (Hn b q Hq0). rewrite Hit in Hn.
           apply Forall_cons in Hn. tauto.
        -- rewrite lookup_insert_ne by assumption. apply Hn.
    + intros H; injection H as <-; exact Hn.
Qed.

Lemma spectra_ok_step (c : Config) (duration : R) (s s' : System) (e : event) :
  wf c s -> sample_rate c <> 0%Z -> frames_normalized s -> frames_sized c s ->
  spectra_ok c s -> step c duration s e = Ok s' -> spectra_ok c s'.
Proof.
  intros Hwf Hsr Hn Hz Hr. destruct e as [n raw now|now]; cbn [step].
  - intros H. injection H as <-.
    destruct (worker_step_frame c s n raw now) as (_ & _ & Hres & _).
    unfold spectra_ok. rewrite Hres. exact Hr.
  - unfold coord_step. destruct (coord s) as [|[|n rest]|] eqn:Hc.
    + destruct (Rltb _ _); intros H; injection H as <-; exact Hr.
    + intros H; injection H as <-; exact Hr.
    + assert (Hin : n ∈ streams c).
      { destruct Hwf as (_ & Hp & _). specialize (Hp _ Hc).
        apply Forall_cons in Hp. tauto. }
      destruct (poll_stream_cases c s n Hwf Hsr Hin)
        as (q & r & m & Hq0 & Hr0 & Hm0 & [[_ Hp]|Hp]).
      * rewrite Hp. cbn [bind]. intros H; injection H as <-. exact Hr.
      * destruct Hp as (ts & audio & rest' & freq & psd_db & st & Hit & Ha & Hst & Hp).
        rewrite Hp. cbn [bind]. intros H; injection H as <-.
        intros b r1 freq1. cbn. destruct (decide (n = b)) as [->|Hne].
        -- rewrite lookup_insert_eq. intros Hr1. injection Hr1 as <-. cbn.
           intros Hf. injection Hf as <-.
           destruct Hwf as (_ & _ & Hqs). destruct (Hqs b q Hq0) as (_ & _ & Hall).
           specialize (Hn b q Hq0). specialize (Hz b q Hq0).
           rewrite Hit in Hn, Hall, Hz.
           apply Forall_cons in Hn. apply Forall_cons in Hall.
           apply Forall_cons in Hz.
           destruct Hn as [Hnorm _]. destruct Hall as [Hne _].
           destruct Hz as [Hsz _]. cbn in Hnorm, Hne, Hsz.
           destruct (normalized_fin audio Hnorm) as (l & ->).
           rewrite length_map in Hsz.
           rewrite analyze_finite in Ha by (try assumption; now destruct l).
           injection Ha as <- <-. split.
           ++ unfold freq_axis. rewrite <- Hsz, Nat2Z.id. reflexivity.
           ++ exists l. split; [exact Hsz|reflexivity].
        -- rewrite lookup_insert_ne by assumption. apply Hr.
    + intros H; injection H as <-; exact Hr.
Qed.

(** X30. When reads return at most what was asked for, every queued frame
    has exactly [chunk_size] samples, so along any schedule the latest
    spectra of all streams lie on one frequency axis, the bins of a chunk of
    [chunk_size] samples, and each is the power spectrum of such a chunk. *)
Theorem X30_one_frequency_axis (c : Config) (duration start : R)
    (tr : list event) (Hsr : sample_rate c <> 0%Z)
    (Hreads : Forall (read_bounded c) tr) :
  exists s',
    run c duration (init_system c start) tr = Ok s' /\
    (forall name q, audio_queues s' !! name = Some q ->
       Forall (fun f : Frame => Z.of_nat (length (snd f)) = chunk_size c)
         (items q)) /\
    forall name r freq, results s' !! name = Some r -> res_freq r = Some freq ->
      freq = freq_axis c /\
      length freq = (Z.to_nat (chunk_size c) / 2 + 1)%nat /\
      exists samples,
        Z.of_nat (length samples) = chunk_size c /\
        res_psd r = Some (map (fun k => Fin (power_db_spec samples k))
                            (seq 0 (length samples / 2 + 1))).
Proof.
  assert (Hgen : forall s, wf c s -> frames_normalized s -> frames_sized c s ->
            spectra_ok c s ->
            exists s', run c duration s tr = Ok s' /\
                       frames_sized c s' /\ spectra_ok c s').
  { induction Hreads as [|e tr He Hreads IH]; intros s Hwf Hn Hz Hs; cbn [run].
    - eauto.
    - destruct (step_total c duration s e Hwf Hsr) as (s1 & Hs1 & Hwf1).
      rewrite Hs1. cbn [bind]. apply IH; [exact Hwf1| | |].
      + exact (frames_normalized_step c duration s s1 e Hwf Hsr Hn Hs1).
      + exact (frames_sized_step c duration s s1 e Hwf Hsr He Hz Hs1).
      + exact (spectra_ok_step c duration s s1 e Hwf Hsr Hn Hz Hs Hs1). }
  destruct (init_invariants c start) as (Hwf & Hn & _ & _).
  destruct (Hgen (init_system c start) Hwf Hn) as (s' & Hrun & Hz & Hs).
  { intros name q Hq. cbn in Hq. apply dict_init_lookup_Some in Hq. subst q.
    constructor. }
  { intros name r freq Hr Hf. cbn in Hr. apply dict_init_lookup_Some in Hr.
    subst r. discriminate. }
  exists s'. split; [exact Hrun|]. split; [exact Hz|].
  intros name r freq Hr Hf. destruct (Hs name r freq Hr Hf) as (-> & Hp).
  split; [reflexivity|]. split; [|exact Hp].
  unfold freq_axis. cbv zeta. now rewrite length_map, length_seq.
Qed.

Lemma X30_one_frequency_axis_witness :
  exists s',
    run (mkConfig 4 1 ["raw"]) 10 (init_system (mkConfig 4 1 ["raw"]) 0)
      [EvWorker "raw" [] 0; EvWorker "raw" [Byte.x01] 1; EvCoord 2; EvCoord 2]
      = Ok s' /\
    forall r freq, results s' !! "raw" = Some r -> res_freq r = Some freq ->
      freq = freq_axis (mkConfig 4 1 ["raw"]).
Proof.
  assert (Hcs : chunk_size (mkConfig 4 1 ["raw"]) = 4%Z).
  { apply chunk_size_exact. cbn. lra. }
  destruct (X30_one_frequency_axis (mkConfig 4 1 ["raw"]) 10 0
              [EvWorker "raw" [] 0; EvWorker "raw" [Byte.x01] 1;
               EvCoord 2; EvCoord 2] ltac:(discriminate))
    as (s' & Hrun & _ & H).
  - assert (Hb : forall n t, read_bounded (mkConfig 4 1 ["raw"])
                                (EvWorker "raw" (repeat Byte.x01 n) t) <->
                              (Z.of_nat n <= 8)%Z).
    { intros n t. cbn. unfold chunk_bytes. rewrite Hcs, repeat_length.
      reflexivity. }
    constructor; [apply (Hb 0%nat); lia|].
    constructor; [apply (Hb 1%nat); lia|].
    constructor; [exact I|]. constructor; [exact I|]. constructor.
  - exists s'. split; [exact Hrun|]. intros r freq Hr Hf.
    now destruct (H "raw" r freq Hr Hf).
Defined.

(** ** Band powers as arithmetic means *)

Lemma selected_unique (P : R -> Prop) (fs ps q1 q2 : list R) :
  selected P fs ps q1 -> selected P fs ps q2 -> q1 = q2.
Proof.
  intros H1. revert q2.
  induction H1 as [|f fs p ps qs Hf _ IH|f fs p ps qs Hf _ IH];
    intros q2 H2; inversion H2; subst; try contradiction.
  - reflexivity.
  - f_equal. now apply IH.
  - now apply IH.
Qed.

(** The mask of a band and the indexing by it select exactly the values at
    the frequencies in the band. *)
Lemma select_bins_selected (band : xreal -> bool) (P : R -> Prop)
    (fs ps : list R) :
  (forall f, band (Fin f) = true <-> P f) -> length fs = length ps ->
  exists qs,
    selected P fs ps qs /\
    select_bins band (map Fin fs) (map Fin ps) = map Fin qs /\
    (existsb band (map Fin fs) = false <-> qs = []).
Proof.
  intros Hband. revert ps.
  induction fs as [|f fs IH]; intros [|p ps] Hlen; try discriminate.
  - exists []. split; [constructor|]. split; [reflexivity|]. now split.
  - destruct (IH ps ltac:(cbn in Hlen; lia)) as (qs & Hsel & Hqs & Hnone).
    cbn [map select_bins existsb]. destruct (band (Fin f)) eqn:Hb.
    + exists (p :: qs). split; [constructor; [now apply Hband|exact Hsel]|].
      split; [now rewrite Hqs|]. split; discriminate.
    + exists qs. split.
      * apply selected_out; [|exact Hsel]. intros HP. apply Hband in HP.
        congruence.
      * split; [exact Hqs|exact Hnone].
Qed.

Lemma band_power_is_mean (band : xreal -> bool) (P : R -> Prop)
    (fs ps : list R) :
  (forall f, band (Fin f) = true <-> P f) -> length fs = length ps ->
  exists qs,
    selected P fs ps qs /\
    band_power_spec band (map Fin fs) (map Fin ps) = mean_or_ninf qs.
Proof.
  intros Hband Hlen.
  destruct (select_bins_selected band P fs ps Hband Hlen)
    as (qs & Hsel & Hqs & Hnone).
  exists qs. split; [exact Hsel|]. unfold band_power_spec.
  destruct (existsb band (map Fin fs)) eqn:Hex.
  - rewrite Hqs. destruct qs as [|q qs].
    + destruct Hnone as [_ Hn]. specialize (Hn eq_refl). discriminate.
    + now rewrite xmean_fin.
  - destruct Hnone as [Hn _]. now rewrite (Hn eq_refl).
Qed.

Lemma low_band_iff (f : R) : low_band (Fin f) = true <-> in_low f.
Proof. unfold low_band, in_low. cbn. apply Rltb_spec. Qed.

Lemma mid_band_iff (f : R) : mid_band (Fin f) = true <-> in_mid f.
Proof.
  unfold mid_band, in_mid. cbn.
  rewrite andb_true_iff, Rleb_spec, Rltb_spec. tauto.
Qed.

Lemma bird_band_iff (f : R) : bird_band (Fin f) = true <-> in_bird f.
Proof.
  unfold bird_band, in_bird. cbn.
  rewrite andb_true_iff, !Rleb_spec. tauto.
Qed.

Lemma high_band_iff (f : R) : high_band (Fin f) = true <-> in_high f.
Proof. unfold high_band, in_high. cbn. apply Rltb_spec. Qed.

(** X19. For every chunk of finite samples the low band power is a real
    number of at least -100 dB; the mid, bird and high band powers are such a
    number when a frequency of the returned axis lies in the band and minus
    infinity when none does; so the bird-to-low SNR is a real number when the
    axis has a frequency in the bird band and minus infinity when it has
    none, never NaN and never plus infinity. *)
Theorem X19_band_powers_of_a_chunk (c : Config) (samples : list R)
    (Hne : samples <> []) (Hsr : sample_rate c <> 0%Z) :
  exists freq psd_db st,
    analyze_frequency_spectrum c (map Fin samples) = Ok (freq, psd_db) /\
    compute_statistics (map Fin samples) freq psd_db = Ok st /\
    db_finite (low_freq_power st) /\
    (forall get band,
       In (get, band) [(mid_freq_power, mid_band); (bird_freq_power, bird_band);
                       (high_freq_power, high_band)] ->
       ((exists f, In f freq /\ band f = true) /\ db_finite (get st))
       \/ ((forall f, In f freq -> band f = false) /\ get st = NInf)) /\
    ((exists f, In f freq /\ bird_band f = true) ->
     exists r, snr_bird_to_low st = Fin r) /\
    ((forall f, In f freq -> bird_band f = false) ->
     snr_bird_to_low st = NInf).
Proof.
  set (m := (length samples / 2 + 1)%nat).
  set (fs := map (fun k => bin_frequency (sample_rate c) (length samples) k) (seq 0 m)).
  set (ps := map (fun k => power_db_spec samples k) (seq 0 m)).
  assert (Ha : analyze_frequency_spectrum c (map Fin samples)
               = Ok (map Fin fs, map Fin ps)).
  { rewrite analyze_finite by assumption.
    unfold fs, ps. now rewrite !map_map. }
  assert (Hlen : length fs = length ps).
  { unfold fs, ps. now rewrite !length_map. }
  assert (Hlo : forall p, In p ps -> (-100 <= p)%R).
  { intros p Hp. unfold ps in Hp. apply in_map_iff in Hp.
    destruct Hp as (k & <- & _). apply power_db_spec_floor. }
  destruct (compute_statistics_ok (map Fin samples) (map Fin fs) (map Fin ps))
    as (pk & roll & _ & _ & _ & Hst).
  { destruct samples; [congruence|discriminate]. }
  { now rewrite !length_map. }
  { unfold ps, m. rewrite Nat.add_1_r. discriminate. }
  assert (Hband : forall band,
            ((exists f, In f (map Fin fs) /\ band f = true) /\
             db_finite (band_power_spec band (map Fin fs) (map Fin ps)))
            \/ ((forall f, In f (map Fin fs) -> band f = false) /\
                band_power_spec band (map Fin fs) (map Fin ps) = NInf)).
  { intros band.
    destruct (band_power_cases band fs ps Hlen Hlo) as [[Hex Hv]|[Hex Hv]].
    - left. split; [|exact Hv]. now apply existsb_exists.
    - right. split; [|exact Hv]. intros f Hf.
      destruct (band f) eqn:Hb; [|reflexivity].
      assert (Ht : existsb band (map Fin fs) = true)
        by (apply existsb_exists; eauto).
      congruence. }
  assert (Hlow : db_finite (band_power_spec low_band (map Fin fs) (map Fin ps))).
  { destruct (Hband low_band) as [[_ Hv]|[Hno _]]; [exact Hv|].
    exfalso. specialize (Hno (Fin (bin_frequency (sample_rate c) (length samples) 0))).
    rewrite (proj2 (low_band_iff _)) in Hno.
    - discriminate Hno. unfold fs, m. rewrite Nat.add_1_r. now left.
    - unfold in_low, bin_frequency. cbn [INR]. unfold Rdiv.
      rewrite !Rmult_0_l. lra. }
  eexists _, _, _. split; [exact Ha|]. split; [exact Hst|].
  cbn [low_freq_power mid_freq_power bird_freq_power high_freq_power
       snr_bird_to_low snr_bird_to_mid].
  split; [exact Hlow|]. split.
  - intros get band [Hin|[Hin|[Hin|[]]]]; injection Hin as <- <-;
      cbn [mid_freq_power bird_freq_power high_freq_power]; apply Hband.
  - destruct Hlow as (l & -> & _).
    destruct (Hband bird_band) as [[Hyes (b & -> & _)]|[Hno ->]];
      cbn [xsub xadd xopp].
    + split; [eauto|]. intros Hnone. destruct Hyes as (f & Hf & Hb).
      rewrite (Hnone f Hf) in Hb. discriminate.
    + split; [|reflexivity]. intros (f & Hf & Hb).
      rewrite (Hno f Hf) in Hb. discriminate.
Qed.

Lemma X19_band_powers_of_a_chunk_witness :
  exists freq psd_db st,
    analyze_frequency_spectrum (mkConfig 48000 1 ["raw"]) (map Fin [0; 1; 0; -1]%R)
      = Ok (freq, psd_db) /\
    compute_statistics (map Fin [0; 1; 0; -1]%R) freq psd_db = Ok st /\
    db_finite (low_freq_power st).
Proof.
  destruct (X19_band_powers_of_a_chunk (mkConfig 48000 1 ["raw"]) [0; 1; 0; -1]%R
              ltac:(discriminate) ltac:(discriminate))
    as (freq & psd_db & st & Ha & Hst & Hlow & _).
  exists freq, psd_db, st. auto.
Defined.

(** C2. For a spectral slice of real frequencies and real power values,
    each band power is the arithmetic mean, sum divided by count, of the
    power values at the bins whose frequency lies in the band (low below
    1000 Hz, mid from 1000 up to but not including 3000 Hz, bird from 3000 to
    8000 Hz inclusive, high above 8000 Hz), and minus infinity, without an
    error, when no bin lies in the band.  The two SNR values are the real
    differences bird minus low and bird minus mid when both powers are real;
    with an empty band the infinities propagate: minus infinity minus a real
    is minus infinity, a real minus minus infinity is plus infinity, and
    minus infinity minus minus infinity is NaN, returned like any other
    value. *)
Theorem C2_band_powers_and_snr (audio_data : list xreal) (fs ps : list R)
    (Haudio : audio_data <> [])
    (Hlen : length fs = length ps)
    (Hps : ps <> []) :
  exists st q_low q_mid q_bird q_high,
    compute_statistics audio_data (map Fin fs) (map Fin ps) = Ok st /\
    selected in_low fs ps q_low /\ low_freq_power st = mean_or_ninf q_low /\
    selected in_mid fs ps q_mid /\ mid_freq_power st = mean_or_ninf q_mid /\
    selected in_bird fs ps q_bird /\ bird_freq_power st = mean_or_ninf q_bird /\
    selected in_high fs ps q_high /\ high_freq_power st = mean_or_ninf q_high /\
    (forall b l, bird_freq_power st = Fin b -> low_freq_power st = Fin l ->
       snr_bird_to_low st = Fin (b - l)) /\
    (forall b m, bird_freq_power st = Fin b -> mid_freq_power st = Fin m ->
       snr_bird_to_mid st = Fin (b - m)) /\
    (forall l, q_bird = [] -> low_freq_power st = Fin l ->
       snr_bird_to_low st = NInf) /\
    (forall m, q_bird = [] -> mid_freq_power st = Fin m ->
       snr_bird_to_mid st = NInf) /\
    (forall b, bird_freq_power st = Fin b -> q_low = [] ->
       snr_bird_to_low st = PInf) /\
    (forall b, bird_freq_power st = Fin b -> q_mid = [] ->
       snr_bird_to_mid st = PInf) /\
    (q_bird = [] -> q_low = [] -> snr_bird_to_low st = NaN) /\
    (q_bird = [] -> q_mid = [] -> snr_bird_to_mid st = NaN).
Proof.
  destruct (compute_statistics_ok audio_data (map Fin fs) (map Fin ps))
    as (pk & roll & _ & _ & _ & Hst).
  { exact Haudio. }
  { now rewrite !length_map. }
  { destruct ps; [congruence|discriminate]. }
  destruct (band_power_is_mean low_band in_low fs ps low_band_iff Hlen)
    as (ql & Hsl & Hl).
  destruct (band_power_is_mean mid_band in_mid fs ps mid_band_iff Hlen)
    as (qm & Hsm & Hm).
  destruct (band_power_is_mean bird_band in_bird fs ps bird_band_iff Hlen)
    as (qb & Hsb & Hb).
  destruct (band_power_is_mean high_band in_high fs ps high_band_iff Hlen)
    as (qh & Hsh & Hh).
  eexists _, ql, qm, qb, qh. split; [exact Hst|].
  cbn [low_freq_power mid_freq_power bird_freq_power high_freq_power
       snr_bird_to_low snr_bird_to_mid].
  rewrite Hl, Hm, Hb, Hh.
  do 8 (split; [assumption || reflexivity|]).
  assert (Hdiff : forall x y, xsub (Fin x) (Fin y) = Fin (x - y)).
  { intros x y. reflexivity. }
  split; [intros b l -> ->; apply Hdiff|].
  split; [intros b m -> ->; apply Hdiff|].
  split; [intros l -> ->; reflexivity|].
  split; [intros m -> ->; reflexivity|].
  split; [intros b -> ->; reflexivity|].
  split; [intros b -> ->; reflexivity|].
  split; intros -> ->; reflexivity.
Qed.

(** Bins at 500, 4000 and 5000 Hz with -10, -20 and -40 dB: the low power
    is -10, the bird power is the mean -30 of the two bird bins, the mid
    band is empty; the bird-to-low SNR is -20 and the bird-to-mid SNR is
    plus infinity. *)
Lemma C2_band_powers_and_snr_witness :
  exists st,
    compute_statistics [Fin 0] (map Fin [500; 4000; 5000]%R)
      (map Fin [-10; -20; -40]%R) = Ok st /\
    low_freq_power st = Fin (-10) /\ bird_freq_power st = Fin (-30) /\
    mid_freq_power st = NInf /\ high_freq_power st = NInf /\
    snr_bird_to_low st = Fin (-20) /\ snr_bird_to_mid st = PInf.
Proof.
  destruct (C2_band_powers_and_snr [Fin 0] [500; 4000; 5000]%R
              [-10; -20; -40]%R ltac:(discriminate) eq_refl ltac:(discriminate))
    as (st & ql & qm & qb & qh & Hst & Hsl & Hl & Hsm & Hm & Hsb & Hb &
        Hsh & Hh & Hsnr1 & _ & _ & _ & _ & Hsnr2 & _).
  assert (Eql : ql = [-10]%R).
  { apply (selected_unique in_low [500; 4000; 5000]%R [-10; -20; -40]%R);
      [exact Hsl|].
    apply selected_in; [unfold in_low; lra|].
    apply selected_out; [unfold in_low; lra|].
    apply selected_out; [unfold in_low; lra|]. constructor. }
  assert (Eqm : qm = []).
  { apply (selected_unique in_mid [500; 4000; 5000]%R [-10; -20; -40]%R);
      [exact Hsm|].
    repeat (apply selected_out; [unfold in_mid; lra|]). constructor. }
  assert (Eqb : qb = [-20; -40]%R).
  { apply (selected_unique in_bird [500; 4000; 5000]%R [-10; -20; -40]%R);
      [exact Hsb|].
    apply selected_out; [unfold in_bird; lra|].
    apply selected_in; [unfold in_bird; lra|].
    apply selected_in; [unfold in_bird; lra|]. constructor. }
  assert (Eqh : qh = []).
  { apply (selected_unique in_high [500; 4000; 5000]%R [-10; -20; -40]%R);
      [exact Hsh|].
    repeat (apply selected_out; [unfold in_high; lra|]). constructor. }
  subst ql qm qb qh.
  assert (Hlow : low_freq_power st = Fin (-10)).
  { rewrite Hl. unfold mean_or_ninf, Rsum. cbn. f_equal. lra. }
  assert (Hbird : bird_freq_power st = Fin (-30)).
  { rewrite Hb. unfold mean_or_ninf, Rsum. cbn. f_equal. lra. }
  exists st. split; [exact Hst|]. split; [exact Hlow|]. split; [exact Hbird|].
  split; [exact Hm|]. split; [exact Hh|]. split.
  - rewrite (Hsnr1 _ _ Hbird Hlow). f_equal. lra.
  - exact (Hsnr2 _ Hbird eq_refl).
Defined.

(** ** Timestamps are the clock readings of the capture thread *)

Lemma worker_passes_test (c : Config) (s : System) (n : string)
    (raw : list byte) (now : R) :
  workers s !! n = Some AtHead -> running s = true ->
  worker_step c s n raw now = set_worker s n Reading.
Proof. intros Hw Hr. unfold worker_step. now rewrite Hw, Hr. Qed.

Lemma worker_reads_frame (c : Config) (s : System) (n : string)
    (q : FrameQueue) (raw : list byte) (now : R) :
  workers s !! n = Some Reading -> audio_queues s !! n = Some q ->
  (qsize q < maxsize q)%Z -> raw <> [] ->
  (Z.of_nat (length raw) <= chunk_bytes c)%Z ->
  exists audio,
    worker_step c s n raw now
    = set_worker (set_queue s n (mkQueue (maxsize q) (items q ++ [(now, audio)])))
        n AtHead.
Proof.
  intros Hw Hq Hroom Hraw Hlen.
  destruct (frame_samples_length c raw Hlen) as (codes & _ & Hf & _).
  exists (map pcm_to_float codes).
  unfold worker_step. rewrite Hw, Hq. unfold capture_chunk.
  destruct raw; [congruence|]. cbn [length Nat.eqb].
  rewrite Hf. cbn [bind]. now rewrite enqueue_room.
Qed.

Lemma coord_sleeps (c : Config) (duration now : R) (s : System) :
  coord s = Polling [] ->
  step c duration s (EvCoord now) = Ok (set_coord s Head).
Proof. intros Hc. cbn [step]. unfold coord_step. now rewrite Hc. Qed.

Lemma coord_polls_frame (c : Config) (duration now : R) (s : System)
    (n : string) (rest : list string) (q : FrameQueue) (ts : R)
    (audio : list xreal) (later : list Frame) (r : StreamResult) :
  wf c s -> sample_rate c <> 0%Z -> coord s = Polling (n :: rest) ->
  audio_queues s !! n = Some q -> items q = (ts, audio) :: later ->
  results s !! n = Some r ->
  exists s' r',
    step c duration s (EvCoord now) = Ok s' /\ wf c s' /\
    coord s' = Polling rest /\ start_time s' = start_time s /\
    audio_queues s' !! n = Some (mkQueue (maxsize q) later) /\
    results s' !! n = Some r' /\
    timestamp_history r' = timestamp_history r ++ [ts] /\
    exists v, snr_history r' = snr_history r ++ [v].
Proof.
  intros Hwf Hsr Hc Hq Hit Hr.
  assert (Hin : n ∈ streams c).
  { destruct Hwf as (_ & Hp & _). specialize (Hp _ Hc).
    apply Forall_cons in Hp. tauto. }
  destruct (step_total c duration s (EvCoord now) Hwf Hsr) as (s' & Hs' & Hwf').
  destruct (poll_stream_cases c s n Hwf Hsr Hin)
    as (q0 & r0 & m & Hq0 & Hr0 & _ & [[Hnil _]|Hp]).
  { rewrite Hq in Hq0. injection Hq0 as <-. rewrite Hit in Hnil. discriminate. }
  destruct Hp as (ts0 & audio0 & later0 & freq & psd_db & st & Hit0 & _ & _ & Hp).
  rewrite Hq in Hq0. injection Hq0 as <-. rewrite Hr in Hr0. injection Hr0 as <-.
  rewrite Hit in Hit0. injection Hit0 as <- <- <-.
  cbn [step] in Hs'. unfold coord_step in Hs'. rewrite Hc, Hp in Hs'.
  cbn [bind] in Hs'. injection Hs' as <-.
  eexists _, _. split.
  { cbn [step]. unfold coord_step. rewrite Hc, Hp. reflexivity. }
  split; [exact Hwf'|]. split; [reflexivity|]. split; [reflexivity|].
  cbn. rewrite !lookup_insert_eq.
  split; [reflexivity|]. split; [reflexivity|]. split; [reflexivity|].
  eexists. reflexivity.
Qed.

(** One stream, two reads at the clock readings [t1] and [t2] (the loop
    tests before them at [h1] and [h2]), then two
    rounds of the coordinator: the history holds [t1] and [t2] in this
    order, whatever the two readings are. *)
Lemma two_frames_history (h1 t1 h2 t2 : R) :
  exists s' r,
    run (mkConfig 4 1 ["raw"]) 10 (init_system (mkConfig 4 1 ["raw"]) 0)
      [EvWorker "raw" [] h1; EvWorker "raw" [Byte.x01] t1;
       EvWorker "raw" [] h2; EvWorker "raw" [Byte.x01] t2;
       EvCoord 6; EvCoord 6; EvCoord 6; EvCoord 6; EvCoord 6] = Ok s' /\
    results s' !! "raw" = Some r /\
    snr_history r <> [] /\
    timestamp_history r = [t1; t2].
Proof.
  set (c := mkConfig 4 1 ["raw"]).
  assert (Hsr : sample_rate c <> 0%Z) by discriminate.
  assert (Hin : "raw" ∈ streams c) by apply list_elem_of_here.
  assert (Hread : (Z.of_nat (length [Byte.x01]) <= chunk_bytes c)%Z).
  { unfold chunk_bytes, bytes_per_sample.
    rewrite (chunk_size_exact c 4) by (cbn; lra). cbn. lia. }
  pose proof (wf_init c 0) as Hwf0.
  (* the thread passes its loop test and reads at [t1] *)
  pose proof (worker_passes_test c (init_system c 0) "raw" [] h1
                (dict_init_lookup (streams c) AtHead "raw" Hin) eq_refl) as E1.
  set (s1 := set_worker (init_system c 0) "raw" Reading) in E1.
  assert (Hwf1 : wf c s1) by (rewrite <- E1; now apply worker_step_wf).
  destruct (worker_reads_frame c s1 "raw" (new_queue queue_maxsize)
              [Byte.x01] t1) as (a1 & E2).
  { apply lookup_insert_eq. }
  { exact (dict_init_lookup (streams c) (new_queue queue_maxsize) "raw" Hin). }
  { unfold qsize, queue_maxsize. cbn. lia. }
  { discriminate. }
  { exact Hread. }
  cbn [maxsize items new_queue app] in E2.
  set (q1 := mkQueue queue_maxsize [(t1, a1)]) in E2.
  set (s2 := set_worker (set_queue s1 "raw" q1) "raw" AtHead) in E2.
  assert (Hwf2 : wf c s2) by (rewrite <- E2; now apply worker_step_wf).
  (* again, at [t2] *)
  pose proof (worker_passes_test c s2 "raw" [] h2
                (lookup_insert_eq _ _ _) eq_refl) as E3.
  set (s3 := set_worker s2 "raw" Reading) in E3.
  assert (Hwf3 : wf c s3) by (rewrite <- E3; now apply worker_step_wf).
  destruct (worker_reads_frame c s3 "raw" q1 [Byte.x01] t2) as (a2 & E4).
  { apply lookup_insert_eq. }
  { cbn. apply lookup_insert_eq. }
  { unfold q1, qsize, queue_maxsize. cbn. lia. }
  { discriminate. }
  { exact Hread. }
  cbn [maxsize items q1 app] in E4.
  set (q2 := mkQueue queue_maxsize [(t1, a1); (t2, a2)]) in E4.
  set (s4 := set_worker (set_queue s3 "raw" q2) "raw" AtHead) in E4.
  assert (Hwf4 : wf c s4) by (rewrite <- E4; now apply worker_step_wf).
  (* the coordinator starts a round and takes the first frame *)
  pose proof (coord_head_step c 10 6 s4 eq_refl ltac:(cbn; lra)) as E5.
  set (s5 := set_coord s4 (Polling (streams c))) in E5.
  assert (Hwf5 : wf c s5).
  { destruct (step_total c 10 s4 (EvCoord 6) Hwf4 Hsr) as (t & Ht & Hw).
    rewrite E5 in Ht. now injection Ht as <-. }
  destruct (coord_polls_frame c 10 6 s5 "raw" [] q2 t1 a1 [(t2, a2)]
              empty_result Hwf5 Hsr eq_refl)
    as (s6 & r6 & E6 & Hwf6 & Hc6 & Hst6 & Hq6 & Hr6 & Ht6 & _).
  { cbn. apply lookup_insert_eq. }
  { reflexivity. }
  { exact (dict_init_lookup (streams c) empty_result "raw" Hin). }
  (* the sleep, the next round, the second frame *)
  pose proof (coord_sleeps c 10 6 s6 Hc6) as E7.
  set (s7 := set_coord s6 Head) in E7.
  assert (Hwf7 : wf c s7).
  { destruct (step_total c 10 s6 (EvCoord 6) Hwf6 Hsr) as (t & Ht & Hw).
    rewrite E7 in Ht. now injection Ht as <-. }
  pose proof (coord_head_step c 10 6 s7 eq_refl
                ltac:(cbn [start_time s7 set_coord]; rewrite Hst6; cbn; lra)) as E8.
  set (s8 := set_coord s7 (Polling (streams c))) in E8.
  assert (Hwf8 : wf c s8).
  { destruct (step_total c 10 s7 (EvCoord 6) Hwf7 Hsr) as (t & Ht & Hw).
    rewrite E8 in Ht. now injection Ht as <-. }
  destruct (coord_polls_frame c 10 6 s8 "raw" [] (mkQueue (maxsize q2) [(t2, a2)])
              t2 a2 [] r6 Hwf8 Hsr eq_refl Hq6 eq_refl Hr6)
    as (s9 & r9 & E9 & Hwf9 & _ & _ & _ & Hr9 & Ht9 & v9 & Hv9).
  exists s9, r9. split.
  - cbn [run]. change (step c 10 (init_system c 0) (EvWorker "raw" [] h1))
      with (Ok (worker_step c (init_system c 0) "raw" [] h1)).
    rewrite E1. cbn [bind].
    change (step c 10 s1 (EvWorker "raw" [Byte.x01] t1))
      with (Ok (worker_step c s1 "raw" [Byte.x01] t1)).
    rewrite E2. cbn [bind].
    change (step c 10 s2 (EvWorker "raw" [] h2))
      with (Ok (worker_step c s2 "raw" [] h2)).
    rewrite E3. cbn [bind].
    change (step c 10 s3 (EvWorker "raw" [Byte.x01] t2))
      with (Ok (worker_step c s3 "raw" [Byte.x01] t2)).
    rewrite E4. cbn [bind].
    rewrite E5. cbn [bind]. rewrite E6. cbn [bind]. rewrite E7. cbn [bind].
    rewrite E8. cbn [bind]. rewrite E9. reflexivity.
  - split; [exact Hr9|]. split.
    + rewrite Hv9. now destruct (snr_history r6).
    + rewrite Ht9, Ht6. reflexivity.
Qed.

(** The timestamps of a history need not be ordered: the capture thread
    stores what [time.time()] returns (line 172), the coordinator appends
    the stored values in queue order, and nothing sorts or clamps them.  When
    the wall clock is set back between two reads, from 5 to 3 here, the
    history holds 5 before 3. *)
Lemma C9_timestamps_can_decrease :
  exists s' r,
    run (mkConfig 4 1 ["raw"]) 10 (init_system (mkConfig 4 1 ["raw"]) 0)
      [EvWorker "raw" [] 0; EvWorker "raw" [Byte.x01] 5;
       EvWorker "raw" [] 0; EvWorker "raw" [Byte.x01] 3;
       EvCoord 6; EvCoord 6; EvCoord 6; EvCoord 6; EvCoord 6] = Ok s' /\
    results s' !! "raw" = Some r /\
    timestamp_history r = [5; 3]%R /\
    ~ Sorted Rle (timestamp_history r).
Proof.
  destruct (two_frames_history 0 5 0 3) as (s' & r & Hrun & Hr & _ & Ht).
  exists s', r. split; [exact Hrun|]. split; [exact Hr|]. split; [exact Ht|].
  rewrite Ht. intros Hs. apply Sorted_inv in Hs. destruct Hs as [_ Hhd].
  apply HdRel_inv in Hhd. lra.
Qed.

(** X27. For the plot of the SNR over time, after any run: when a stream
    has no history the relative times cannot be computed ([timestamps[0]]
    raises), which the guard of the plot excludes; when it has, there are as
    many relative times as SNR values and the first is 0; and when the clock
    readings of the stream's thread never go back, the relative times are
    never negative and never decrease. *)
Theorem X27_relative_times (c : Config) (duration start : R)
    (tr : list event) (name : string)
    (Hsr : sample_rate c <> 0%Z) (Hin : name ∈ streams c) :
  exists s' r,
    run c duration (init_system c start) tr = Ok s' /\
    results s' !! name = Some r /\
    (snr_history r = [] -> rel_times (timestamp_history r) = Raise IndexError) /\
    (snr_history r <> [] ->
     exists rel,
       rel_times (timestamp_history r) = Ok rel /\
       length rel = length (snr_history r) /\
       head rel = Some 0%R /\
       (Sorted Rle (clock_readings name tr) ->
        Forall (fun t => (0 <= t)%R) rel /\ Sorted Rle rel)).
Proof.
  destruct (run_timestamps c duration start tr name Hsr Hin)
    as (s' & r & Hrun & Hr & Hlen & Hsub).
  exists s', r. split; [exact Hrun|]. split; [exact Hr|].
  destruct (timestamp_history r) as [|t0 ts] eqn:Hts.
  - split; [reflexivity|]. intros Hne. destruct (snr_history r); [congruence|].
    cbn in Hlen. lia.
  - split; [intros Hnil; rewrite Hnil in Hlen; cbn in Hlen; lia|].
    intros _. eexists. split; [reflexivity|].
    split; [now rewrite length_map|]. split.
    + cbn. f_equal. lra.
    + intros Hclock.
      pose proof (Sorted_Rle_sublist _ _ Hsub Hclock) as Hsorted.
      split; [|now apply Sorted_shift].
      apply Forall_map. eapply Forall_impl; [apply Sorted_head_least, Hsorted|].
      cbn. intros t Ht. lra.
Qed.

(** Two frames read at the clock readings 1 and 2: the relative times are
    0 and 1. *)
Lemma X27_relative_times_witness :
  exists s' r rel,
    run (mkConfig 4 1 ["raw"]) 10 (init_system (mkConfig 4 1 ["raw"]) 0)
      [EvWorker "raw" [] 0; EvWorker "raw" [Byte.x01] 1;
       EvWorker "raw" [] 1; EvWorker "raw" [Byte.x01] 2;
       EvCoord 6; EvCoord 6; EvCoord 6; EvCoord 6; EvCoord 6] = Ok s' /\
    results s' !! "raw" = Some r /\
    rel_times (timestamp_history r) = Ok rel /\
    length rel = 2%nat /\ head rel = Some 0%R /\
    Forall (fun t => (0 <= t)%R) rel.
Proof.
  destruct (X27_relative_times (mkConfig 4 1 ["raw"]) 10 0
              [EvWorker "raw" [] 0; EvWorker "raw" [Byte.x01] 1;
               EvWorker "raw" [] 1; EvWorker "raw" [Byte.x01] 2;
               EvCoord 6; EvCoord 6; EvCoord 6; EvCoord 6; EvCoord 6]
              "raw" ltac:(discriminate) ltac:(apply list_elem_of_here))
    as (s' & r & Hrun & Hr & _ & Hrel).
  destruct (two_frames_history 0 1 1 2) as (s2 & r2 & Hrun2 & Hr2 & Hne2 & Ht2).
  rewrite Hrun in Hrun2. injection Hrun2 as <-.
  rewrite Hr in Hr2. injection Hr2 as <-.
  destruct (Hrel Hne2) as (rel & Hok & Hlen & Hhd & Hmono).
  exists s', r, rel. split; [exact Hrun|]. split; [exact Hr|].
  split; [exact Hok|]. split.
  - rewrite Ht2 in Hok. cbn in Hok. injection Hok as <-. reflexivity.
  - split; [exact Hhd|]. apply Hmono.
    change (Sorted Rle [0; 1; 1; 2]%R). repeat constructor; lra.
Defined.
